(** * The quiz engine of [src/components/QuizBlock.vue]

    A shallow embedding of the session controller of the quiz component:
    question selection, the countdown, the focus monitor, navigation,
    the grading pass and the persisted session state, followed by the
    properties of the engine that are stated about it.

    Conventions.
    - JavaScript strings are [string] (sequences of 8-bit code units); the
      order used by [Array.prototype.sort] without a comparator is the
      lexicographic order on code units.
    - Timestamps ([Date.now()]) and point values are integers ([Z]).
    - JavaScript objects used as dictionaries ([state.answers],
      [state.questionTimings]) are [gmap string _].
    - The browser capabilities the component calls but does not define
      (the SQL engine, [crypto.subtle.digest], [JSON.stringify], the
      locale's time format) are parameters, packed in the record [Env].
    - Random choices ([Math.random] in the comparator of a sort) are an
      explicit input.
    - A handler runs at one clock reading, which the event that starts it
      carries.
    - A component is created by a page load and lives until the next one;
      what survives a load is the entry in [localStorage].
    - [finishTest] is asynchronous: it runs up to its first [await], and
      the rest runs when the call resumes.  Other handlers may run in
      between. *)

From Stdlib Require Import ZArith String Ascii List Lia Uint63 Floats.
From stdpp Require Import base option list sorting gmap strings.

Local Open Scope string_scope.
Local Open Scope list_scope.

(** ** JavaScript string primitives used by the component *)

Module Js.

(** White space as removed by [String.prototype.trim], restricted to the
    code units below 128: TAB, LF, VT, FF, CR and SPACE. *)
Definition is_ws (a : ascii) : bool :=
  let n := nat_of_ascii a in
  ((9 <=? n)%nat && (n <=? 13)%nat) || (n =? 32)%nat.

Fixpoint trimStart (s : string) : string :=
  match s with
  | EmptyString => EmptyString
  | String a r => if is_ws a then trimStart r else s
  end.

Definition is_empty (s : string) : bool :=
  match s with EmptyString => true | _ => false end.

Fixpoint trimEnd (s : string) : string :=
  match s with
  | EmptyString => EmptyString
  | String a r =>
      let r' := trimEnd r in
      if is_ws a && is_empty r' then EmptyString else String a r'
  end.

(** [s.trim()] *)
Definition trim (s : string) : string := trimEnd (trimStart s).

(** [s.replace(/;$/, "")]: the pattern has no [m] flag, so [$] matches at
    the end of the input only and at most one terminator is removed. *)
Fixpoint strip_terminator (s : string) : string :=
  match s with
  | EmptyString => EmptyString
  | String a r =>
      match r with
      | EmptyString => if Ascii.eqb a ";" then EmptyString else s
      | _ => String a (strip_terminator r)
      end
  end.

(** [xs.join(",")] *)
Fixpoint join_comma (xs : list string) : string :=
  match xs with
  | [] => ""
  | [x] => x
  | x :: rest => x +:+ "," +:+ join_comma rest
  end.

(** The order of [Array.prototype.sort()] on strings: lexicographic on
    code units, a proper prefix first. *)
Fixpoint str_leb (s t : string) : bool :=
  match s, t with
  | EmptyString, _ => true
  | String _ _, EmptyString => false
  | String a s', String b t' =>
      let x := nat_of_ascii a in
      let y := nat_of_ascii b in
      if (x <? y)%nat then true
      else if (y <? x)%nat then false
      else str_leb s' t'
  end.

Definition str_le (s t : string) : Prop := str_leb s t = true.

#[global] Instance str_le_dec s t : Decision (str_le s t).
Proof. unfold str_le. apply _. Defined.

(** [xs.sort()] on an array of strings.  The result of a sort by a total
    order does not depend on the algorithm; the engine's is a merge sort. *)
Definition sort (xs : list string) : list string := merge_sort str_le xs.

(** Decimal digits of a natural number, most significant first
    ([Number.prototype.toString] on a non-negative integer). *)
Fixpoint digits_fuel (fuel n : nat) (acc : string) : string :=
  match fuel with
  | O => acc
  | S f =>
      let d := ascii_of_nat (48 + n mod 10) in
      let acc' := String d acc in
      if (n <? 10)%nat then acc' else digits_fuel f (n / 10) acc'
  end.

Definition nat_toString (n : nat) : string := digits_fuel (S n) n "".

Definition Z_toString (z : Z) : string :=
  match z with
  | Zneg p => "-" +:+ nat_toString (Pos.to_nat p)
  | _ => nat_toString (Z.to_nat z)
  end.

(** [s.padStart(2, "0")] *)
Definition padStart2 (s : string) : string :=
  match s with
  | EmptyString => "00"
  | String a EmptyString => String "0" s
  | _ => s
  end.

(** [parseInt(s)] without a radix: leading white space, an optional sign,
    an optional [0x] prefix, then the longest run of digits; [None] is
    [NaN]. *)
Definition digit_val (radix : nat) (a : ascii) : option nat :=
  let n := nat_of_ascii a in
  let v :=
    if (48 <=? n)%nat && (n <=? 57)%nat then Some (n - 48)%nat
    else if (97 <=? n)%nat && (n <=? 122)%nat then Some (n - 87)%nat
    else if (65 <=? n)%nat && (n <=? 90)%nat then Some (n - 55)%nat
    else None in
  match v with
  | Some d => if (d <? radix)%nat then Some d else None
  | None => None
  end.

Fixpoint parse_digits (radix : nat) (s : string) (acc : option Z) : option Z :=
  match s with
  | EmptyString => acc
  | String a r =>
      match digit_val radix a with
      | Some d =>
          parse_digits radix r
            (Some (Z.of_nat radix * default 0%Z acc + Z.of_nat d)%Z)
      | None => acc
      end
  end.

Definition parse_unsigned (s : string) : option Z :=
  match s with
  | String "0" (String x r) =>
      if Ascii.eqb x "x" || Ascii.eqb x "X" then parse_digits 16 r None
      else parse_digits 10 s None
  | _ => parse_digits 10 s None
  end.

Definition parseInt (s : string) : option Z :=
  match trimStart s with
  | String "-" r => Z.opp <$> parse_unsigned r
  | String "+" r => parse_unsigned r
  | r => parse_unsigned r
  end.

End Js.


(** ** Data model *)

(** A JavaScript number that is an integer or [NaN]. *)
Inductive JsNum := Num (z : Z) | NaN.

(** A value in a result row of the SQL engine. *)
Inductive JsVal := VUndefined | VNull | VNum (z : Z) | VStr (s : string).

(** One row of [result.rows]: an object from column name to value, in
    column order. *)
Definition Row : Type := list (string * JsVal).

Record QOption := mkOption { opt_id : string; opt_text : string }.

(** A question of the quiz document.  [q_isCorrect] is the property
    [isCorrect] that the grading pass writes on the question object; it is
    absent, hence falsy, before. *)
Record Question := mkQuestion {
  q_id : string;
  q_type : string;
  q_text : string;
  q_points : Z;
  q_options : option (list QOption);
  q_correct_hash : string;
  q_correct_query : string;
  q_sort_required : bool;
  q_init_sql : option (list string);
  q_isCorrect : bool
}.

(** The fetched quiz document ([testData]). *)
Record TestData := mkTestData {
  title : string;
  time_limit : option Z;
  max_cheat_attempts : option Z;
  grading : gmap string Z;
  questions : list Question
}.

(** A value of [state.answers]: the text of an SQL answer or the array of
    selected option ids. *)
Inductive Answer := AText (s : string) | AList (ids : list string).

(** [state] of the component, field by field. *)
Record State := mkState {
  st_questions : list Question;
  answers : gmap string Answer;
  currentIndex : nat;
  startTime : Z;
  endTime : Z;
  questionTimings : gmap string JsNum;
  lastQuestionEntryTime : Z;
  cheatAttempts : Z;
  cheatLogs : list string;
  score : Z;
  maxScore : Z;
  grade : JsNum;
  isBlocked : bool
}.

Inductive Status :=
  INIT | LOADING | READY | IN_PROGRESS | COMPLETED | BLOCKED | COMPLETED_VIEW.

#[global] Instance Status_eq_dec : EqDecision Status.
Proof. solve_decision. Defined.

(** The component's props. *)
Record Props := mkProps {
  jsonPath : string;
  requiredIds : option (list string);
  count : Z
}.

(** Capabilities of the browser that the component uses: the embedded SQL
    engine ([new PGlite()], [db.exec], [db.query]; [None] is a rejected
    promise), the digest of [crypto.subtle] rendered in hexadecimal,
    [JSON.stringify] on result rows, and [toLocaleTimeString] of the date
    with a given time value. *)
Record Env := mkEnv {
  DB : Type;
  new_PGlite : DB;
  db_exec : DB -> string -> option DB;
  db_query : DB -> string -> option (list Row * DB);
  sha256 : string -> string;
  JSON_stringify : list Row -> string;
  toLocaleTimeString : Z -> string
}.

(** The initial value of [state]. *)
Definition state0 : State :=
  {| st_questions := []; answers := ∅; currentIndex := 0;
     startTime := 0; endTime := 0; questionTimings := ∅;
     lastQuestionEntryTime := 0; cheatAttempts := 0; cheatLogs := [];
     score := 0; maxScore := 0; grade := Num 0; isBlocked := false |}.

(** ** Multiset difference

    [EXCEPT ALL] keeps duplicates: every row of the right operand cancels
    one equal row of the left operand. *)

Fixpoint remove_one {A} `{EqDecision A} (x : A) (l : list A) : list A :=
  match l with
  | [] => []
  | y :: rest => if decide (x = y) then rest else y :: remove_one x rest
  end.

Definition except_all {A} `{EqDecision A} (l r : list A) : list A :=
  fold_left (fun acc x => remove_one x acc) r l.

#[global] Instance JsVal_eq_dec : EqDecision JsVal.
Proof. solve_decision. Defined.

(** The values of a row, without the column names. *)
Definition row_values (r : Row) : list JsVal := map snd r.

(** ** Grading (the loop body of [finishTest]) *)

Definition nl : string := String "010" "".

(** The statement sent to count the rows of [(a) EXCEPT ALL (b)], with the
    layout of the template literal in the source. *)
Definition except_all_count_sql (a b : string) : string :=
  nl +:+ "            SELECT count(*) as cnt " +:+ nl +:+
  "            FROM ((" +:+ a +:+ ") EXCEPT ALL (" +:+ b +:+ ")) as diff" +:+
  nl +:+ "        ".

Definition JsVal_toString (v : JsVal) : string :=
  match v with
  | VUndefined => "undefined"
  | VNull => "null"
  | VNum z => Js.Z_toString z
  | VStr s => s
  end.

(** [r.cnt] for a row object [r]. *)
Definition row_get (k : string) (r : Row) : JsVal :=
  match find (fun kv => String.eqb (fst kv) k) r with
  | Some kv => snd kv
  | None => VUndefined
  end.

(** [parseInt(res.rows[0].cnt as string)]; the outer [None] is the
    [TypeError] raised when there is no first row, [Some None] is [NaN]. *)
Definition first_cnt (rows : list Row) : option (option Z) :=
  match rows with
  | [] => None
  | r :: _ => Some (Js.parseInt (JsVal_toString (row_get "cnt" r)))
  end.

(** [for (const sql of initSql) await db.exec(sql)] *)
Fixpoint exec_all (E : Env) (db : DB E) (stmts : list string) : option (DB E) :=
  match stmts with
  | [] => Some db
  | s :: rest => db' ← db_exec E db s; exec_all E db' rest
  end.

(** [s.trim().replace(/;$/, "")] *)
Definition normalize_sql (s : string) : string :=
  Js.strip_terminator (Js.trim s).

(** Truthiness of [!studentSql || !studentSql.trim()] for a string. *)
Definition blank (s : string) : bool :=
  Js.is_empty s || Js.is_empty (Js.trim s).

(** Outcome of the comparison part of the SQL branch. *)
Record SqlCheck (E : Env) := mkSqlCheck {
  extraCount : option Z;
  missingCount : option Z;
  db_after : DB E
}.
Arguments extraCount {E}.
Arguments missingCount {E}.
Arguments db_after {E}.
Arguments mkSqlCheck {E}.

(** The two [EXCEPT ALL] statements and the two [parseInt]s; [None] when a
    statement is rejected or a result has no row (the exception is caught
    by the enclosing [try]). *)
Definition sql_counts (E : Env) (db : DB E) (studentSql correctQuery : string)
  : option (SqlCheck E) :=
  '(checkExtra, db1) ← db_query E db (except_all_count_sql studentSql correctQuery);
  '(checkMissing, db2) ← db_query E db1 (except_all_count_sql correctQuery studentSql);
  extra ← first_cnt checkExtra;
  missing ← first_cnt checkMissing;
  Some (mkSqlCheck extra missing db2).

Definition is_zero (n : option Z) : bool :=
  match n with Some 0%Z => true | _ => false end.

(** [extraCount === 0 && missingCount === 0] *)
Definition dataCorrect_of {E} (c : SqlCheck E) : bool :=
  is_zero (extraCount c) && is_zero (missingCount c).

(** The ordered comparison made when [q.sort_required] is set. *)
Definition ordered_equal (E : Env) (db : DB E) (studentSql correctQuery : string)
  : option bool :=
  '(resStudent, db1) ← db_query E db studentSql;
  '(resCorrect, _) ← db_query E db1 correctQuery;
  Some (String.eqb (JSON_stringify E resStudent) (JSON_stringify E resCorrect)).

(** The SQL branch for a non-blank answer text, with its exceptions:
    [None] is an exception that reaches the outer [catch]. *)
Definition grade_sql_text (E : Env) (q : Question) (answer : string) : option bool :=
  let studentSql := normalize_sql answer in
  let db := new_PGlite E in
  db1 ← exec_all E db (default [] (q_init_sql q));
  match db_query E db1 studentSql with
  | None => Some false
  | Some (_, db2) =>
      let correctQuery := normalize_sql (q_correct_query q) in
      c ← sql_counts E db2 studentSql correctQuery;
      let dataCorrect := dataCorrect_of c in
      if dataCorrect && q_sort_required q then
        same ← ordered_equal E (db_after c) studentSql correctQuery;
        Some same
      else Some dataCorrect
  end.

(** The value of [q.isCorrect] set by the SQL branch. *)
Definition grade_sql (E : Env) (q : Question) (a : option Answer) : bool :=
  match a with
  | Some (AText s) =>
      if blank s then false else default false (grade_sql_text E q s)
  | Some (AList _) => false
  | None => false
  end.

(** The multiple-choice branch: [userAnswers.sort()], [join(",")] and the
    digest.  [state.answers[q.id] || []] is a fresh empty array when the
    entry is absent or the empty string; a non-empty string is not an
    array.  Returns [q.isCorrect] and, when the stored array was sorted in
    place, its new contents. *)
Definition hash_answers (E : Env) (ids : list string) : string :=
  sha256 E (Js.join_comma (Js.sort ids)).

Definition grade_mc (E : Env) (q : Question) (a : option Answer)
  : bool * option (list string) :=
  match a with
  | Some (AList ids) =>
      (String.eqb (hash_answers E ids) (q_correct_hash q), Some (Js.sort ids))
  | Some (AText EmptyString) | None =>
      (String.eqb (hash_answers E []) (q_correct_hash q), None)
  | Some (AText _) => (false, None)
  end.

Definition set_isCorrect (q : Question) (b : bool) : Question :=
  {| q_id := q_id q; q_type := q_type q; q_text := q_text q;
     q_points := q_points q; q_options := q_options q;
     q_correct_hash := q_correct_hash q;
     q_correct_query := q_correct_query q;
     q_sort_required := q_sort_required q; q_init_sql := q_init_sql q;
     q_isCorrect := b |}.

(** One iteration of [for (const q of state.value.questions)]:
    the graded question and the answers after it. *)
Definition grade_question (E : Env) (ans : gmap string Answer) (q : Question)
  : Question * gmap string Answer :=
  if String.eqb (q_type q) "sql-select" then
    (set_isCorrect q (grade_sql E q (ans !! q_id q)), ans)
  else
    let '(ok, sorted) := grade_mc E q (ans !! q_id q) in
    (set_isCorrect q ok,
     match sorted with
     | Some ids => <[q_id q := AList ids]> ans
     | None => ans
     end).

(** The whole loop: graded questions, answers and [totalScore]. *)
Fixpoint grade_all (E : Env) (qs : list Question) (ans : gmap string Answer)
  : list Question * gmap string Answer * Z :=
  match qs with
  | [] => ([], ans, 0%Z)
  | q :: rest =>
      let '(q', ans1) := grade_question E ans q in
      let '(rest', ans2, total) := grade_all E rest ans1 in
      (q' :: rest', ans2,
       ((if q_isCorrect q' then q_points q' else 0) + total)%Z)
  end.

(** ** The grade *)

(** A JavaScript integer as a double (exact below 2^53). *)
Definition Z2F (z : Z) : float :=
  match z with
  | Z0 => PrimFloat.of_uint63 (Uint63.of_Z 0)
  | Zpos _ => PrimFloat.of_uint63 (Uint63.of_Z z)
  | Zneg p => PrimFloat.opp (PrimFloat.of_uint63 (Uint63.of_Z (Zpos p)))
  end.

(** [(totalScore / state.value.maxScore) * 100] *)
Definition percent (totalScore maxScore_ : Z) : float :=
  PrimFloat.mul (PrimFloat.div (Z2F totalScore) (Z2F maxScore_)) (Z2F 100).

Definition option_to_JsNum (o : option Z) : JsNum :=
  match o with Some z => Num z | None => NaN end.

(** The loop over [Object.keys(grading).sort().reverse()] with its [break]. *)
Fixpoint pick_grade (g : gmap string Z) (p : float) (keys : list string) : JsNum :=
  match keys with
  | [] => Num 2
  | gradeStr :: rest =>
      match g !! gradeStr with
      | Some threshold =>
          if PrimFloat.leb (Z2F threshold) p
          then option_to_JsNum (Js.parseInt gradeStr)
          else pick_grade g p rest
      | None => pick_grade g p rest
      end
  end.

Definition grade_keys (g : gmap string Z) : list string :=
  reverse (Js.sort (map fst (map_to_list g))).

Definition final_grade (td : TestData) (totalScore maxScore_ : Z) : JsNum :=
  pick_grade (grading td) (percent totalScore maxScore_) (grade_keys (grading td)).

(** ** Field updates of [state] *)

Definition set_st_questions (v : list Question) (s : State) : State :=
  {| st_questions := v; answers := answers s; currentIndex := currentIndex s;
     startTime := startTime s; endTime := endTime s;
     questionTimings := questionTimings s;
     lastQuestionEntryTime := lastQuestionEntryTime s;
     cheatAttempts := cheatAttempts s; cheatLogs := cheatLogs s;
     score := score s; maxScore := maxScore s; grade := grade s;
     isBlocked := isBlocked s |}.
Definition set_answers (v : gmap string Answer) (s : State) : State :=
  {| st_questions := st_questions s; answers := v;
     currentIndex := currentIndex s; startTime := startTime s;
     endTime := endTime s; questionTimings := questionTimings s;
     lastQuestionEntryTime := lastQuestionEntryTime s;
     cheatAttempts := cheatAttempts s; cheatLogs := cheatLogs s;
     score := score s; maxScore := maxScore s; grade := grade s;
     isBlocked := isBlocked s |}.
Definition set_currentIndex (v : nat) (s : State) : State :=
  {| st_questions := st_questions s; answers := answers s; currentIndex := v;
     startTime := startTime s; endTime := endTime s;
     questionTimings := questionTimings s;
     lastQuestionEntryTime := lastQuestionEntryTime s;
     cheatAttempts := cheatAttempts s; cheatLogs := cheatLogs s;
     score := score s; maxScore := maxScore s; grade := grade s;
     isBlocked := isBlocked s |}.
Definition set_startTime (v : Z) (s : State) : State :=
  {| st_questions := st_questions s; answers := answers s;
     currentIndex := currentIndex s; startTime := v; endTime := endTime s;
     questionTimings := questionTimings s;
     lastQuestionEntryTime := lastQuestionEntryTime s;
     cheatAttempts := cheatAttempts s; cheatLogs := cheatLogs s;
     score := score s; maxScore := maxScore s; grade := grade s;
     isBlocked := isBlocked s |}.
Definition set_endTime (v : Z) (s : State) : State :=
  {| st_questions := st_questions s; answers := answers s;
     currentIndex := currentIndex s; startTime := startTime s; endTime := v;
     questionTimings := questionTimings s;
     lastQuestionEntryTime := lastQuestionEntryTime s;
     cheatAttempts := cheatAttempts s; cheatLogs := cheatLogs s;
     score := score s; maxScore := maxScore s; grade := grade s;
     isBlocked := isBlocked s |}.
Definition set_questionTimings (v : gmap string JsNum) (s : State) : State :=
  {| st_questions := st_questions s; answers := answers s;
     currentIndex := currentIndex s; startTime := startTime s;
     endTime := endTime s; questionTimings := v;
     lastQuestionEntryTime := lastQuestionEntryTime s;
     cheatAttempts := cheatAttempts s; cheatLogs := cheatLogs s;
     score := score s; maxScore := maxScore s; grade := grade s;
     isBlocked := isBlocked s |}.
Definition set_lastQuestionEntryTime (v : Z) (s : State) : State :=
  {| st_questions := st_questions s; answers := answers s;
     currentIndex := currentIndex s; startTime := startTime s;
     endTime := endTime s; questionTimings := questionTimings s;
     lastQuestionEntryTime := v; cheatAttempts := cheatAttempts s;
     cheatLogs := cheatLogs s; score := score s; maxScore := maxScore s;
     grade := grade s; isBlocked := isBlocked s |}.
Definition set_cheatAttempts (v : Z) (s : State) : State :=
  {| st_questions := st_questions s; answers := answers s;
     currentIndex := currentIndex s; startTime := startTime s;
     endTime := endTime s; questionTimings := questionTimings s;
     lastQuestionEntryTime := lastQuestionEntryTime s; cheatAttempts := v;
     cheatLogs := cheatLogs s; score := score s; maxScore := maxScore s;
     grade := grade s; isBlocked := isBlocked s |}.
Definition set_cheatLogs (v : list string) (s : State) : State :=
  {| st_questions := st_questions s; answers := answers s;
     currentIndex := currentIndex s; startTime := startTime s;
     endTime := endTime s; questionTimings := questionTimings s;
     lastQuestionEntryTime := lastQuestionEntryTime s;
     cheatAttempts := cheatAttempts s; cheatLogs := v; score := score s;
     maxScore := maxScore s; grade := grade s; isBlocked := isBlocked s |}.
Definition set_score (v : Z) (s : State) : State :=
  {| st_questions := st_questions s; answers := answers s;
     currentIndex := currentIndex s; startTime := startTime s;
     endTime := endTime s; questionTimings := questionTimings s;
     lastQuestionEntryTime := lastQuestionEntryTime s;
     cheatAttempts := cheatAttempts s; cheatLogs := cheatLogs s; score := v;
     maxScore := maxScore s; grade := grade s; isBlocked := isBlocked s |}.
Definition set_maxScore (v : Z) (s : State) : State :=
  {| st_questions := st_questions s; answers := answers s;
     currentIndex := currentIndex s; startTime := startTime s;
     endTime := endTime s; questionTimings := questionTimings s;
     lastQuestionEntryTime := lastQuestionEntryTime s;
     cheatAttempts := cheatAttempts s; cheatLogs := cheatLogs s;
     score := score s; maxScore := v; grade := grade s;
     isBlocked := isBlocked s |}.
Definition set_grade (v : JsNum) (s : State) : State :=
  {| st_questions := st_questions s; answers := answers s;
     currentIndex := currentIndex s; startTime := startTime s;
     endTime := endTime s; questionTimings := questionTimings s;
     lastQuestionEntryTime := lastQuestionEntryTime s;
     cheatAttempts := cheatAttempts s; cheatLogs := cheatLogs s;
     score := score s; maxScore := maxScore s; grade := v;
     isBlocked := isBlocked s |}.
Definition set_isBlocked (v : bool) (s : State) : State :=
  {| st_questions := st_questions s; answers := answers s;
     currentIndex := currentIndex s; startTime := startTime s;
     endTime := endTime s; questionTimings := questionTimings s;
     lastQuestionEntryTime := lastQuestionEntryTime s;
     cheatAttempts := cheatAttempts s; cheatLogs := cheatLogs s;
     score := score s; maxScore := maxScore s; grade := grade s;
     isBlocked := v |}.

#[global] Instance JsNum_eq_dec : EqDecision JsNum.
Proof. solve_decision. Defined.
#[global] Instance QOption_eq_dec : EqDecision QOption.
Proof. solve_decision. Defined.
#[global] Instance Question_eq_dec : EqDecision Question.
Proof. solve_decision. Defined.
#[global] Instance Answer_eq_dec : EqDecision Answer.
Proof. solve_decision. Defined.
#[global] Instance State_eq_dec : EqDecision State.
Proof. solve_decision. Defined.

(** ** The component instance and its surroundings *)

(** Calls of [alert]. *)
Inductive Alert :=
  | TimeUp
  | CheatWarning (attempt : Z) (max : option Z).

(** The refs and variables of one mounted component ([status],
    [testData], [state], [timeLeft], [timerInterval]) together with what
    the window holds for it: the intervals that are running, whether
    [checkFocus] is registered for [blur] and [visibilitychange], the
    alerts shown, the number of [finishTest] calls suspended at an
    [await], and the entry of [localStorage] under [storageKey]. *)
Record Sys := mkSys {
  status : Status;
  testData : option TestData;
  state : State;
  timeLeft : string;
  timerInterval : option nat;
  intervals : list nat;
  next_interval : nat;
  listeners : bool;
  alerts : list Alert;
  grading_pending : nat;
  storage : option State
}.

Definition set_status (v : Status) (y : Sys) : Sys :=
  {| status := v; testData := testData y; state := state y;
     timeLeft := timeLeft y; timerInterval := timerInterval y;
     intervals := intervals y; next_interval := next_interval y;
     listeners := listeners y; alerts := alerts y;
     grading_pending := grading_pending y; storage := storage y |}.
Definition set_testData (v : option TestData) (y : Sys) : Sys :=
  {| status := status y; testData := v; state := state y;
     timeLeft := timeLeft y; timerInterval := timerInterval y;
     intervals := intervals y; next_interval := next_interval y;
     listeners := listeners y; alerts := alerts y;
     grading_pending := grading_pending y; storage := storage y |}.
Definition set_state (v : State) (y : Sys) : Sys :=
  {| status := status y; testData := testData y; state := v;
     timeLeft := timeLeft y; timerInterval := timerInterval y;
     intervals := intervals y; next_interval := next_interval y;
     listeners := listeners y; alerts := alerts y;
     grading_pending := grading_pending y; storage := storage y |}.
Definition set_timeLeft (v : string) (y : Sys) : Sys :=
  {| status := status y; testData := testData y; state := state y;
     timeLeft := v; timerInterval := timerInterval y;
     intervals := intervals y; next_interval := next_interval y;
     listeners := listeners y; alerts := alerts y;
     grading_pending := grading_pending y; storage := storage y |}.
Definition set_timerInterval (v : option nat) (y : Sys) : Sys :=
  {| status := status y; testData := testData y; state := state y;
     timeLeft := timeLeft y; timerInterval := v; intervals := intervals y;
     next_interval := next_interval y; listeners := listeners y;
     alerts := alerts y; grading_pending := grading_pending y;
     storage := storage y |}.
Definition set_intervals (v : list nat) (y : Sys) : Sys :=
  {| status := status y; testData := testData y; state := state y;
     timeLeft := timeLeft y; timerInterval := timerInterval y;
     intervals := v; next_interval := next_interval y;
     listeners := listeners y; alerts := alerts y;
     grading_pending := grading_pending y; storage := storage y |}.
Definition set_next_interval (v : nat) (y : Sys) : Sys :=
  {| status := status y; testData := testData y; state := state y;
     timeLeft := timeLeft y; timerInterval := timerInterval y;
     intervals := intervals y; next_interval := v; listeners := listeners y;
     alerts := alerts y; grading_pending := grading_pending y;
     storage := storage y |}.
Definition set_listeners (v : bool) (y : Sys) : Sys :=
  {| status := status y; testData := testData y; state := state y;
     timeLeft := timeLeft y; timerInterval := timerInterval y;
     intervals := intervals y; next_interval := next_interval y;
     listeners := v; alerts := alerts y;
     grading_pending := grading_pending y; storage := storage y |}.
Definition set_alerts (v : list Alert) (y : Sys) : Sys :=
  {| status := status y; testData := testData y; state := state y;
     timeLeft := timeLeft y; timerInterval := timerInterval y;
     intervals := intervals y; next_interval := next_interval y;
     listeners := listeners y; alerts := v;
     grading_pending := grading_pending y; storage := storage y |}.
Definition set_grading_pending (v : nat) (y : Sys) : Sys :=
  {| status := status y; testData := testData y; state := state y;
     timeLeft := timeLeft y; timerInterval := timerInterval y;
     intervals := intervals y; next_interval := next_interval y;
     listeners := listeners y; alerts := alerts y; grading_pending := v;
     storage := storage y |}.
Definition set_storage (v : option State) (y : Sys) : Sys :=
  {| status := status y; testData := testData y; state := state y;
     timeLeft := timeLeft y; timerInterval := timerInterval y;
     intervals := intervals y; next_interval := next_interval y;
     listeners := listeners y; alerts := alerts y;
     grading_pending := grading_pending y; storage := v |}.

Definition upd_state (f : State -> State) (y : Sys) : Sys :=
  set_state (f (state y)) y.

(** ** Question selection ([prepareQuestions]) *)

(** [xs.sort(() => Math.random() - 0.5)]: the array is permuted in place
    as the random draws decide.  The draws are an explicit input: each one
    picks the next element among those that remain, and when they run out
    the rest keeps its order. *)
Fixpoint shuffle {A} (draws : list nat) (xs : list A) : list A :=
  match draws with
  | [] => xs
  | d :: draws' =>
      match xs !! (d mod length xs)%nat with
      | Some x => x :: shuffle draws' (delete (d mod length xs)%nat xs)
      | None => xs
      end
  end.

(** The random draws of one call of [prepareQuestions]: for the pool, for
    the selection, and for the option list of each selected question. *)
Record Rand := mkRand {
  rnd_pool : list nat;
  rnd_selected : list nat;
  rnd_options : list (list nat)
}.

(** [pool.findIndex((q) => q.id === id)] *)
Fixpoint findIndex (id : string) (pool : list Question) : option nat :=
  match pool with
  | [] => None
  | q :: rest =>
      if String.eqb (q_id q) id then Some 0%nat else S <$> findIndex id rest
  end.

(** The [forEach] over [props.requiredIds]: matched questions move from
    the pool to the selection. *)
Fixpoint take_required (ids : list string) (pool selected : list Question)
  : list Question * list Question :=
  match ids with
  | [] => (pool, selected)
  | id :: ids' =>
      match findIndex id pool with
      | Some i =>
          match pool !! i with
          | Some q => take_required ids' (delete i pool) (selected ++ [q])
          | None => take_required ids' pool selected
          end
      | None => take_required ids' pool selected
      end
  end.

(** The array [selected] before the per-question [forEach]. *)
Definition select_questions (p : Props) (td : TestData) (r : Rand) : list Question :=
  let '(pool, selected) :=
    take_required (default [] (requiredIds p)) (questions td) [] in
  let pool := shuffle (rnd_pool r) pool in
  let needed := (count p - Z.of_nat (length selected))%Z in
  let selected :=
    if (0 <? needed)%Z then selected ++ take (Z.to_nat needed) pool
    else selected in
  shuffle (rnd_selected r) selected.

Definition set_options (o : option (list QOption)) (q : Question) : Question :=
  {| q_id := q_id q; q_type := q_type q; q_text := q_text q;
     q_points := q_points q; q_options := o;
     q_correct_hash := q_correct_hash q;
     q_correct_query := q_correct_query q;
     q_sort_required := q_sort_required q; q_init_sql := q_init_sql q;
     q_isCorrect := q_isCorrect q |}.

(** The body of [selected.forEach((q) => ...)] for one question. *)
Definition init_question (q : Question) (s : State) : State :=
  let a := if String.eqb (q_type q) "sql-select" then AText "" else AList [] in
  set_maxScore (maxScore s + q_points q)%Z
    (set_questionTimings (<[q_id q := Num 0]> (questionTimings s))
       (set_answers (<[q_id q := a]> (answers s)) s)).

(** The [forEach]: the state entries of every selected question, and the
    questions with their options shuffled. *)
Fixpoint init_questions (qs : list Question) (draws : list (list nat)) (s : State)
  : list Question * State :=
  match qs with
  | [] => ([], s)
  | q :: rest =>
      let q' := set_options (shuffle (default [] (head draws)) <$> q_options q) q in
      let '(rest', s') := init_questions rest (tail draws) (init_question q s) in
      (q' :: rest', s')
  end.

Definition prepareQuestions (p : Props) (td : TestData) (r : Rand) (s : State) : State :=
  let selected := select_questions p td r in
  let '(qs, s') := init_questions selected (rnd_options r) s in
  set_st_questions qs s'.

(** ** Timer, navigation, focus monitor, finish *)

(** [clearInterval(h)] and [setInterval(updateTimer, 1000)] *)
Definition clearInterval (h : option nat) (y : Sys) : Sys :=
  match h with
  | Some i => set_intervals (filter (fun j => j ≠ i) (intervals y)) y
  | None => y
  end.

Definition setInterval (y : Sys) : Sys :=
  let h := next_interval y in
  set_timerInterval (Some h)
    (set_next_interval (S h) (set_intervals (h :: intervals y) y)).

Definition addCheatListeners (y : Sys) : Sys := set_listeners true y.
Definition removeCheatListeners (y : Sys) : Sys := set_listeners false y.

(** [x += spent] on an entry of [questionTimings]; an absent entry is
    [undefined] and the sum is [NaN]. *)
Definition add_spent (old : option JsNum) (spent : Z) : JsNum :=
  match old with
  | Some (Num t) => Num (t + spent)
  | _ => NaN
  end.

(** [recordTime]; [None] is the [TypeError] of reading [.id] of
    [undefined] when [currentIndex] is out of range. *)
Definition recordTime (now : Z) (s : State) : option State :=
  q ← st_questions s !! currentIndex s;
  let spent := (now - lastQuestionEntryTime s)%Z in
  Some (set_questionTimings
          (<[q_id q := add_spent (questionTimings s !! q_id q) spent]>
             (questionTimings s)) s).

Definition nextQuestion (now : Z) (s : State) : option State :=
  s1 ← recordTime now s;
  if (Z.of_nat (currentIndex s1) <? Z.of_nat (length (st_questions s1)) - 1)%Z
  then Some (set_lastQuestionEntryTime now
               (set_currentIndex (S (currentIndex s1)) s1))
  else Some s1.

Definition prevQuestion (now : Z) (s : State) : option State :=
  s1 ← recordTime now s;
  if (0 <? currentIndex s1)%nat
  then Some (set_lastQuestionEntryTime now
               (set_currentIndex (pred (currentIndex s1)) s1))
  else Some s1.

(** Truthiness of an optional number ([x || d], [x && ...]). *)
Definition truthy (o : option Z) : option Z :=
  match o with
  | Some 0%Z | None => None
  | Some z => Some z
  end.

Definition cheat_line (E : Env) (now : Z) : string :=
  "Попытка списывания: " +:+ toLocaleTimeString E now.

(** [checkFocus]; [away] is
    [document.visibilityState === "hidden" || !document.hasFocus()]. *)
Definition checkFocus (E : Env) (away : bool) (now : Z) (y : Sys) : Sys :=
  if decide (status y = IN_PROGRESS) then
    if away then
      let y1 :=
        upd_state (fun s =>
          set_cheatLogs (cheatLogs s ++ [cheat_line E now])
            (set_cheatAttempts (cheatAttempts s + 1)%Z s)) y in
      match testData y1 with
      | None => y1
      | Some td =>
          let maxCheats := truthy (max_cheat_attempts td) in
          let blocked :=
            match maxCheats with
            | Some m => (m <=? cheatAttempts (state y1))%Z
            | None => false
            end in
          if blocked then
            removeCheatListeners
              (set_status BLOCKED
                 (upd_state (fun s => set_endTime now (set_isBlocked true s)) y1))
          else
            set_alerts
              (alerts y1 ++ [CheatWarning (cheatAttempts (state y1)) maxCheats]) y1
      end
    else y
  else y.

(** Whether the grading of [q] reaches an [await]. *)
Definition awaits (ans : gmap string Answer) (q : Question) : bool :=
  if String.eqb (q_type q) "sql-select" then
    match ans !! q_id q with
    | Some (AText s) => negb (blank s)
    | _ => false
    end
  else
    match ans !! q_id q with
    | Some (AText (String _ _)) => false
    | _ => true
    end.

(** The rest of [finishTest] from the grading loop on: grading, score,
    grade and the report view.  Without [testData] the read of
    [testData.value.grading] raises after the score is stored. *)
Definition finishTest_grade (E : Env) (y : Sys) : Sys :=
  let s := state y in
  let '(qs, ans, totalScore) := grade_all E (st_questions s) (answers s) in
  let y1 := upd_state (fun s =>
              set_score totalScore (set_answers ans (set_st_questions qs s))) y in
  match testData y1 with
  | None => y1
  | Some td =>
      set_status COMPLETED_VIEW
        (upd_state (set_grade (final_grade td totalScore (maxScore (state y1)))) y1)
  end.

(** [finishTest] up to its first suspension.  When no question makes the
    loop wait, the call runs to its end at once; otherwise it is left
    suspended and [grading_pending] counts it.  A [TypeError] in
    [recordTime] rejects the promise after [clearInterval]. *)
Definition finishTest (E : Env) (now : Z) (y : Sys) : Sys :=
  let y1 := clearInterval (timerInterval y) y in
  match recordTime now (state y1) with
  | None => y1
  | Some s1 =>
      let y2 := removeCheatListeners (set_state s1 y1) in
      let y3 := upd_state (set_endTime now) y2 in
      if existsb (awaits (answers (state y3))) (st_questions (state y3))
      then set_grading_pending (S (grading_pending y3)) y3
      else finishTest_grade E y3
  end.

(** The suspended call resumes and runs to its end.  The loop's waits are
    taken together: every question is graded on the answers as they are
    when the call resumes. *)
Definition finishTest_resume (E : Env) (y : Sys) : Sys :=
  match grading_pending y with
  | O => y
  | S n => finishTest_grade E (set_grading_pending n y)
  end.

Definition format_remaining (remaining : Z) : string :=
  let m := (remaining / 60000)%Z in
  let s := ((remaining mod 60000) / 1000)%Z in
  Js.padStart2 (Js.Z_toString m) +:+ ":" +:+ Js.padStart2 (Js.Z_toString s).

(** [remaining] in [updateTimer]. *)
Definition remaining_ms (td : TestData) (now : Z) (s : State) : Z :=
  let limitMinutes := default 20%Z (truthy (time_limit td)) in
  let limitMs := (limitMinutes * 60 * 1000)%Z in
  let elapsed := (now - startTime s)%Z in
  (limitMs - elapsed)%Z.

Definition updateTimer (E : Env) (now : Z) (y : Sys) : Sys :=
  if decide (status y = IN_PROGRESS) then
    match testData y with
    | None => y
    | Some td =>
        let remaining := remaining_ms td now (state y) in
        if (remaining <=? 0)%Z then
          let y1 := set_timeLeft "00:00" y in
          let y2 := finishTest E now y1 in
          set_alerts (alerts y2 ++ [TimeUp]) y2
        else set_timeLeft (format_remaining remaining) y
    end
  else y.

Definition startTest (E : Env) (now : Z) (y : Sys) : Sys :=
  let y1 := upd_state (fun s =>
              set_lastQuestionEntryTime now (set_startTime now s)) y in
  let y2 := addCheatListeners (set_status IN_PROGRESS y1) in
  setInterval (updateTimer E now y2).

(** ** Mounting *)

(** The component as a page load creates it; [localStorage] and the log of
    alerts are what remains of the page before. *)
Definition fresh_instance (y : Sys) : Sys :=
  {| status := INIT; testData := None; state := state0; timeLeft := "";
     timerInterval := None; intervals := []; next_interval := 0;
     listeners := false; alerts := alerts y; grading_pending := 0;
     storage := storage y |}.

(** The lockout test made on the restored state. *)
Definition reblock (td : TestData) (s : State) : State :=
  match truthy (max_cheat_attempts td) with
  | Some m => if (m <=? cheatAttempts s)%Z then set_isBlocked true s else s
  | None => s
  end.

(** [onMounted]; [fetched] is the parsed document, [None] when the
    response is not [ok] or the body is not JSON. *)
Definition onMounted (E : Env) (p : Props) (isChrome : bool)
    (fetched : option TestData) (r : Rand) (now : Z) (y : Sys) : Sys :=
  if isChrome then
    match fetched with
    | None => set_status INIT y
    | Some td =>
        let y1 := set_testData (Some td) (set_status LOADING y) in
        match storage y1 with
        | Some saved =>
            let y2 := set_state (reblock td saved) y1 in
            if isBlocked (state y2) then set_status COMPLETED y2
            else if (0 <? endTime (state y2))%Z then set_status COMPLETED y2
            else if (0 <? startTime (state y2))%Z then
              setInterval (updateTimer E now (set_status IN_PROGRESS y2))
            else set_status READY y2
        | None =>
            set_status READY (upd_state (prepareQuestions p td r) y1)
        end
    end
  else y.

(** ** Events *)

(** What can happen to a mounted component: a page load, the user's
    clicks and edits, a [blur] or [visibilitychange] event, a tick of an
    interval, and the resumption of a suspended [finishTest].  Each event
    that reads the clock carries the reading. *)
Inductive Event :=
  | EvLoad (isChrome : bool) (fetched : option TestData) (r : Rand) (now : Z)
  | EvStart (now : Z)
  | EvNext (now : Z)
  | EvPrev (now : Z)
  | EvAnswer (a : Answer)
  | EvFinish (now : Z)
  | EvFocus (away : bool) (now : Z)
  | EvTick (h : nat) (now : Z)
  | EvGraded
  | EvToggleView.

(** The deep watcher on [state]: a handler that changed [state] is
    followed by [localStorage.setItem(storageKey, JSON.stringify(state))]. *)
Definition persist (before after : Sys) : Sys :=
  if decide (state after = state before) then after
  else set_storage (Some (state after)) after.

(** The "next" button is rendered when [currentIndex < length - 1]; the
    "finish" button takes its place otherwise. *)
Definition next_shown (s : State) : bool :=
  (Z.of_nat (currentIndex s) <? Z.of_nat (length (st_questions s)) - 1)%Z.

Definition answer_fits (q : Question) (a : Answer) : bool :=
  match a with
  | AText _ => String.eqb (q_type q) "sql-select"
  | AList _ => negb (String.eqb (q_type q) "sql-select")
  end.

(** The [v-model] write of the question component that is shown. *)
Definition setAnswer (a : Answer) (s : State) : State :=
  match st_questions s !! currentIndex s with
  | Some q =>
      if answer_fits q a then set_answers (<[q_id q := a]> (answers s)) s
      else s
  | None => s
  end.

(** The buttons of the three closed views. *)
Definition toggleView (y : Sys) : Sys :=
  match status y with
  | COMPLETED =>
      set_status (if isBlocked (state y) then BLOCKED else COMPLETED_VIEW) y
  | COMPLETED_VIEW | BLOCKED => set_status COMPLETED y
  | _ => y
  end.

(** The handler an event runs, when the page offers it. *)
Definition handle (E : Env) (p : Props) (y : Sys) (ev : Event) : Sys :=
  match ev with
  | EvLoad isChrome fetched r now =>
      onMounted E p isChrome fetched r now (fresh_instance y)
  | EvStart now =>
      if decide (status y = READY) then startTest E now y else y
  | EvNext now =>
      if decide (status y = IN_PROGRESS) then
        if next_shown (state y) then
          default y ((fun s => set_state s y) <$> nextQuestion now (state y))
        else y
      else y
  | EvPrev now =>
      if decide (status y = IN_PROGRESS) then
        if (0 <? currentIndex (state y))%nat then
          default y ((fun s => set_state s y) <$> prevQuestion now (state y))
        else y
      else y
  | EvAnswer a =>
      if decide (status y = IN_PROGRESS) then upd_state (setAnswer a) y else y
  | EvFinish now =>
      if decide (status y = IN_PROGRESS) then
        if next_shown (state y) then y else finishTest E now y
      else y
  | EvFocus away now =>
      if listeners y then checkFocus E away now y else y
  | EvTick h now =>
      if decide (h ∈ intervals y) then updateTimer E now y else y
  | EvGraded => finishTest_resume E y
  | EvToggleView => toggleView y
  end.

Definition step (E : Env) (p : Props) (y : Sys) (ev : Event) : Sys :=
  match ev with
  | EvLoad _ _ _ _ => persist (fresh_instance y) (handle E p y ev)
  | _ => persist y (handle E p y ev)
  end.

Definition run (E : Env) (p : Props) (evs : list Event) (y : Sys) : Sys :=
  fold_left (step E p) evs y.

(** Before the first page load: nothing mounted, nothing stored. *)
Definition sys0 : Sys :=
  {| status := INIT; testData := None; state := state0; timeLeft := "";
     timerInterval := None; intervals := []; next_interval := 0;
     listeners := false; alerts := []; grading_pending := 0;
     storage := None |}.

(** The clock reading of an event. *)
Definition clock (ev : Event) : option Z :=
  match ev with
  | EvLoad _ _ _ now | EvStart now | EvNext now | EvPrev now
  | EvFinish now | EvFocus _ now | EvTick _ now => Some now
  | EvAnswer _ | EvGraded | EvToggleView => None
  end.

(** The document a page load fetched. *)
Definition fetched_doc (ev : Event) : option TestData :=
  match ev with
  | EvLoad _ fetched _ _ => fetched
  | _ => None
  end.

(** ** A small SQL engine for running examples

    The engine used in the browser is not part of the component.  To run
    the grading code on concrete statements, this section gives an
    interpreter for the fragment of SQL that the examples use: integer
    [SELECT]s and [VALUES] lists, parentheses, [EXCEPT ALL] and
    [UNION ALL], the row-count wrapper that the grader sends, and line
    comments, which run to the end of the line. *)

Module MiniSql.

Inductive token :=
  | TLParen | TRParen | TComma | TSemi | TStar
  | TNum (n : Z)
  | TWord (w : string)
  | TBad.

Definition is_digit (a : ascii) : bool :=
  let n := nat_of_ascii a in (48 <=? n)%nat && (n <=? 57)%nat.

Definition lower (a : ascii) : ascii :=
  let n := nat_of_ascii a in
  if (65 <=? n)%nat && (n <=? 90)%nat then ascii_of_nat (n + 32) else a.

Definition is_letter (a : ascii) : bool :=
  let n := nat_of_ascii (lower a) in
  ((97 <=? n)%nat && (n <=? 122)%nat) || (n =? 95)%nat.

(** What the scanner is in the middle of. *)
Inductive mode :=
  | Plain
  | InNum (n : Z)
  | InWord (w : string)
  | InComment.

Definition flush (m : mode) : list token :=
  match m with
  | InNum n => [TNum n]
  | InWord w => [TWord w]
  | _ => []
  end.

Definition single (a : ascii) : token :=
  if Ascii.eqb a "(" then TLParen
  else if Ascii.eqb a ")" then TRParen
  else if Ascii.eqb a "," then TComma
  else if Ascii.eqb a ";" then TSemi
  else if Ascii.eqb a "*" then TStar
  else TBad.

Fixpoint scan (m : mode) (s : string) : list token :=
  match s with
  | EmptyString => flush m
  | String a r =>
      match m with
      | InComment =>
          if Ascii.eqb a "010" then scan Plain r else scan InComment r
      | _ =>
          let dash2 :=
            match r with
            | String b _ => Ascii.eqb a "-" && Ascii.eqb b "-"
            | EmptyString => false
            end in
          if dash2 then flush m ++ scan InComment r
          else if is_digit a then
            let d := Z.of_nat (nat_of_ascii a - 48) in
            match m with
            | InNum n => scan (InNum (10 * n + d)) r
            | InWord w => scan (InWord (w +:+ String a "")) r
            | _ => scan (InNum d) r
            end
          else if is_letter a then
            match m with
            | InWord w => scan (InWord (w +:+ String (lower a) "")) r
            | _ => flush m ++ scan (InWord (String (lower a) "")) r
            end
          else if Js.is_ws a then flush m ++ scan Plain r
          else flush m ++ single a :: scan Plain r
      end
  end.

Inductive query :=
  | QValues (rows : list Z)
  | QConst (n : Z)
  | QCount (alias : string) (sub : query)
  | QExceptAll (a b : query)
  | QUnionAll (a b : query).

(** [(n), (n), ...] after [VALUES]. *)
Fixpoint parse_rows (fuel : nat) (ts : list token) : option (list Z * list token) :=
  match fuel with
  | O => None
  | S f =>
      match ts with
      | TLParen :: TNum n :: TRParen :: TComma :: rest =>
          '(more, rest') ← parse_rows f rest; Some (n :: more, rest')
      | TLParen :: TNum n :: TRParen :: rest => Some ([n], rest)
      | _ => None
      end
  end.

Fixpoint parse_query (fuel : nat) (ts : list token) : option (query * list token) :=
  match fuel with
  | O => None
  | S f =>
      let term :=
        match ts with
        | TLParen :: rest =>
            '(q, rest1) ← parse_query f rest;
            match rest1 with
            | TRParen :: rest2 => Some (q, rest2)
            | _ => None
            end
        | TWord "values" :: rest =>
            '(rows, rest1) ← parse_rows f rest; Some (QValues rows, rest1)
        | TWord "select" :: TNum n :: rest => Some (QConst n, rest)
        | TWord "select" :: TWord "count" :: TLParen :: TStar :: TRParen
            :: TWord "as" :: TWord alias :: TWord "from" :: TLParen :: rest =>
            '(q, rest1) ← parse_query f rest;
            match rest1 with
            | TRParen :: TWord "as" :: TWord _ :: rest2 =>
                Some (QCount alias q, rest2)
            | _ => None
            end
        | _ => None
        end in
      '(q, rest) ← term;
      parse_tail f q rest
  end
with parse_tail (fuel : nat) (left : query) (ts : list token)
  : option (query * list token) :=
  match fuel with
  | O => None
  | S f =>
      match ts with
      | TWord "except" :: TWord "all" :: rest =>
          '(q, rest1) ← parse_operand f rest;
          parse_tail f (QExceptAll left q) rest1
      | TWord "union" :: TWord "all" :: rest =>
          '(q, rest1) ← parse_operand f rest;
          parse_tail f (QUnionAll left q) rest1
      | _ => Some (left, ts)
      end
  end
with parse_operand (fuel : nat) (ts : list token) : option (query * list token) :=
  match fuel with
  | O => None
  | S f =>
      match ts with
      | TLParen :: rest =>
          '(q, rest1) ← parse_query f rest;
          match rest1 with
          | TRParen :: rest2 => Some (q, rest2)
          | _ => None
          end
      | TWord "values" :: rest =>
          '(rows, rest1) ← parse_rows f rest; Some (QValues rows, rest1)
      | TWord "select" :: TNum n :: rest => Some (QConst n, rest)
      | _ => None
      end
  end.

(** One statement, with an optional terminator. *)
Definition parse (s : string) : option query :=
  let ts := scan Plain s in
  '(q, rest) ← parse_query (S (length ts)) ts;
  match rest with
  | [] | [TSemi] => Some q
  | _ => None
  end.

(** The column name and the values of the result. *)
Fixpoint eval (q : query) : string * list Z :=
  match q with
  | QValues rows => ("column1", rows)
  | QConst n => ("?column?", [n])
  | QCount alias sub => (alias, [Z.of_nat (length (snd (eval sub)))])
  | QExceptAll a b => (fst (eval a), except_all (snd (eval a)) (snd (eval b)))
  | QUnionAll a b => (fst (eval a), snd (eval a) ++ snd (eval b))
  end.

Definition rows_of (r : string * list Z) : list Row :=
  map (fun v => [(fst r, VNum v)]) (snd r).

Definition query_rows (s : string) : option (list Row) :=
  (fun q => rows_of (eval q)) <$> parse s.

Definition quoted (s : string) : string :=
  String "034" (s +:+ String "034" EmptyString).

Definition show_val (v : JsVal) : string :=
  match v with
  | VNum z => Js.Z_toString z
  | VStr s => quoted s
  | _ => "null"
  end.

Definition show_row (r : Row) : string :=
  "{" +:+ Js.join_comma
            (map (fun kv => quoted (fst kv) +:+ ":" +:+ show_val (snd kv)) r)
      +:+ "}".

Definition show_rows (rows : list Row) : string :=
  "[" +:+ Js.join_comma (map show_row rows) +:+ "]".

(** The engine has no tables: its state is trivial, [exec] accepts what
    parses.  The digest is a stand-in that keeps the message; the time of
    day is the time value in decimal. *)
Definition env : Env :=
  {| DB := unit;
     new_PGlite := tt;
     db_exec := fun _ s => (fun _ => tt) <$> parse s;
     db_query := fun _ s => (fun rows => (rows, tt)) <$> query_rows s;
     sha256 := fun m => "sha256:" +:+ m;
     JSON_stringify := show_rows;
     toLocaleTimeString := Js.Z_toString |}.

End MiniSql.

(** * Statements and example data

    The vocabulary of the properties below, the properties in the words
    of the specification where the code departs from them, and the small
    quizzes and sessions on which the code is run. *)

(** Lexicographic order on strings, as a relation: the empty string comes
    first, a smaller first code unit decides, equal first code units defer
    to the rest. *)
Inductive lex_le : string -> string -> Prop :=
  | lex_nil t : lex_le EmptyString t
  | lex_lt a b s t :
      (nat_of_ascii a < nat_of_ascii b)%nat -> lex_le (String a s) (String b t)
  | lex_eq a s t : lex_le s t -> lex_le (String a s) (String a t).

(** The required questions that were found, in the order of
    [props.requiredIds]: the array [selected] after the first [forEach]. *)
Definition matched_required (p : Props) (td : TestData) : list Question :=
  snd (take_required (default [] (requiredIds p)) (questions td) []).

(** The points of a list of questions, each counted once. *)
Fixpoint sum_points (qs : list Question) : Z :=
  match qs with
  | [] => 0
  | q :: rest => q_points q + sum_points rest
  end.

(** The selection property as the specification words it: every required
    id present, length [min(count, available)], no duplicate ids, and the
    points of each selected question counted once in [maxScore]. *)
Definition selection_as_specified (p : Props) (td : TestData) (r : Rand) : Prop :=
  let s := prepareQuestions p td r state0 in
  (forall id, id ∈ default [] (requiredIds p) -> id ∈ q_id <$> st_questions s) /\
  Z.of_nat (length (st_questions s))
    = Z.min (count p) (Z.of_nat (length (questions td))) /\
  NoDup (q_id <$> st_questions s) /\
  maxScore s = sum_points (st_questions s).

(** A multiple-choice question with the options [x] and [y]. *)
Definition mc_question (id : string) (points : Z) (hash : string) : Question :=
  {| q_id := id; q_type := "multiple-choice"; q_text := EmptyString;
     q_points := points;
     q_options := Some [mkOption "x" "first"; mkOption "y" "second"];
     q_correct_hash := hash; q_correct_query := EmptyString;
     q_sort_required := false; q_init_sql := None; q_isCorrect := false |}.

(** A small quiz: three multiple-choice questions [a], [b], [c] worth 1,
    2 and 3 points, 20 minutes, and the given limit of violations. *)
Definition abc_quiz (max_cheats : option Z) : TestData :=
  {| title := "abc"; time_limit := Some 20%Z; max_cheat_attempts := max_cheats;
     grading := {[ "5" := 90%Z; "4" := 70%Z; "3" := 50%Z ]};
     questions := [mc_question "a" 1 (sha256 MiniSql.env "x");
                   mc_question "b" 2 (sha256 MiniSql.env "x,y");
                   mc_question "c" 3 (sha256 MiniSql.env "y")] |}.

(** No random draw: every shuffle keeps the order. *)
Definition no_draws : Rand := mkRand [] [] [].




(** What the grader relies on from the engine for a pair of statements
    [a], [b] that return [ra] and [rb] in the state [db]: the row-count
    wrapper around [(a) EXCEPT ALL (b)] returns one row whose [cnt] reads
    as the size of the multiset difference of the rows' values, and leaves
    the state as it was. *)
Definition engine_counts_except_all (E : Env) (db : DB E)
    (a b : string) (ra rb : list Row) : Prop :=
  exists (row : Row) (more : list Row),
    db_query E db (except_all_count_sql a b) = Some (row :: more, db) /\
    Js.parseInt (JsVal_toString (row_get "cnt" row))
      = Some (Z.of_nat (length (except_all (row_values <$> ra) (row_values <$> rb)))).

(** An SQL question without setup statements. *)
Definition sql_question (id : string) (points : Z) (reference : string)
    (ordered : bool) : Question :=
  {| q_id := id; q_type := "sql-select"; q_text := EmptyString;
     q_points := points; q_options := None; q_correct_hash := EmptyString;
     q_correct_query := reference; q_sort_required := ordered;
     q_init_sql := None; q_isCorrect := false |}.

(** The round trip as the specification words it: whenever the setup and
    the reference statement run, an answer that normalises to the
    reference grades correct. *)
Definition roundtrip_as_specified (E : Env) (q : Question) (answer : string) : Prop :=
  blank answer = false ->
  normalize_sql answer = normalize_sql (q_correct_query q) ->
  (exists db rows db',
     exec_all E (new_PGlite E) (default [] (q_init_sql q)) = Some db /\
     db_query E db (normalize_sql (q_correct_query q)) = Some (rows, db')) ->
  grade_sql E q (Some (AText answer)) = true.

(** One call of [finishTest] followed to its end: the synchronous part
    and, when the call was suspended, its resumption. *)
Definition finishTest_to_end (E : Env) (now : Z) (y : Sys) : Sys :=
  let y1 := finishTest E now y in
  if decide (grading_pending y1 = grading_pending y) then y1
  else finishTest_resume E y1.


(** Props asking for all three questions, none of them required. *)
Definition abc_props : Props := mkProps "abc.json" None 3.

(** A session of the three-question quiz: loaded, started, two questions
    answered, and finished at time 5000 on the last question.  The call of
    [finishTest] is suspended in the grading loop: [endTime] is stamped,
    the status is still [IN_PROGRESS] and the finish button is still
    shown. *)
Definition abc_finishing : Sys :=
  run MiniSql.env abc_props
    [EvLoad true (Some (abc_quiz None)) no_draws 1000; EvStart 2000;
     EvAnswer (AList ["x"]); EvNext 3000; EvAnswer (AList ["y"; "x"]);
     EvNext 4000; EvFinish 5000] sys0.

(** The state a completed call of [finishTest] leaves, from the state
    after [recordTime]. *)
Definition finished_state (E : Env) (td : TestData) (now : Z) (s1 : State) : State :=
  let '(qs, ans, totalScore) := grade_all E (st_questions s1) (answers s1) in
  set_grade (final_grade td totalScore (maxScore s1))
    (set_score totalScore
       (set_answers ans (set_st_questions qs (set_endTime now s1)))).

(** An answer up to the order of a selection. *)
Definition sorted_answer (a : Answer) : Answer :=
  match a with
  | AList ids => AList (Js.sort ids)
  | AText _ => a
  end.

(** Two answer maps that agree up to the order of the selections. *)
Definition same_answers (a b : gmap string Answer) : Prop :=
  forall k, sorted_answer <$> a !! k = sorted_answer <$> b !! k.

(** The graded copy of a question differs from it in [isCorrect] only,
    and grading does not read [isCorrect]. *)
Definition graded_of (q q' : Question) : Prop :=
  exists b, q' = set_isCorrect q b.

(** The violation counter and the violation log of a state, and their
    agreement. *)
Definition cheat_fields (s : State) : Z * list string :=
  (cheatAttempts s, cheatLogs s).

Definition counts_agree (s : State) : Prop :=
  cheatAttempts s = Z.of_nat (length (cheatLogs s)).

(** What one event does to the two fields. *)
Definition cheat_effect (E : Env) (y : Sys) (ev : Event) : Z * list string :=
  match ev with
  | EvLoad isChrome fetched _ _ =>
      match storage y, isChrome, fetched with
      | Some saved, true, Some _ => cheat_fields saved
      | _, _, _ => (0%Z, [])
      end
  | EvFocus true now =>
      if listeners y && bool_decide (status y = IN_PROGRESS)
      then ((cheatAttempts (state y) + 1)%Z, cheatLogs (state y) ++ [cheat_line E now])
      else cheat_fields (state y)
  | _ => cheat_fields (state y)
  end.

(** A session started at time 2000 with a limit of 20 minutes and at most
    2 violations, and the page reloaded five minutes later. *)
Definition abc_resumed : Sys :=
  run MiniSql.env abc_props
    [EvLoad true (Some (abc_quiz (Some 2%Z))) no_draws 1000; EvStart 2000;
     EvLoad true (Some (abc_quiz (Some 2%Z))) no_draws 302000] sys0.

(** A session with one violation under a document without a limit, and
    the page reloaded after the document was changed to allow one
    violation at most. *)
Definition abc_reblocked : Sys :=
  run MiniSql.env abc_props
    [EvLoad true (Some (abc_quiz None)) no_draws 1000; EvStart 2000;
     EvFocus true 3000;
     EvLoad true (Some (abc_quiz (Some 1%Z))) no_draws 4000] sys0.

(** The lockout flag implies a stamped [endTime], and a counter that has
    reached the limit of [td] implies the flag. *)
Definition lockout_complete (td : TestData) (s : State) : Prop :=
  (isBlocked s = true -> (0 < endTime s)%Z) /\
  (forall m, truthy (max_cheat_attempts td) = Some m ->
             (m <= cheatAttempts s)%Z -> isBlocked s = true).

(** A handler that touches neither the flag nor the counter and leaves
    [endTime] alone or stamps it with a positive time. *)
Definition keeps_lock (s s' : State) : Prop :=
  isBlocked s' = isBlocked s /\
  cheatAttempts s' = cheatAttempts s /\
  (endTime s' = endTime s \/ (0 < endTime s')%Z).

(** The document is there whenever the test is ready or in progress. *)
Definition has_document (td : TestData) (y : Sys) : Prop :=
  (forall d, testData y = Some d -> d = td) /\
  (status y = READY \/ status y = IN_PROGRESS -> testData y = Some td).

(** The event reads a positive clock and, when it is a page load, fetches
    the document [td] or nothing. *)
Definition event_under (td : TestData) (ev : Event) : Prop :=
  (forall now, clock ev = Some now -> (0 < now)%Z) /\
  (forall d, fetched_doc ev = Some d -> d = td).

(** A quiz of two SQL questions with a limit of 20 minutes. *)
Definition sql_quiz : TestData :=
  {| title := "sql"; time_limit := Some 20%Z; max_cheat_attempts := None;
     grading := {[ "5" := 90%Z; "4" := 70%Z; "3" := 50%Z ]};
     questions := [sql_question "s1" 5 "VALUES (1),(2);" false;
                   sql_question "s2" 5 "SELECT 1" true] |}.

(** Props asking for both questions. *)
Definition sql_props : Props := mkProps "sql.json" None 2.

(** A session started at time 2000, the first question answered, and the
    page reloaded one millisecond after the limit. *)
Definition sql_expired_on_reload : Sys :=
  run MiniSql.env sql_props
    [EvLoad true (Some sql_quiz) no_draws 1000; EvStart 2000;
     EvAnswer (AText "VALUES (2),(1)");
     EvLoad true (Some sql_quiz) no_draws 1202001] sys0.

(** * The other functions of the components *)

(** ** [QuestionMultipleChoice.vue] *)



(** ** The report of [QuizBlock.vue] *)

(** [xs.join(sep)] *)
Fixpoint join_with (sep : string) (xs : list string) : string :=
  match xs with
  | [] => EmptyString
  | [x] => x
  | x :: rest => x +:+ sep +:+ join_with sep rest
  end.

(** What [getSelectedOptionTexts] returns: the empty array for a question
    without options, a string otherwise. *)
Inductive OptionTexts :=
  | NoOptions
  | Texts (joined : string).

Definition getSelectedOptionTexts (q : Question) (selectedIds : list string)
  : OptionTexts :=
  match q_options q with
  | None => NoOptions
  | Some options =>
      Texts (join_with ", "
               (opt_text <$>
                  filter (fun opt => opt_id opt ∈ selectedIds) options))
  end.

(** Truthiness of the result, as [||] in the template tests it: an array
    is truthy, a string is truthy unless empty. *)
Definition texts_truthy (t : OptionTexts) : bool :=
  match t with
  | NoOptions => true
  | Texts s => negb (Js.is_empty s)
  end.

(** The numbers [formatTime] prints: [m] and [s % 60] for
    [s = Math.floor(ms / 1000)], [m = Math.floor(s / 60)]. *)
Definition formatTime_parts (ms : Z) : Z * Z :=
  let s := (ms / 1000)%Z in
  let m := (s / 60)%Z in
  (m, Z.rem s 60).

Definition formatTime (ms : Z) : string :=
  let '(m, s) := formatTime_parts ms in
  Js.Z_toString m +:+ "м " +:+ Js.Z_toString s +:+ "с".

(** ** [Repl.vue] *)

(** The loop of [onMounted]: every initial query is executed, a rejected
    one is logged and the loop goes on with the database as it is. *)
Fixpoint repl_init (E : Env) (pg : DB E) (initialQueries : list string) : DB E :=
  match initialQueries with
  | [] => pg
  | query :: rest => repl_init E (default pg (db_exec E pg query)) rest
  end.

(** ** Vocabulary of the further properties *)


(** An option id that [join(",")] cannot confuse with two: not empty and
    without a comma. *)
Fixpoint no_comma (s : string) : bool :=
  match s with
  | EmptyString => true
  | String a r => negb (Ascii.eqb a ",") && no_comma r
  end.

Definition plain_id (s : string) : Prop :=
  s <> EmptyString /\ no_comma s = true.

(** [q.type === "sql-select" ? "" : []], the entry [prepareQuestions]
    writes in [state.answers]. *)
Definition initial_answer (q : Question) : Answer :=
  if String.eqb (q_type q) "sql-select" then AText EmptyString else AList [].

(** A selected question is a question of the document with its options
    rearranged. *)
Definition reordered_options (q q' : Question) : Prop :=
  q_id q' = q_id q /\ q_type q' = q_type q /\ q_text q' = q_text q /\
  q_points q' = q_points q /\ q_correct_hash q' = q_correct_hash q /\
  q_correct_query q' = q_correct_query q /\
  q_sort_required q' = q_sort_required q /\ q_init_sql q' = q_init_sql q /\
  q_isCorrect q' = q_isCorrect q /\
  match q_options q, q_options q' with
  | Some options, Some options' => options' ≡ₚ options
  | None, None => True
  | _, _ => False
  end.

(** The elementary changes that the handlers make to [state]:
    [recordTime], a move of the index with its stamp, a [v-model] write,
    the stamp of [endTime], the violation count, the lockout, the stamps
    of [startTest], and the result of the grading loop with and without
    the grade. *)
Inductive edit (E : Env) : State -> State -> Prop :=
  | edit_record now s s' :
      recordTime now s = Some s' -> edit E s s'
  | edit_forward now s :
      (S (currentIndex s) < length (st_questions s))%nat ->
      edit E s (set_lastQuestionEntryTime now (set_currentIndex (S (currentIndex s)) s))
  | edit_back now s :
      edit E s (set_lastQuestionEntryTime now (set_currentIndex (pred (currentIndex s)) s))
  | edit_answer a s :
      edit E s (setAnswer a s)
  | edit_endTime now s :
      edit E s (set_endTime now s)
  | edit_violation now s :
      edit E s (set_cheatLogs (cheatLogs s ++ [cheat_line E now])
                  (set_cheatAttempts (cheatAttempts s + 1)%Z s))
  | edit_block now s :
      edit E s (set_endTime now (set_isBlocked true s))
  | edit_start now s :
      edit E s (set_lastQuestionEntryTime now (set_startTime now s))
  | edit_graded s :
      edit E s
        (let '(qs, ans, totalScore) := grade_all E (st_questions s) (answers s) in
         set_score totalScore (set_answers ans (set_st_questions qs s)))
  | edit_grade g s :
      edit E s (set_grade g s).

(** A state from which a page load starts: the initial one, a fresh
    selection from a document, or a stored one after the lockout test. *)
Inductive loaded (p : Props) (docs : TestData -> Prop) (stored : option State)
  : State -> Prop :=
  | loaded_initial : loaded p docs stored state0
  | loaded_fresh td r :
      docs td -> loaded p docs stored (prepareQuestions p td r state0)
  | loaded_saved td saved :
      docs td -> stored = Some saved -> loaded p docs stored (reblock td saved).

(** Every page load of the trace that fetches a document fetches one in
    [docs]. *)
Definition fetches (docs : TestData -> Prop) (ev : Event) : Prop :=
  forall d, fetched_doc ev = Some d -> docs d.

(** A session whose maps and index fit its questions: every question has
    an answer entry and a timing bucket that holds a number, no bucket
    holds [NaN], and the index points at a question when there is one. *)
Definition well_formed (s : State) : Prop :=
  (forall q, q ∈ st_questions s ->
     (exists t, questionTimings s !! q_id q = Some (Num t)) /\
     is_Some (answers s !! q_id q)) /\
  (forall id v, questionTimings s !! id = Some v -> v <> NaN) /\
  ((currentIndex s < length (st_questions s))%nat \/
   (st_questions s = [] /\ currentIndex s = 0%nat)).

(** A document whose questions have no negative points. *)
Definition points_not_negative (td : TestData) : Prop :=
  Forall (fun q => (0 <= q_points q)%Z) (questions td).

(** The score lies between 0 and [maxScore], which is the sum of the
    points of the selected questions. *)
Definition score_in_range (s : State) : Prop :=
  maxScore s = sum_points (st_questions s) /\
  Forall (fun q => (0 <= q_points q)%Z) (st_questions s) /\
  (0 <= score s <= maxScore s)%Z.

Definition is_load (ev : Event) : bool :=
  match ev with
  | EvLoad _ _ _ _ => true
  | _ => false
  end.

(** No test is offered or running, and no call of [finishTest] is
    suspended. *)
Definition at_rest (y : Sys) : Prop :=
  status y <> READY /\ status y <> IN_PROGRESS /\ grading_pending y = 0%nat.

(** The intervals that are left when [finishTest] has cleared the one
    held in [timerInterval]. *)
Definition cleared (y : Sys) : list nat :=
  match timerInterval y with
  | Some i => filter (fun j => j ≠ i) (intervals y)
  | None => intervals y
  end.

(** A handler that leaves alone whatever decides which handlers an event
    reaches: the view, the document, the registration of [checkFocus],
    the suspended calls, the intervals, the lockout flag and the number
    of questions. *)
Definition same_controls (y y' : Sys) : Prop :=
  status y' = status y /\ testData y' = testData y /\
  listeners y' = listeners y /\ grading_pending y' = grading_pending y /\
  intervals y' = intervals y /\ timerInterval y' = timerInterval y /\
  isBlocked (state y') = isBlocked (state y) /\
  length (st_questions (state y')) = length (st_questions (state y)).

(** What a call of [finishTest] does to the same fields: the interval is
    cleared; then the call is rejected in [recordTime], or it is
    suspended in the grading loop, or it runs to its end. *)
Definition finish_effect (now : Z) (y y' : Sys) : Prop :=
  testData y' = testData y /\ timerInterval y' = timerInterval y /\
  isBlocked (state y') = isBlocked (state y) /\
  length (st_questions (state y')) = length (st_questions (state y)) /\
  intervals y' = cleared y /\
  ((recordTime now (state y) = None /\ status y' = status y /\
    listeners y' = listeners y /\ grading_pending y' = grading_pending y) \/
   (listeners y' = false /\ status y' = status y /\
    grading_pending y' = S (grading_pending y)) \/
   (listeners y' = false /\ grading_pending y' = grading_pending y /\
    status y' = match testData y with
                | Some _ => COMPLETED_VIEW
                | None => status y
                end)).

(** How the view, the registration of [checkFocus], the suspended calls,
    the lockout flag and the intervals go together. *)
Definition controls_ok (y : Sys) : Prop :=
  (status y = READY \/ status y = IN_PROGRESS -> is_Some (testData y)) /\
  (status y = READY ->
   grading_pending y = 0%nat /\ listeners y = false /\ intervals y = []) /\
  (listeners y = true -> status y = IN_PROGRESS /\ grading_pending y = 0%nat) /\
  (isBlocked (state y) = true ->
   (status y = BLOCKED \/ status y = COMPLETED) /\ grading_pending y = 0%nat) /\
  (intervals y = [] \/ exists h, intervals y = [h] /\ timerInterval y = Some h).

(** The countdown runs while a test with questions is in progress and
    not being graded. *)
Definition timer_live (y : Sys) : Prop :=
  status y = IN_PROGRESS -> grading_pending y = 0%nat ->
  st_questions (state y) <> [] -> intervals y <> [].

(** The violation counter is within the limit [m], and it has reached
    the limit exactly when the lockout flag is set. *)
Definition within_limit (m : Z) (s : State) : Prop :=
  (0 <= cheatAttempts s <= m)%Z /\
  (isBlocked s = true <-> cheatAttempts s = m).

(** The view a page load ends in, from the restored session. *)
Definition restored_status (s : State) : Status :=
  if isBlocked s then COMPLETED
  else if (0 <? endTime s)%Z then COMPLETED
  else if (0 <? startTime s)%Z then IN_PROGRESS
  else READY.







(** * Properties *)

(** ** The string primitives on examples *)

Example trim_example : Js.trim "  SELECT 1; " = "SELECT 1;".
Proof. reflexivity. Qed.

Example strip_terminator_once : Js.strip_terminator "SELECT 1;;" = "SELECT 1;".
Proof. reflexivity. Qed.

Example normalize_sql_example : normalize_sql " SELECT 1 ; " = "SELECT 1 ".
Proof. reflexivity. Qed.

Example sort_example : Js.sort ["b"; "a"; "B"; "ab"] = ["B"; "a"; "ab"; "b"].
Proof. reflexivity. Qed.

Example join_comma_example : Js.join_comma ["a"; "b"; "c"] = "a,b,c".
Proof. reflexivity. Qed.

Example parseInt_examples :
  Js.parseInt " -42abc" = Some (-42)%Z /\ Js.parseInt "0x1f" = Some 31%Z /\
  Js.parseInt "5" = Some 5%Z /\ Js.parseInt "abc" = None.
Proof. repeat split. Qed.

Example format_remaining_example : format_remaining 899999 = "14:59".
Proof. reflexivity. Qed.

Example final_grade_example :
  final_grade (abc_quiz None) 3 6 = Num 3 /\
  final_grade (abc_quiz None) 6 6 = Num 5 /\
  final_grade (abc_quiz None) 0 0 = Num 2.
Proof. vm_compute. repeat split. Qed.

Example except_all_count_sql_example :
  except_all_count_sql "A" "B"
  = nl +:+ "            SELECT count(*) as cnt " +:+ nl +:+
    "            FROM ((A) EXCEPT ALL (B)) as diff" +:+ nl +:+ "        ".
Proof. reflexivity. Qed.

Example mini_sql_examples :
  MiniSql.query_rows "VALUES (1),(1),(2)"
    = Some [[("column1", VNum 1)]; [("column1", VNum 1)]; [("column1", VNum 2)]] /\
  MiniSql.query_rows (except_all_count_sql "VALUES (1),(1),(2)" "VALUES (1),(2),(2)")
    = Some [[("cnt", VNum 1)]] /\
  MiniSql.query_rows "SELECT 1 -- one" = Some [[("?column?", VNum 1)]] /\
  MiniSql.query_rows (except_all_count_sql "SELECT 1 -- one" "SELECT 1 -- one")
    = None.
Proof. vm_compute. repeat split. Qed.

(** ** The order of [sort] *)

Lemma nat_of_ascii_inj a b : nat_of_ascii a = nat_of_ascii b -> a = b.
Proof.
  intros H. rewrite <- (ascii_nat_embedding a), <- (ascii_nat_embedding b).
  now rewrite H.
Qed.

Lemma str_le_lex s t : Js.str_le s t <-> lex_le s t.
Proof.
  unfold Js.str_le. revert t. induction s as [|a s IH]; intros t; simpl.
  - split; [constructor | reflexivity].
  - destruct t as [|b t].
    + split; [discriminate | inversion 1].
    + destruct (Nat.ltb_spec (nat_of_ascii a) (nat_of_ascii b)) as [Hab|Hab].
      * split; [intros _; now apply lex_lt | reflexivity].
      * destruct (Nat.ltb_spec (nat_of_ascii b) (nat_of_ascii a)) as [Hba|Hba].
        -- split; [discriminate |].
           inversion 1; subst; lia.
        -- assert (a = b) by (apply nat_of_ascii_inj; lia). subst b.
           rewrite IH. split; [apply lex_eq |].
           inversion 1; subst; [lia | assumption].
Qed.

#[global] Instance str_le_total : Total Js.str_le.
Proof.
  intros s. unfold Js.str_le.
  induction s as [|a s IH]; intros t; simpl; [now left |].
  destruct t as [|b t]; simpl; [now right |].
  destruct (Nat.ltb_spec (nat_of_ascii a) (nat_of_ascii b));
    destruct (Nat.ltb_spec (nat_of_ascii b) (nat_of_ascii a));
    try (now left); try (now right); try lia.
  apply IH.
Qed.

#[global] Instance str_le_trans : Transitive Js.str_le.
Proof.
  intros s. unfold Js.str_le.
  induction s as [|a s IH]; intros t u Hst Htu; simpl in *; [reflexivity |].
  destruct t as [|b t]; [discriminate |].
  destruct u as [|c u]; simpl in *; [discriminate |].
  destruct (Nat.ltb_spec (nat_of_ascii a) (nat_of_ascii b));
    destruct (Nat.ltb_spec (nat_of_ascii b) (nat_of_ascii a));
    destruct (Nat.ltb_spec (nat_of_ascii b) (nat_of_ascii c));
    destruct (Nat.ltb_spec (nat_of_ascii c) (nat_of_ascii b));
    destruct (Nat.ltb_spec (nat_of_ascii a) (nat_of_ascii c));
    destruct (Nat.ltb_spec (nat_of_ascii c) (nat_of_ascii a));
    try reflexivity; try discriminate; try lia.
  eapply IH; eassumption.
Qed.

#[global] Instance str_le_antisymm : AntiSymm (=) Js.str_le.
Proof.
  intros s. unfold Js.str_le.
  induction s as [|a s IH]; intros t Hst Hts.
  - destruct t; [reflexivity | discriminate].
  - destruct t as [|b t]; [discriminate |]. simpl in *.
    destruct (Nat.ltb_spec (nat_of_ascii a) (nat_of_ascii b));
      destruct (Nat.ltb_spec (nat_of_ascii b) (nat_of_ascii a));
      try discriminate; try lia.
    assert (a = b) by (apply nat_of_ascii_inj; lia). subst b.
    f_equal. now apply IH.
Qed.

Lemma sort_sorted xs : Sorted Js.str_le (Js.sort xs).
Proof. apply (Sorted_merge_sort Js.str_le). Qed.

Lemma sort_perm xs : Js.sort xs ≡ₚ xs.
Proof. apply (merge_sort_Permutation Js.str_le). Qed.

(** A sorted arrangement of the same strings is the one [sort] returns. *)
Lemma sort_unique xs ref :
  Sorted Js.str_le ref -> ref ≡ₚ xs -> Js.sort xs = ref.
Proof.
  intros Hs Hp. apply (Sorted_unique Js.str_le).
  - apply sort_sorted.
  - exact Hs.
  - rewrite sort_perm. now symmetry.
Qed.

Lemma sort_idempotent xs : Js.sort (Js.sort xs) = Js.sort xs.
Proof. apply sort_unique; [apply sort_sorted | reflexivity]. Qed.

Lemma Sorted_lex_str_le ref : Sorted lex_le ref -> Sorted Js.str_le ref.
Proof.
  induction 1 as [|x l Hl IH Hhd]; constructor; [exact IH |].
  destruct Hhd; constructor. now apply str_le_lex.
Qed.

(** ** Hash grading *)

(** C8. The digest of a multiple-choice answer does not depend on the
    order in which the options were selected: two arrangements of the same
    ids (such as b,a and a,b) give the same digest, and that digest is the
    digest of the comma-joined ids in lexicographic order, which is what
    the question's reference digest is compared with. *)
Theorem hash_answers_order_independent
    (E : Env) (q : Question) (xs ys ref : list string) :
  xs ≡ₚ ys ->
  Sorted lex_le ref -> ref ≡ₚ xs ->
  hash_answers E xs = hash_answers E ys /\
  hash_answers E xs = sha256 E (Js.join_comma ref) /\
  fst (grade_mc E q (Some (AList xs)))
    = String.eqb (sha256 E (Js.join_comma ref)) (q_correct_hash q) /\
  fst (grade_mc E q (Some (AList ys))) = fst (grade_mc E q (Some (AList xs))).
Proof.
  intros Hperm Hsorted Href.
  apply Sorted_lex_str_le in Hsorted.
  assert (Hx : Js.sort xs = ref) by now apply sort_unique.
  assert (Hy : Js.sort ys = ref).
  { apply sort_unique; [exact Hsorted | now rewrite Href]. }
  unfold grade_mc, hash_answers. simpl. rewrite Hx, Hy. repeat split.
Qed.

Lemma hash_answers_order_independent_witness :
  hash_answers MiniSql.env ["b"; "a"] = hash_answers MiniSql.env ["a"; "b"] /\
  hash_answers MiniSql.env ["b"; "a"] = sha256 MiniSql.env "a,b".
Proof.
  pose (q := mkQuestion "q1" "multiple-choice" EmptyString 1 None
               (sha256 MiniSql.env "a,b") EmptyString false None false).
  destruct (hash_answers_order_independent MiniSql.env q
              ["b"; "a"] ["a"; "b"] ["a"; "b"]) as (H1 & H2 & _).
  - apply perm_swap.
  - repeat constructor; simpl; lia.
  - apply perm_swap.
  - split; [exact H1 | exact H2].
Defined.

(** ** Question selection *)

Lemma shuffle_perm {A} (draws : list nat) (xs : list A) : shuffle draws xs ≡ₚ xs.
Proof.
  revert xs. induction draws as [|d draws IH]; intros xs; simpl; [reflexivity |].
  destruct (xs !! (d mod length xs)%nat) as [x|] eqn:Hx; [| reflexivity].
  rewrite IH. symmetry. now apply delete_Permutation.
Qed.

Lemma findIndex_Some id pool i :
  findIndex id pool = Some i -> exists q, pool !! i = Some q /\ q_id q = id.
Proof.
  revert i. induction pool as [|q pool IH]; intros i; simpl; [discriminate |].
  destruct (String.eqb_spec (q_id q) id) as [Heq|Hne].
  - intros [= <-]. now exists q.
  - destruct (findIndex id pool) as [j|]; simpl; [| discriminate].
    intros [= <-]. destruct (IH j eq_refl) as (q' & Hq' & Hid). now exists q'.
Qed.

Lemma findIndex_None id pool :
  findIndex id pool = None -> id ∉ q_id <$> pool.
Proof.
  induction pool as [|q pool IH]; simpl.
  - intros _. apply not_elem_of_nil.
  - destruct (String.eqb_spec (q_id q) id) as [Heq|Hne]; [discriminate |].
    destruct (findIndex id pool); simpl; [discriminate |].
    intros _. rewrite elem_of_cons. intros [Heq|Hin]; [congruence |].
    now apply IH.
Qed.

(** Questions only move from the pool to the selection. *)
Lemma take_required_perm ids pool sel :
  let '(pool', sel') := take_required ids pool sel in
  sel' ++ pool' ≡ₚ sel ++ pool.
Proof.
  revert pool sel. induction ids as [|id ids IH]; intros pool sel; simpl;
    [reflexivity |].
  destruct (findIndex id pool) as [i|] eqn:Hf; [| apply IH].
  destruct (pool !! i) as [q|] eqn:Hq; [| apply IH].
  specialize (IH (delete i pool) (sel ++ [q])).
  destruct (take_required ids (delete i pool) (sel ++ [q])) as [pool' sel'].
  rewrite IH, <- app_assoc. simpl.
  apply Permutation_app_head. symmetry. now apply delete_Permutation.
Qed.

Lemma take_required_length ids pool sel :
  (length (snd (take_required ids pool sel)) <= length sel + length ids)%nat.
Proof.
  revert pool sel. induction ids as [|id ids IH]; intros pool sel; simpl; [lia |].
  destruct (findIndex id pool) as [i|]; [| specialize (IH pool sel); lia].
  destruct (pool !! i) as [q|]; [| specialize (IH pool sel); lia].
  specialize (IH (delete i pool) (sel ++ [q])).
  rewrite length_app in IH. simpl in IH. lia.
Qed.

(** An id that is asked for and is in the pool or already selected is
    selected in the end. *)
Lemma take_required_elem ids pool sel id :
  id ∈ ids ->
  id ∈ q_id <$> pool \/ id ∈ q_id <$> sel ->
  id ∈ q_id <$> snd (take_required ids pool sel).
Proof.
  assert (Hgrow : forall ids pool sel x,
             x ∈ q_id <$> sel -> x ∈ q_id <$> snd (take_required ids pool sel)).
  { clear. induction ids as [|i ids IH]; intros pool sel x Hx; simpl; [exact Hx |].
    destruct (findIndex i pool) as [k|]; [| now apply IH].
    destruct (pool !! k) as [q|]; [| now apply IH].
    apply IH. rewrite fmap_app, elem_of_app. now left. }
  revert pool sel. induction ids as [|i ids IH]; intros pool sel Hin Hsrc.
  - now apply elem_of_nil in Hin.
  - simpl. apply elem_of_cons in Hin as [->|Hin].
    + destruct (findIndex i pool) as [k|] eqn:Hf.
      * destruct (findIndex_Some _ _ _ Hf) as (q & Hq & Hid). rewrite Hq.
        apply Hgrow. rewrite fmap_app, elem_of_app. right.
        simpl. rewrite Hid. apply list_elem_of_here.
      * apply Hgrow. destruct Hsrc as [Hp|Hs]; [| exact Hs].
        now apply findIndex_None in Hf.
    + destruct (findIndex i pool) as [k|] eqn:Hf; [| now apply IH].
      destruct (findIndex_Some _ _ _ Hf) as (q & Hq & Hid). rewrite Hq.
      apply IH; [exact Hin |].
      destruct Hsrc as [Hp|Hs].
      * apply list_elem_of_fmap in Hp as (q' & -> & Hq').
        rewrite (delete_Permutation pool k q Hq) in Hq'.
        apply elem_of_cons in Hq' as [->|Hq'].
        -- right. rewrite fmap_app, elem_of_app. right. simpl.
           apply list_elem_of_here.
        -- left. now apply list_elem_of_fmap_2.
      * right. rewrite fmap_app, elem_of_app. now left.
Qed.

Lemma init_questions_fst qs draws s :
  q_id <$> fst (init_questions qs draws s) = q_id <$> qs /\
  sum_points (fst (init_questions qs draws s)) = sum_points qs /\
  length (fst (init_questions qs draws s)) = length qs.
Proof.
  revert draws s. induction qs as [|q qs IH]; intros draws s; simpl; [easy |].
  specialize (IH (tail draws) (init_question q s)).
  destruct (init_questions qs (tail draws) (init_question q s)) as [rest' s'].
  simpl in *. destruct IH as (IH1 & IH2 & IH3).
  repeat split; [f_equal; exact IH1 | now rewrite IH2 | now rewrite IH3].
Qed.

Lemma init_questions_maxScore qs draws s :
  maxScore (snd (init_questions qs draws s)) = (maxScore s + sum_points qs)%Z.
Proof.
  revert draws s. induction qs as [|q qs IH]; intros draws s; simpl; [lia |].
  specialize (IH (tail draws) (init_question q s)).
  destruct (init_questions qs (tail draws) (init_question q s)) as [rest' s'].
  simpl in *. rewrite IH. lia.
Qed.

Lemma prepareQuestions_questions p td r s :
  st_questions (prepareQuestions p td r s)
  = fst (init_questions (select_questions p td r) (rnd_options r) s).
Proof.
  unfold prepareQuestions.
  now destruct (init_questions (select_questions p td r) (rnd_options r) s).
Qed.

Lemma prepareQuestions_maxScore p td r s :
  maxScore (prepareQuestions p td r s)
  = (maxScore s + sum_points (select_questions p td r))%Z.
Proof.
  unfold prepareQuestions.
  pose proof (init_questions_maxScore (select_questions p td r) (rnd_options r) s) as H.
  now destruct (init_questions (select_questions p td r) (rnd_options r) s).
Qed.

(** The selection before the final shuffle, from the parts the code
    computes. *)
Lemma select_questions_perm p td r :
  exists pool extra,
    matched_required p td ++ pool ≡ₚ questions td /\
    extra = (if (0 <? count p - Z.of_nat (length (matched_required p td)))%Z
             then take (Z.to_nat (count p - Z.of_nat (length (matched_required p td))))
                       (shuffle (rnd_pool r) pool)
             else []) /\
    select_questions p td r ≡ₚ matched_required p td ++ extra.
Proof.
  unfold select_questions, matched_required.
  pose proof (take_required_perm (default [] (requiredIds p)) (questions td) []) as Hp.
  destruct (take_required (default [] (requiredIds p)) (questions td) [])
    as [pool sel]. simpl in *.
  exists pool. eexists. split; [exact Hp |]. split; [reflexivity |].
  rewrite shuffle_perm.
  destruct (0 <? count p - Z.of_nat (length sel))%Z; [reflexivity |].
  now rewrite app_nil_r.
Qed.

Lemma NoDup_of_submseteq {A} (l k : list A) : l ⊆+ k -> NoDup k -> NoDup l.
Proof.
  intros Hsub Hk. apply submseteq_Permutation in Hsub as [k' Hk'].
  rewrite Hk' in Hk. now apply NoDup_app in Hk as (? & _).
Qed.

Lemma sum_points_perm l k : l ≡ₚ k -> sum_points l = sum_points k.
Proof. induction 1; simpl; lia. Qed.

(** C7, as stated, fails: with two required questions and [count = 1]
    both required questions are selected, so the selection has two
    questions and not [min(1, 3)]. *)
Lemma selection_as_specified_fails :
  ~ selection_as_specified (mkProps "abc.json" (Some ["a"; "b"]) 1)
      (abc_quiz None) no_draws.
Proof.
  unfold selection_as_specified. intros (_ & Hlen & _).
  vm_compute in Hlen. discriminate Hlen.
Qed.

(** C7, amended. For a question set with distinct ids, the selection made
    by [prepareQuestions] on the initial state contains every required id
    that names a question of the set; its length is the larger of the
    number of required questions found and [min(count, available)] (so it is
    [min(count, available)] whenever [count] is at least the number of
    required ids); its ids are a sub-multiset of the set's ids, without
    duplicates; and [maxScore] is the sum of the points of the selected
    questions, each counted once. *)
Theorem prepareQuestions_selection (p : Props) (td : TestData) (r : Rand) :
  NoDup (q_id <$> questions td) ->
  let s := prepareQuestions p td r state0 in
  let sel := st_questions s in
  let found := length (matched_required p td) in
  (forall id, id ∈ default [] (requiredIds p) -> id ∈ q_id <$> questions td ->
              id ∈ q_id <$> sel) /\
  Z.of_nat (length sel)
    = Z.max (Z.of_nat found)
            (Z.min (count p) (Z.of_nat (length (questions td)))) /\
  (found <= length (default [] (requiredIds p)))%nat /\
  (q_id <$> sel) ⊆+ (q_id <$> questions td) /\
  NoDup (q_id <$> sel) /\
  maxScore s = sum_points sel.
Proof.
  intros Hnd s sel found. subst s sel found.
  rewrite prepareQuestions_questions, prepareQuestions_maxScore.
  destruct (init_questions_fst (select_questions p td r) (rnd_options r) state0)
    as (Hids & Hsum & Hlen).
  rewrite Hids, Hsum, Hlen.
  destruct (select_questions_perm p td r) as (pool & extra & Hall & Hextra & Hsel).
  assert (Hsub : select_questions p td r ⊆+ questions td).
  { rewrite Hsel, <- Hall. apply submseteq_skips_l. subst extra.
    destruct (0 <? _)%Z; [| apply submseteq_nil_l].
    etransitivity; [apply submseteq_take |].
    apply Permutation_submseteq, shuffle_perm. }
  assert (Hsubid : (q_id <$> select_questions p td r) ⊆+ (q_id <$> questions td))
    by now apply fmap_submseteq.
  repeat split.
  - intros id Hreq Hin.
    assert (Hm : id ∈ q_id <$> matched_required p td).
    { unfold matched_required. apply take_required_elem; [exact Hreq | now left]. }
    rewrite Hsel, fmap_app, elem_of_app. now left.
  - apply Permutation_length in Hsel, Hall.
    rewrite length_app in Hsel, Hall. rewrite Hsel. subst extra.
    destruct (Z.ltb_spec 0 (count p - Z.of_nat (length (matched_required p td)))).
    + rewrite length_take, (Permutation_length (shuffle_perm _ _)). lia.
    + simpl. lia.
  - unfold matched_required.
    pose proof (take_required_length (default [] (requiredIds p)) (questions td) []).
    simpl in *. lia.
  - exact Hsubid.
  - eapply NoDup_of_submseteq; eassumption.
Qed.

Lemma prepareQuestions_selection_witness :
  let s := prepareQuestions (mkProps "abc.json" (Some ["c"; "zz"]) 2)
             (abc_quiz None) (mkRand [1%nat] [2%nat; 0%nat] []) state0 in
  q_id <$> st_questions s = ["c"; "b"] /\ maxScore s = 5%Z /\
  NoDup (q_id <$> st_questions s).
Proof.
  destruct (prepareQuestions_selection (mkProps "abc.json" (Some ["c"; "zz"]) 2)
              (abc_quiz None) (mkRand [1%nat] [2%nat; 0%nat] []))
    as (_ & _ & _ & _ & Hnd & Hmax).
  - apply (bool_decide_unpack _). vm_compute. reflexivity.
  - split; [vm_compute; reflexivity |]. split; [| exact Hnd].
    rewrite Hmax. vm_compute. reflexivity.
Defined.

(** ** Navigation *)


Lemma recordTime_Some now s q :
  st_questions s !! currentIndex s = Some q ->
  recordTime now s
  = Some (set_questionTimings
            (<[q_id q := add_spent (questionTimings s !! q_id q)
                           (now - lastQuestionEntryTime s)]> (questionTimings s)) s).
Proof. intros H. unfold recordTime. rewrite H. reflexivity. Qed.



(** ** SQL grading *)

Lemma remove_one_perm {A} `{EqDecision A} (x : A) (l l' : list A) :
  l ≡ₚ l' -> remove_one x l ≡ₚ remove_one x l'.
Proof.
  induction 1 as [|y l l' Hp IH|y z l|l1 l2 l3 H1 IH1 H2 IH2]; simpl.
  - reflexivity.
  - destruct (decide (x = y)); [exact Hp | now rewrite IH].
  - destruct (decide (x = z)), (decide (x = y)); subst; try reflexivity.
    apply perm_swap.
  - now rewrite IH1.
Qed.

Lemma remove_one_comm {A} `{EqDecision A} (x y : A) (l : list A) :
  remove_one x (remove_one y l) = remove_one y (remove_one x l).
Proof.
  induction l as [|z l IH]; simpl; [reflexivity |].
  destruct (decide (y = z)), (decide (x = z)); subst; simpl;
    repeat case_decide; subst; try congruence.
Qed.

Lemma except_all_perm_l {A} `{EqDecision A} (l l' r : list A) :
  l ≡ₚ l' -> except_all l r ≡ₚ except_all l' r.
Proof.
  unfold except_all. revert l l'.
  induction r as [|x r IH]; intros l l' Hp; simpl; [exact Hp |].
  apply IH. now apply remove_one_perm.
Qed.

Lemma except_all_perm_r {A} `{EqDecision A} (l r r' : list A) :
  r ≡ₚ r' -> except_all l r = except_all l r'.
Proof.
  unfold except_all. intros Hp. revert l.
  induction Hp as [|x r r' Hp IH|x y r|r1 r2 r3 H1 IH1 H2 IH2]; intros l; simpl.
  - reflexivity.
  - apply IH.
  - now rewrite remove_one_comm.
  - now rewrite IH1.
Qed.

(** The size of the difference depends on the two multisets only. *)
Lemma except_all_length_perm {A} `{EqDecision A} (l l' r r' : list A) :
  l ≡ₚ l' -> r ≡ₚ r' ->
  length (except_all l r) = length (except_all l' r').
Proof.
  intros Hl Hr. rewrite (except_all_perm_r l r r' Hr).
  apply Permutation_length. now apply except_all_perm_l.
Qed.

(** A row disappears from the difference exactly as often as it occurs on
    the right, until none is left. *)
Lemma count_remove_one {A} `{EqDecision A} (v x : A) (l : list A) :
  length (filter (fun y => y = v) (remove_one x l))
  = if decide (x = v)
    then pred (length (filter (fun y => y = v) l))
    else length (filter (fun y => y = v) l).
Proof.
  induction l as [|y l IH]; simpl.
  - now destruct (decide (x = v)).
  - destruct (decide (x = y)) as [->|Hxy].
    + rewrite filter_cons. destruct (decide (y = v)); simpl; reflexivity.
    + rewrite !filter_cons. destruct (decide (y = v)) as [->|Hyv]; simpl.
      * rewrite IH. destruct (decide (x = v)); [congruence | reflexivity].
      * exact IH.
Qed.

Lemma count_except_all {A} `{EqDecision A} (v : A) (l r : list A) :
  length (filter (fun y => y = v) (except_all l r))
  = (length (filter (fun y => y = v) l) - length (filter (fun y => y = v) r))%nat.
Proof.
  unfold except_all. revert l.
  induction r as [|x r IH]; intros l; simpl; [lia |].
  rewrite IH, count_remove_one, filter_cons.
  destruct (decide (x = v)); simpl; lia.
Qed.


Lemma except_all_self {A} `{EqDecision A} (l : list A) : except_all l l = [].
Proof.
  unfold except_all. induction l as [|x l IH]; simpl; [reflexivity |].
  now rewrite decide_True.
Qed.

(** The SQL branch once the setup has run and the student's statement has
    been accepted. *)
Lemma grade_sql_after_student (E : Env) (q : Question) (answer : string)
    (db db2 : DB E) (rows : list Row) :
  blank answer = false ->
  exec_all E (new_PGlite E) (default [] (q_init_sql q)) = Some db ->
  db_query E db (normalize_sql answer) = Some (rows, db2) ->
  grade_sql E q (Some (AText answer))
  = match sql_counts E db2 (normalize_sql answer)
            (normalize_sql (q_correct_query q)) with
    | Some c =>
        if dataCorrect_of c && q_sort_required q then
          default false
            (ordered_equal E (db_after c) (normalize_sql answer)
               (normalize_sql (q_correct_query q)))
        else dataCorrect_of c
    | None => false
    end.
Proof.
  intros Hb Hsetup Hq. unfold grade_sql, grade_sql_text.
  rewrite Hb, Hsetup. simpl. rewrite Hq.
  destruct (sql_counts E db2 _ _) as [c|]; simpl; [| reflexivity].
  destruct (dataCorrect_of c && q_sort_required q); [| reflexivity].
  now destruct (ordered_equal E (db_after c) _ _).
Qed.



(** ** Grading a copy of the reference *)

(** C5, as stated, fails: the statement is spliced into the row-count
    wrapper as text.  A reference that ends in a line comment runs by
    itself, but inside the wrapper the comment swallows the closing
    parenthesis, the wrapper is rejected and the copy grades incorrect. *)
Lemma roundtrip_as_specified_fails :
  ~ roundtrip_as_specified MiniSql.env
      (sql_question "q" 5 "SELECT 1 -- one" false) "SELECT 1 -- one".
Proof.
  unfold roundtrip_as_specified. intros H.
  assert (Hg : grade_sql MiniSql.env (sql_question "q" 5 "SELECT 1 -- one" false)
                 (Some (AText "SELECT 1 -- one")) = true).
  { apply H.
    - vm_compute. reflexivity.
    - reflexivity.
    - exists tt, [[("?column?", VNum 1)]], tt. split; vm_compute; reflexivity. }
  vm_compute in Hg. discriminate Hg.
Qed.

(** C5, amended. When the setup statements run, the reference statement
    returns its rows and leaves the database as it was, and the engine
    evaluates the row-count wrapper around the statement as the multiset
    difference of these rows, an answer that is not blank and normalises
    to the same text as the reference grades correct, whether or not the
    question asks for the ordered comparison. *)
Theorem grade_sql_roundtrip
    (E : Env) (q : Question) (answer : string) (db : DB E) (rows : list Row) :
  let correctQuery := normalize_sql (q_correct_query q) in
  blank answer = false ->
  normalize_sql answer = correctQuery ->
  exec_all E (new_PGlite E) (default [] (q_init_sql q)) = Some db ->
  db_query E db correctQuery = Some (rows, db) ->
  engine_counts_except_all E db correctQuery correctQuery rows rows ->
  grade_sql E q (Some (AText answer)) = true.
Proof.
  intros correctQuery Hb Hsame Hsetup Hq (row & more & Hcnt & Hparse).
  rewrite except_all_self in Hparse. simpl in Hparse.
  rewrite (grade_sql_after_student E q answer db db rows Hb Hsetup)
    by (rewrite Hsame; exact Hq).
  rewrite Hsame. fold correctQuery.
  unfold sql_counts. rewrite Hcnt. simpl. rewrite Hcnt. simpl.
  rewrite Hparse. simpl.
  destruct (q_sort_required q); simpl; [| reflexivity].
  unfold ordered_equal. rewrite Hq. simpl. rewrite Hq. simpl.
  now rewrite String.eqb_refl.
Qed.

Lemma grade_sql_roundtrip_witness :
  grade_sql MiniSql.env (sql_question "q" 5 "VALUES (1),(2),(2);" true)
    (Some (AText "  VALUES (1),(2),(2)  ")) = true.
Proof.
  apply (grade_sql_roundtrip MiniSql.env
           (sql_question "q" 5 "VALUES (1),(2),(2);" true)
           "  VALUES (1),(2),(2)  " tt
           [[("column1", VNum 1)]; [("column1", VNum 2)]; [("column1", VNum 2)]]).
  - vm_compute. reflexivity.
  - vm_compute. reflexivity.
  - vm_compute. reflexivity.
  - vm_compute. reflexivity.
  - eexists _, _. split; vm_compute; reflexivity.
Defined.

(** ** Finishing twice *)


(** The second call is one the page offers: the status is [IN_PROGRESS],
    the finish button is shown, and the click runs [finishTest]. *)
Lemma second_finish_is_offered :
  endTime (state abc_finishing) = 5000%Z /\
  status abc_finishing = IN_PROGRESS /\
  next_shown (state abc_finishing) = false /\
  endTime (state (step MiniSql.env abc_props abc_finishing (EvFinish 9000)))
    = 9000%Z.
Proof. vm_compute. repeat split. Qed.

Lemma finishTest_grade_state (E : Env) (td : TestData) (y : Sys) :
  testData y = Some td ->
  state (finishTest_grade E y)
  = finished_state E td (endTime (state y)) (state y) /\
  testData (finishTest_grade E y) = Some td /\
  status (finishTest_grade E y) = COMPLETED_VIEW.
Proof.
  intros Htd. unfold finishTest_grade, finished_state.
  destruct (grade_all E (st_questions (state y)) (answers (state y)))
    as [[qs ans] total].
  simpl. rewrite Htd. destruct y as [? ? st ? ? ? ? ? ? ? ?]; destruct st; simpl.
  repeat split. exact Htd.
Qed.

Lemma finishTest_to_end_state (E : Env) (td : TestData) (now : Z) (y : Sys) (s1 : State) :
  testData y = Some td ->
  recordTime now (state y) = Some s1 ->
  state (finishTest_to_end E now y) = finished_state E td now s1 /\
  testData (finishTest_to_end E now y) = Some td /\
  status (finishTest_to_end E now y) = COMPLETED_VIEW.
Proof.
  intros Htd Hrec. unfold finishTest_to_end, finishTest.
  assert (Hst : state (clearInterval (timerInterval y) y) = state y)
    by (unfold clearInterval; now destruct (timerInterval y)).
  assert (Htd' : testData (clearInterval (timerInterval y) y) = Some td)
    by (unfold clearInterval; now destruct (timerInterval y)).
  assert (Hgp : grading_pending (clearInterval (timerInterval y) y) = grading_pending y)
    by (unfold clearInterval; now destruct (timerInterval y)).
  rewrite Hst, Hrec.
  set (y3 := upd_state (set_endTime now)
               (removeCheatListeners (set_state s1 (clearInterval (timerInterval y) y)))).
  assert (H3 : testData y3 = Some td) by exact Htd'.
  assert (Hs3 : state y3 = set_endTime now s1) by reflexivity.
  assert (Hg3 : grading_pending y3 = grading_pending y) by exact Hgp.
  assert (Hfin : finished_state E td (endTime (state y3)) (state y3)
                 = finished_state E td now s1).
  { rewrite Hs3. unfold finished_state. simpl.
    destruct (grade_all E (st_questions s1) (answers s1)) as [[qs ans] total].
    now destruct s1. }
  clearbody y3.
  destruct (existsb (awaits (answers (state y3))) (st_questions (state y3))).
  - rewrite decide_False
      by (cbn [grading_pending set_grading_pending]; rewrite Hg3; lia).
    unfold finishTest_resume. cbn [grading_pending set_grading_pending].
    match goal with
    | |- context [finishTest_grade E ?z] =>
        destruct (finishTest_grade_state E td z H3) as (Hs & Ht & Hv)
    end.
    rewrite Hs, Ht, Hv. cbn [state set_grading_pending]. rewrite Hfin. easy.
  - destruct (finishTest_grade_state E td y3 H3) as (Hs & Ht & Hv).
    assert (Hsame : grading_pending (finishTest_grade E y3) = grading_pending y).
    { unfold finishTest_grade.
      destruct (grade_all E (st_questions (state y3)) (answers (state y3)))
        as [[qs ans] total].
      cbn. rewrite H3. exact Hg3. }
    rewrite decide_True by exact Hsame.
    rewrite Hs, Ht, Hv, Hfin. easy.
Qed.

Lemma same_answers_refl a : same_answers a a.
Proof. intros k. reflexivity. Qed.

Lemma same_answers_trans a b c :
  same_answers a b -> same_answers b c -> same_answers a c.
Proof. intros H1 H2 k. now rewrite H1. Qed.




Lemma grade_question_keeps (E : Env) (q : Question) (a : gmap string Answer) :
  same_answers a (snd (grade_question E a q)).
Proof.
  unfold grade_question.
  destruct (String.eqb (q_type q) "sql-select"); [apply same_answers_refl |].
  destruct (a !! q_id q) as [[s|xs]|] eqn:Ha; simpl;
    try apply same_answers_refl.
  - destruct s; apply same_answers_refl.
  - intros k. destruct (decide (q_id q = k)) as [<-|Hne].
    + rewrite lookup_insert_eq, Ha. simpl. now rewrite sort_idempotent.
    + now rewrite lookup_insert_ne.
Qed.




Lemma grade_question_is_graded_of (E : Env) (a : gmap string Answer) (q : Question) :
  graded_of q (fst (grade_question E a q)).
Proof.
  unfold grade_question. destruct (String.eqb (q_type q) "sql-select").
  - eexists. reflexivity.
  - destruct (grade_mc E q (a !! q_id q)). eexists. reflexivity.
Qed.


Lemma grade_all_keeps (E : Env) (qs : list Question) (a : gmap string Answer) :
  same_answers a (snd (fst (grade_all E qs a))) /\
  Forall2 graded_of qs (fst (fst (grade_all E qs a))).
Proof.
  revert a. induction qs as [|q qs IH]; intros a; simpl.
  - split; [apply same_answers_refl | constructor].
  - pose proof (grade_question_keeps E q a) as Hk.
    pose proof (grade_question_is_graded_of E a q) as Hg.
    destruct (grade_question E a q) as [qa a1]. simpl in Hk, Hg.
    destruct (IH a1) as [Hk1 Hg1].
    destruct (grade_all E qs a1) as [[ra a2] ta]. simpl in *.
    split; [eapply same_answers_trans; eassumption | now constructor].
Qed.






(** ** The violation counter and the violation log *)

(** Case analysis on whatever a handler branches on. *)
Ltac branches :=
  repeat match goal with
         | |- context [match ?x with _ => _ end] => destruct x eqn:?
         | |- context [if ?x then _ else _] => destruct x eqn:?
         end;
  simpl; try reflexivity.

Lemma init_questions_cheat qs draws s :
  cheat_fields (snd (init_questions qs draws s)) = cheat_fields s.
Proof.
  revert draws s. induction qs as [|q qs IH]; intros draws s; simpl; [reflexivity |].
  specialize (IH (tail draws) (init_question q s)).
  destruct (init_questions qs (tail draws) (init_question q s)). exact IH.
Qed.

Lemma prepareQuestions_cheat p td r s :
  cheat_fields (prepareQuestions p td r s) = cheat_fields s.
Proof.
  unfold prepareQuestions.
  pose proof (init_questions_cheat (select_questions p td r) (rnd_options r) s) as H.
  destruct (init_questions (select_questions p td r) (rnd_options r) s). exact H.
Qed.

Lemma recordTime_cheat now s s' :
  recordTime now s = Some s' -> cheat_fields s' = cheat_fields s.
Proof.
  unfold recordTime. destruct (st_questions s !! currentIndex s); simpl;
    [| discriminate]. now intros [= <-].
Qed.

Lemma nextQuestion_cheat now s s' :
  nextQuestion now s = Some s' -> cheat_fields s' = cheat_fields s.
Proof.
  unfold nextQuestion. destruct (recordTime now s) as [s1|] eqn:Hr; simpl;
    [| discriminate].
  apply recordTime_cheat in Hr. rewrite <- Hr.
  destruct (_ <? _)%Z; now intros [= <-].
Qed.

Lemma prevQuestion_cheat now s s' :
  prevQuestion now s = Some s' -> cheat_fields s' = cheat_fields s.
Proof.
  unfold prevQuestion. destruct (recordTime now s) as [s1|] eqn:Hr; simpl;
    [| discriminate].
  apply recordTime_cheat in Hr. rewrite <- Hr.
  destruct (_ <? _)%nat; now intros [= <-].
Qed.

Lemma setAnswer_cheat a s : cheat_fields (setAnswer a s) = cheat_fields s.
Proof. unfold setAnswer. branches. Qed.

Lemma clearInterval_state h y : state (clearInterval h y) = state y.
Proof. now destruct h. Qed.

Lemma finishTest_grade_cheat E y :
  cheat_fields (state (finishTest_grade E y)) = cheat_fields (state y).
Proof.
  unfold finishTest_grade.
  destruct (grade_all E (st_questions (state y)) (answers (state y))) as [[qs ans] t].
  simpl. destruct (testData y); reflexivity.
Qed.

Lemma finishTest_cheat E now y :
  cheat_fields (state (finishTest E now y)) = cheat_fields (state y).
Proof.
  unfold finishTest. rewrite clearInterval_state.
  destruct (recordTime now (state y)) as [s1|] eqn:Hr.
  - apply recordTime_cheat in Hr.
    destruct (existsb _ _); [exact Hr |].
    rewrite finishTest_grade_cheat. exact Hr.
  - now rewrite clearInterval_state.
Qed.

Lemma finishTest_resume_cheat E y :
  cheat_fields (state (finishTest_resume E y)) = cheat_fields (state y).
Proof.
  unfold finishTest_resume. destruct (grading_pending y); [reflexivity |].
  now rewrite finishTest_grade_cheat.
Qed.

Lemma updateTimer_cheat E now y :
  cheat_fields (state (updateTimer E now y)) = cheat_fields (state y).
Proof.
  unfold updateTimer. destruct (decide _); [| reflexivity].
  destruct (testData y); [| reflexivity].
  destruct (_ <=? _)%Z; [| reflexivity].
  cbn [state set_alerts]. now rewrite finishTest_cheat.
Qed.

Lemma startTest_cheat E now y :
  cheat_fields (state (startTest E now y)) = cheat_fields (state y).
Proof.
  unfold startTest. cbn [state setInterval set_timerInterval set_next_interval
                         set_intervals].
  now rewrite updateTimer_cheat.
Qed.

(** [checkFocus] counts a violation exactly when the status is
    [IN_PROGRESS] and the page is away. *)
Lemma checkFocus_cheat E away now y :
  cheat_fields (state (checkFocus E away now y))
  = if decide (status y = IN_PROGRESS) then
      if away then ((cheatAttempts (state y) + 1)%Z,
                    cheatLogs (state y) ++ [cheat_line E now])
      else cheat_fields (state y)
    else cheat_fields (state y).
Proof.
  unfold checkFocus. destruct (decide _); [| reflexivity].
  destruct away; [| reflexivity]. cbn. branches.
Qed.

Lemma toggleView_state y : state (toggleView y) = state y.
Proof. unfold toggleView. branches. Qed.

Lemma reblock_cheat td s : cheat_fields (reblock td s) = cheat_fields s.
Proof. unfold reblock. branches. Qed.

Lemma onMounted_cheat E p isChrome fetched r now y :
  cheat_fields (state (onMounted E p isChrome fetched r now (fresh_instance y)))
  = match storage y with
    | Some saved => if isChrome then
                      match fetched with
                      | Some _ => cheat_fields saved
                      | None => (0%Z, [])
                      end
                    else (0%Z, [])
    | None => (0%Z, [])
    end.
Proof.
  unfold onMounted. destruct isChrome; [| now destruct (storage y)].
  destruct fetched as [td|]; [| now destruct (storage y)].
  cbn [storage set_testData set_status fresh_instance].
  destruct (storage y) as [saved|].
  - cbn [state set_state]. rewrite <- (reblock_cheat td saved).
    destruct (isBlocked (reblock td saved)); [reflexivity |].
    destruct (0 <? endTime (reblock td saved))%Z; [reflexivity |].
    destruct (0 <? startTime (reblock td saved))%Z; [| reflexivity].
    cbn [state setInterval set_timerInterval set_next_interval set_intervals].
    now rewrite updateTimer_cheat.
  - cbn. now rewrite prepareQuestions_cheat.
Qed.

Lemma persist_state before after : state (persist before after) = state after.
Proof. unfold persist. now destruct (decide _). Qed.

Lemma persist_storage before after :
  storage (persist before after) = storage after \/
  storage (persist before after) = Some (state after).
Proof. unfold persist. destruct (decide _); [now left | now right]. Qed.

(** No handler writes [localStorage]; only the watcher does. *)
Lemma clearInterval_storage h y : storage (clearInterval h y) = storage y.
Proof. now destruct h. Qed.

Lemma finishTest_grade_storage E y : storage (finishTest_grade E y) = storage y.
Proof.
  unfold finishTest_grade.
  destruct (grade_all E (st_questions (state y)) (answers (state y))) as [[qs ans] t].
  cbn. now destruct (testData y).
Qed.

Lemma finishTest_storage E now y : storage (finishTest E now y) = storage y.
Proof.
  unfold finishTest. rewrite clearInterval_state.
  destruct (recordTime now (state y)) as [s1|].
  - destruct (existsb _ _); [apply clearInterval_storage |].
    rewrite finishTest_grade_storage. apply clearInterval_storage.
  - apply clearInterval_storage.
Qed.

Lemma updateTimer_storage E now y : storage (updateTimer E now y) = storage y.
Proof.
  unfold updateTimer. destruct (decide _); [| reflexivity].
  destruct (testData y); [| reflexivity].
  destruct (_ <=? _)%Z; [| reflexivity].
  cbn [storage set_alerts]. now rewrite finishTest_storage.
Qed.

Lemma checkFocus_storage E away now y : storage (checkFocus E away now y) = storage y.
Proof.
  unfold checkFocus. destruct (decide _); [| reflexivity].
  destruct away; [| reflexivity]. cbn. branches.
Qed.

Lemma onMounted_storage E p isChrome fetched r now y :
  storage (onMounted E p isChrome fetched r now y) = storage y.
Proof.
  unfold onMounted. destruct isChrome; [| reflexivity].
  destruct fetched as [td|]; [| reflexivity].
  cbn [storage set_testData set_status].
  destruct (storage y) as [saved|] eqn:Hst; [| exact Hst].
  destruct (isBlocked _); [exact Hst |].
  destruct (_ <? _)%Z; [exact Hst |].
  destruct (_ <? _)%Z; [| exact Hst].
  cbn [storage setInterval set_timerInterval set_next_interval set_intervals].
  rewrite updateTimer_storage. exact Hst.
Qed.

Lemma handle_storage E p y ev : storage (handle E p y ev) = storage y.
Proof.
  destruct ev; simpl.
  - now rewrite onMounted_storage.
  - destruct (decide _); [| reflexivity]. unfold startTest.
    cbn [storage setInterval set_timerInterval set_next_interval set_intervals].
    now rewrite updateTimer_storage.
  - destruct (decide _); [| reflexivity]. destruct (next_shown _); [| reflexivity].
    now destruct (nextQuestion now (state y)).
  - destruct (decide _); [| reflexivity]. destruct (_ <? _)%nat; [| reflexivity].
    now destruct (prevQuestion now (state y)).
  - now destruct (decide _).
  - destruct (decide _); [| reflexivity].
    destruct (next_shown _); [reflexivity | apply finishTest_storage].
  - destruct (listeners y); [apply checkFocus_storage | reflexivity].
  - destruct (decide _); [apply updateTimer_storage | reflexivity].
  - unfold finishTest_resume. destruct (grading_pending y); [reflexivity |].
    now rewrite finishTest_grade_storage.
  - unfold toggleView. branches.
Qed.

Lemma step_cheat_fields E p y ev :
  cheat_fields (state (step E p y ev)) = cheat_effect E y ev.
Proof.
  destruct ev; unfold step; rewrite persist_state; simpl.
  - rewrite onMounted_cheat. now destruct (storage y), isChrome, fetched.
  - destruct (decide _); [apply startTest_cheat | reflexivity].
  - destruct (decide _); [| reflexivity]. destruct (next_shown _); [| reflexivity].
    destruct (nextQuestion now (state y)) as [s'|] eqn:Hn; [| reflexivity].
    simpl. now apply nextQuestion_cheat in Hn.
  - destruct (decide _); [| reflexivity]. destruct (_ <? _)%nat; [| reflexivity].
    destruct (prevQuestion now (state y)) as [s'|] eqn:Hn; [| reflexivity].
    simpl. now apply prevQuestion_cheat in Hn.
  - destruct (decide _); [| reflexivity]. apply setAnswer_cheat.
  - destruct (decide _); [| reflexivity].
    destruct (next_shown _); [reflexivity | apply finishTest_cheat].
  - destruct (listeners y); simpl.
    + rewrite checkFocus_cheat. destruct away.
      * destruct (decide (status y = IN_PROGRESS)) as [Hs|Hs].
        -- now rewrite bool_decide_eq_true_2.
        -- now rewrite bool_decide_eq_false_2.
      * now destruct (decide _).
    + now destruct away.
  - destruct (decide _); [apply updateTimer_cheat | reflexivity].
  - apply finishTest_resume_cheat.
  - now rewrite toggleView_state.
Qed.

Lemma step_storage E p y ev :
  storage (step E p y ev) = storage y \/
  storage (step E p y ev) = Some (state (step E p y ev)).
Proof.
  assert (H : forall before,
             storage (persist before (handle E p y ev)) = storage y \/
             storage (persist before (handle E p y ev))
             = Some (state (persist before (handle E p y ev)))).
  { intros before. rewrite persist_state.
    destruct (persist_storage before (handle E p y ev)) as [->| ->];
      [left; apply handle_storage | now right]. }
  destruct ev; apply H.
Qed.

Lemma cheat_effect_agree E y ev :
  counts_agree (state y) ->
  (forall s, storage y = Some s -> counts_agree s) ->
  fst (cheat_effect E y ev) = Z.of_nat (length (snd (cheat_effect E y ev))).
Proof.
  unfold counts_agree. intros Hs Hst. destruct ev; simpl; try exact Hs.
  - destruct (storage y) as [saved|]; [| reflexivity].
    destruct isChrome; [| reflexivity].
    destruct fetched; [| reflexivity]. simpl. now apply Hst.
  - destruct away; [| exact Hs].
    destruct (listeners y && _); [| exact Hs].
    simpl. rewrite length_app. simpl. lia.
Qed.

(** C10. In every reachable state, and in every state kept in
    [localStorage], [cheatAttempts] is the number of entries of
    [cheatLogs].  A violation, that is a [blur] or [visibilitychange]
    event delivered to a registered [checkFocus] while the status is
    [IN_PROGRESS] and the page is away, adds one to the counter and one
    line with the time of day to the log; a page load takes both fields
    from the stored session, or starts from 0 and the empty log; every
    other event leaves both fields as they are. *)
Theorem cheatAttempts_counts_cheatLogs (E : Env) (p : Props) :
  (forall evs : list Event,
      let y := run E p evs sys0 in
      counts_agree (state y) /\
      forall s, storage y = Some s -> counts_agree s) /\
  (forall (y : Sys) (ev : Event),
      cheat_fields (state (step E p y ev)) = cheat_effect E y ev).
Proof.
  split; [| apply step_cheat_fields].
  assert (Hstep : forall y ev,
             (counts_agree (state y) /\ forall s, storage y = Some s -> counts_agree s) ->
             counts_agree (state (step E p y ev)) /\
             forall s, storage (step E p y ev) = Some s -> counts_agree s).
  { intros y ev [Hs Hst].
    assert (Hnew : counts_agree (state (step E p y ev))).
    { pose proof (cheat_effect_agree E y ev Hs Hst) as H.
      rewrite <- (step_cheat_fields E p) in H. exact H. }
    split; [exact Hnew |].
    intros s Hsome. destruct (step_storage E p y ev) as [H|H];
      rewrite H in Hsome; [now apply Hst | now injection Hsome as <-]. }
  assert (Hrun : forall l y,
             (counts_agree (state y) /\ forall s, storage y = Some s -> counts_agree s) ->
             counts_agree (state (run E p l y)) /\
             forall s, storage (run E p l y) = Some s -> counts_agree s).
  { induction l as [|ev l IH]; intros y Hy; [exact Hy |].
    simpl. apply IH, Hstep, Hy. }
  intros evs. apply Hrun. split; [reflexivity | discriminate].
Qed.

(** ** Resuming a session *)

(** A page load never registers [checkFocus]: [onMounted] does not call
    [addCheatListeners], and nothing it calls does. *)
Lemma finishTest_grade_listeners E y :
  listeners (finishTest_grade E y) = listeners y.
Proof.
  unfold finishTest_grade.
  destruct (grade_all E (st_questions (state y)) (answers (state y))) as [[qs ans] t].
  cbn. now destruct (testData y).
Qed.

Lemma finishTest_listeners E now y :
  listeners y = false -> listeners (finishTest E now y) = false.
Proof.
  intros H. unfold finishTest. rewrite clearInterval_state.
  assert (Hc : listeners (clearInterval (timerInterval y) y) = false)
    by (now destruct (timerInterval y)).
  destruct (recordTime now (state y)); [| exact Hc].
  destruct (existsb _ _); [reflexivity |].
  now rewrite finishTest_grade_listeners.
Qed.

Lemma updateTimer_listeners E now y :
  listeners y = false -> listeners (updateTimer E now y) = false.
Proof.
  intros H. unfold updateTimer. destruct (decide _); [| exact H].
  destruct (testData y); [| exact H].
  destruct (_ <=? _)%Z; [| exact H].
  cbn [listeners set_alerts]. now apply finishTest_listeners.
Qed.

Lemma load_listeners E p y isChrome fetched r now :
  listeners (step E p y (EvLoad isChrome fetched r now)) = false.
Proof.
  unfold step, persist, handle.
  assert (H : listeners (onMounted E p isChrome fetched r now (fresh_instance y)) = false).
  { unfold onMounted. destruct isChrome; [| reflexivity].
    destruct fetched as [td|]; [| reflexivity].
    cbn [storage set_testData set_status fresh_instance].
    destruct (storage y) as [saved|]; [| reflexivity].
    destruct (isBlocked _); [reflexivity |].
    destruct (_ <? _)%Z; [reflexivity |].
    destruct (_ <? _)%Z; [| reflexivity].
    cbn [listeners setInterval set_timerInterval set_next_interval set_intervals].
    now apply updateTimer_listeners. }
  now destruct (decide _).
Qed.

(** Without the registration, a focus event reaches no handler. *)
Lemma focus_ignored_without_listeners E p y away now :
  listeners y = false -> step E p y (EvFocus away now) = y.
Proof.
  intros H. unfold step, handle, persist. rewrite H.
  now rewrite decide_True.
Qed.

(** C3. The resumed session is in progress and its timer runs from the
    stored [startTime] (15 of the 20 minutes remain), but [checkFocus] is
    not registered again: the page can lose focus any number of times
    without a violation being counted, where the session that was never
    interrupted is blocked at the second violation. *)
Theorem resume_does_not_reattach_listeners :
  status abc_resumed = IN_PROGRESS /\
  startTime (state abc_resumed) = 2000%Z /\
  timeLeft abc_resumed = "15:00" /\
  intervals abc_resumed = [0%nat] /\
  listeners abc_resumed = false /\
  run MiniSql.env abc_props [EvFocus true 303000; EvFocus true 304000] abc_resumed
    = abc_resumed /\
  (let uninterrupted :=
     run MiniSql.env abc_props
       [EvLoad true (Some (abc_quiz (Some 2%Z))) no_draws 1000; EvStart 2000;
        EvFocus true 303000; EvFocus true 304000] sys0 in
   listeners (run MiniSql.env abc_props
                [EvLoad true (Some (abc_quiz (Some 2%Z))) no_draws 1000;
                 EvStart 2000] sys0) = true /\
   status uninterrupted = BLOCKED /\
   cheatAttempts (state uninterrupted) = 2%Z).
Proof. vm_compute. repeat split. Qed.

(** ** Lockout and completion *)

(** C4. The lockout that [onMounted] imposes on a restored session whose
    counter has reached the limit sets [isBlocked] and leaves [endTime]
    at 0; the lockout in [checkFocus] stamps [endTime]. *)
Theorem reload_lockout_leaves_endTime_zero :
  isBlocked (state abc_reblocked) = true /\
  endTime (state abc_reblocked) = 0%Z /\
  status abc_reblocked = COMPLETED /\
  (let blocked_live :=
     run MiniSql.env abc_props
       [EvLoad true (Some (abc_quiz (Some 1%Z))) no_draws 1000; EvStart 2000;
        EvFocus true 3000] sys0 in
   isBlocked (state blocked_live) = true /\
   endTime (state blocked_live) = 3000%Z).
Proof. vm_compute. repeat split. Qed.

Lemma keeps_lock_refl s : keeps_lock s s.
Proof. repeat split. now left. Qed.

Lemma keeps_lock_trans s1 s2 s3 :
  keeps_lock s1 s2 -> keeps_lock s2 s3 -> keeps_lock s1 s3.
Proof.
  intros (Hb1 & Hc1 & He1) (Hb2 & Hc2 & He2). repeat split; try congruence.
  destruct He2 as [He2|He2]; [| now right].
  rewrite He2. exact He1.
Qed.

Lemma keeps_lock_complete td s s' :
  keeps_lock s s' -> lockout_complete td s -> lockout_complete td s'.
Proof.
  intros (Hb & Hc & He) [H1 H2]. split.
  - rewrite Hb. intros Hblk. destruct He as [-> | He]; [now apply H1 | exact He].
  - intros m Hm. rewrite Hb, Hc. now apply H2.
Qed.

Lemma init_questions_lock qs draws s :
  keeps_lock s (snd (init_questions qs draws s)).
Proof.
  revert draws s. induction qs as [|q qs IH]; intros draws s; simpl;
    [apply keeps_lock_refl |].
  specialize (IH (tail draws) (init_question q s)).
  destruct (init_questions qs (tail draws) (init_question q s)). exact IH.
Qed.

Lemma prepareQuestions_lock p td r s : keeps_lock s (prepareQuestions p td r s).
Proof.
  unfold prepareQuestions.
  pose proof (init_questions_lock (select_questions p td r) (rnd_options r) s) as H.
  destruct (init_questions (select_questions p td r) (rnd_options r) s). exact H.
Qed.

Ltac lock_same := repeat split; now left.

Lemma recordTime_lock now s s' : recordTime now s = Some s' -> keeps_lock s s'.
Proof.
  unfold recordTime. destruct (st_questions s !! currentIndex s); simpl;
    [| discriminate]. intros [= <-]. lock_same.
Qed.

Lemma nextQuestion_lock now s s' : nextQuestion now s = Some s' -> keeps_lock s s'.
Proof.
  unfold nextQuestion. destruct (recordTime now s) as [s1|] eqn:Hr; simpl;
    [| discriminate].
  apply recordTime_lock in Hr.
  destruct (_ <? _)%Z; intros [= <-]; [| exact Hr].
  eapply keeps_lock_trans; [exact Hr |]. lock_same.
Qed.

Lemma prevQuestion_lock now s s' : prevQuestion now s = Some s' -> keeps_lock s s'.
Proof.
  unfold prevQuestion. destruct (recordTime now s) as [s1|] eqn:Hr; simpl;
    [| discriminate].
  apply recordTime_lock in Hr.
  destruct (_ <? _)%nat; intros [= <-]; [| exact Hr].
  eapply keeps_lock_trans; [exact Hr |]. lock_same.
Qed.

Lemma setAnswer_lock a s : keeps_lock s (setAnswer a s).
Proof.
  unfold setAnswer. destruct (st_questions s !! currentIndex s); [| lock_same].
  destruct (answer_fits _ _); lock_same.
Qed.

Lemma finishTest_grade_lock E y : keeps_lock (state y) (state (finishTest_grade E y)).
Proof.
  unfold finishTest_grade.
  destruct (grade_all E (st_questions (state y)) (answers (state y))) as [[qs ans] t].
  cbn. destruct (testData y); lock_same.
Qed.

Lemma finishTest_lock E now y :
  (0 < now)%Z -> keeps_lock (state y) (state (finishTest E now y)).
Proof.
  intros Hnow. unfold finishTest. rewrite clearInterval_state.
  destruct (recordTime now (state y)) as [s1|] eqn:Hr.
  - apply recordTime_lock in Hr.
    assert (Hstamp : keeps_lock (state y) (set_endTime now s1)).
    { destruct Hr as (Hb & Hc & _). repeat split; try assumption. now right. }
    destruct (existsb _ _); [exact Hstamp |].
    eapply keeps_lock_trans; [exact Hstamp | apply finishTest_grade_lock].
  - rewrite clearInterval_state. apply keeps_lock_refl.
Qed.

Lemma updateTimer_lock E now y :
  (0 < now)%Z -> keeps_lock (state y) (state (updateTimer E now y)).
Proof.
  intros Hnow. unfold updateTimer. destruct (decide _); [| apply keeps_lock_refl].
  destruct (testData y); [| apply keeps_lock_refl].
  destruct (_ <=? _)%Z; [| apply keeps_lock_refl].
  cbn [state set_alerts]. now apply (finishTest_lock E now (set_timeLeft _ y)).
Qed.

Lemma checkFocus_complete E td away now y :
  (0 < now)%Z ->
  (status y = IN_PROGRESS -> testData y = Some td) ->
  lockout_complete td (state y) ->
  lockout_complete td (state (checkFocus E away now y)).
Proof.
  intros Hnow Hdoc [H1 H2]. unfold checkFocus.
  destruct (decide _) as [Hst|]; [| now split]. destruct away; [| now split].
  cbn [testData upd_state set_state]. rewrite (Hdoc Hst).
  destruct (truthy (max_cheat_attempts td)) as [m|] eqn:Hm.
  - cbn [state upd_state set_state cheatAttempts set_cheatLogs set_cheatAttempts].
    destruct (Z.leb_spec m (cheatAttempts (state y) + 1)).
    + cbn. split; [intros _; exact Hnow | reflexivity].
    + cbn. split; [exact H1 |]. intros m' Hm' Hle.
      rewrite Hm in Hm'. injection Hm' as <-. cbn in Hle. lia.
  - cbn. split; [exact H1 |]. intros m' Hm'. rewrite Hm in Hm'. discriminate Hm'.
Qed.

Lemma finishTest_grade_mode E y :
  testData (finishTest_grade E y) = testData y /\
  (status (finishTest_grade E y) = status y \/
   status (finishTest_grade E y) = COMPLETED_VIEW).
Proof.
  unfold finishTest_grade.
  destruct (grade_all E (st_questions (state y)) (answers (state y))) as [[qs ans] t].
  cbn. destruct (testData y) eqn:Htd; cbn; rewrite ?Htd; split; auto.
Qed.

Lemma finishTest_mode E now y :
  testData (finishTest E now y) = testData y /\
  (status (finishTest E now y) = status y \/
   status (finishTest E now y) = COMPLETED_VIEW).
Proof.
  unfold finishTest. rewrite clearInterval_state.
  assert (Hc : testData (clearInterval (timerInterval y) y) = testData y /\
               status (clearInterval (timerInterval y) y) = status y)
    by (now destruct (timerInterval y)).
  destruct Hc as [Hc1 Hc2].
  destruct (recordTime now (state y)); [| now split; [| left]].
  destruct (existsb _ _); [now split; [| left] |].
  destruct (finishTest_grade_mode E
              (upd_state (set_endTime now)
                 (removeCheatListeners
                    (set_state s (clearInterval (timerInterval y) y)))))
    as [Ht Hs].
  rewrite Ht. split; [exact Hc1 |].
  destruct Hs as [Hs|Hs]; [left; rewrite Hs; exact Hc2 | now right].
Qed.

Lemma updateTimer_mode E now y :
  testData (updateTimer E now y) = testData y /\
  (status (updateTimer E now y) = status y \/
   status (updateTimer E now y) = COMPLETED_VIEW).
Proof.
  unfold updateTimer. destruct (decide _); [| now split; [| left]].
  destruct (testData y) eqn:Htd; [| now split; [| left]].
  destruct (_ <=? _)%Z; [| now split; [| left]].
  cbn [testData status set_alerts].
  destruct (finishTest_mode E now (set_timeLeft "00:00" y)) as [Ht Hs].
  rewrite Ht. split; [exact Htd | exact Hs].
Qed.

Lemma checkFocus_mode E away now y :
  testData (checkFocus E away now y) = testData y /\
  (status (checkFocus E away now y) = status y \/
   status (checkFocus E away now y) = BLOCKED).
Proof.
  unfold checkFocus. destruct (decide _); [| now split; [| left]].
  destruct away; [| now split; [| left]].
  cbn [testData upd_state set_state].
  destruct (testData y) as [d|] eqn:Hd; [| now split; [| left]].
  destruct (match truthy (max_cheat_attempts d) with Some _ => _ | None => _ end);
    cbn; split; auto.
Qed.

Lemma has_document_preserved td before after :
  testData after = testData before ->
  (status after = status before \/
   (status after <> READY /\ status after <> IN_PROGRESS)) ->
  has_document td before -> has_document td after.
Proof.
  intros Ht Hs [H1 H2]. split; rewrite Ht; [exact H1 |].
  destruct Hs as [-> | [Hr Hp]]; [exact H2 |].
  intros [?|?]; contradiction.
Qed.

Lemma persist_mode before after :
  testData (persist before after) = testData after /\
  status (persist before after) = status after.
Proof. unfold persist. now destruct (decide _). Qed.

Lemma has_document_persist td before after :
  has_document td after -> has_document td (persist before after).
Proof.
  destruct (persist_mode before after) as [Ht Hs].
  unfold has_document. now rewrite Ht, Hs.
Qed.

Lemma handle_has_document E p td y ev :
  (forall d, fetched_doc ev = Some d -> d = td) ->
  has_document td y -> has_document td (handle E p y ev).
Proof.
  intros Hdoc Hy. destruct ev; simpl in *.
  - unfold onMounted. destruct isChrome; [| split; [discriminate | intros [?|?]; discriminate]].
    destruct fetched as [d|]; [| split; [discriminate | intros [?|?]; discriminate]].
    rewrite (Hdoc d eq_refl).
    cbn [storage set_testData set_status fresh_instance].
    assert (Hfix : forall z, testData z = Some td -> has_document td z).
    { intros z Hz. split; [| intros _; exact Hz]. rewrite Hz. now intros ? [= <-]. }
    destruct (storage y) as [saved|]; [| now apply Hfix].
    destruct (isBlocked _); [now apply Hfix |].
    destruct (_ <? _)%Z; [now apply Hfix |].
    destruct (_ <? _)%Z; [| now apply Hfix].
    apply Hfix. cbn [testData setInterval set_timerInterval set_next_interval set_intervals].
    destruct (updateTimer_mode E now
                (set_status IN_PROGRESS
                   (set_state (reblock td saved)
                      (set_testData (Some td) (set_status LOADING (fresh_instance y))))))
      as [Ht _].
    now rewrite Ht.
  - destruct (decide _) as [Hr|]; [| exact Hy].
    destruct Hy as [H1 H2]. specialize (H2 (or_introl Hr)).
    unfold startTest.
    match goal with
    | |- has_document td (setInterval (updateTimer E now ?z)) =>
        destruct (updateTimer_mode E now z) as [Ht _]
    end.
    split; cbn [testData status setInterval set_timerInterval set_next_interval
                set_intervals]; rewrite Ht; cbn; rewrite H2;
      [now intros ? [= <-] | reflexivity].
  - destruct (decide _); [| exact Hy]. destruct (next_shown _); [| exact Hy].
    destruct (nextQuestion now (state y)); [| exact Hy].
    eapply (has_document_preserved td y); [| | exact Hy]; [reflexivity | now left].
  - destruct (decide _); [| exact Hy]. destruct (_ <? _)%nat; [| exact Hy].
    destruct (prevQuestion now (state y)); [| exact Hy].
    eapply (has_document_preserved td y); [| | exact Hy]; [reflexivity | now left].
  - destruct (decide _); [| exact Hy].
    eapply (has_document_preserved td y); [| | exact Hy]; [reflexivity | now left].
  - destruct (decide _); [| exact Hy]. destruct (next_shown _); [exact Hy |].
    destruct (finishTest_mode E now y) as [Ht Hs].
    eapply (has_document_preserved td y); [exact Ht | | exact Hy].
    destruct Hs as [Hs|Hs]; [now left | right; rewrite Hs; split; discriminate].
  - destruct (listeners y); [| exact Hy].
    destruct (checkFocus_mode E away now y) as [Ht Hs].
    eapply (has_document_preserved td y); [exact Ht | | exact Hy].
    destruct Hs as [Hs|Hs]; [now left | right; rewrite Hs; split; discriminate].
  - destruct (decide _); [| exact Hy].
    destruct (updateTimer_mode E now y) as [Ht Hs].
    eapply (has_document_preserved td y); [exact Ht | | exact Hy].
    destruct Hs as [Hs|Hs]; [now left | right; rewrite Hs; split; discriminate].
  - unfold finishTest_resume. destruct (grading_pending y); [exact Hy |].
    destruct (finishTest_grade_mode E (set_grading_pending n y)) as [Ht Hs].
    eapply (has_document_preserved td y); [exact Ht | | exact Hy].
    destruct Hs as [Hs|Hs]; [now left | right; rewrite Hs; split; discriminate].
  - unfold toggleView.
    destruct (status y) eqn:Hst; try exact Hy;
      (eapply (has_document_preserved td y); [reflexivity | | exact Hy]);
      right; cbn; destruct (isBlocked (state y)); split; discriminate.
Qed.

Lemma handle_lockout_complete E p td y ev :
  (forall m, truthy (max_cheat_attempts td) = Some m -> (0 < m)%Z) ->
  (forall now, clock ev = Some now -> (0 < now)%Z) ->
  (forall d, fetched_doc ev = Some d -> d = td) ->
  has_document td y ->
  lockout_complete td (state y) ->
  (forall s, storage y = Some s -> lockout_complete td s) ->
  lockout_complete td (state (handle E p y ev)).
Proof.
  intros Hpos Hclock Hdoc [_ Hmode] Hy Hst. destruct ev; simpl in *.
  - assert (Hzero : lockout_complete td state0).
    { split; [discriminate |]. intros m Hm Hle. specialize (Hpos m Hm).
      simpl in Hle. lia. }
    unfold onMounted. destruct isChrome; [| exact Hzero].
    destruct fetched as [d|]; [| exact Hzero].
    rewrite (Hdoc d eq_refl).
    cbn [storage set_testData set_status fresh_instance].
    destruct (storage y) as [saved|].
    + assert (Hre : lockout_complete td (reblock td saved)).
      { pose proof (Hst saved eq_refl) as Hsaved. unfold reblock.
        destruct (truthy (max_cheat_attempts td)) as [m|] eqn:Hm; [| exact Hsaved].
        destruct (Z.leb_spec m (cheatAttempts saved)); [| exact Hsaved].
        destruct Hsaved as [H1 H2].
        split; cbn; [intros _; apply H1; now apply (H2 m) | reflexivity]. }
      destruct (isBlocked _); [exact Hre |].
      destruct (_ <? _)%Z; [exact Hre |].
      destruct (_ <? _)%Z; [| exact Hre].
      cbn [state setInterval set_timerInterval set_next_interval set_intervals].
      eapply keeps_lock_complete; [apply updateTimer_lock; now apply Hclock |].
      exact Hre.
    + cbn. eapply keeps_lock_complete; [apply prepareQuestions_lock | exact Hzero].
  - destruct (decide _); [| exact Hy]. unfold startTest.
    cbn [state setInterval set_timerInterval set_next_interval set_intervals].
    eapply keeps_lock_complete; [apply updateTimer_lock; now apply Hclock |].
    cbn. eapply keeps_lock_complete; [| exact Hy]. lock_same.
  - destruct (decide _); [| exact Hy]. destruct (next_shown _); [| exact Hy].
    destruct (nextQuestion now (state y)) as [s'|] eqn:Hn; [| exact Hy].
    cbn. eapply keeps_lock_complete; [eapply nextQuestion_lock, Hn | exact Hy].
  - destruct (decide _); [| exact Hy]. destruct (_ <? _)%nat; [| exact Hy].
    destruct (prevQuestion now (state y)) as [s'|] eqn:Hn; [| exact Hy].
    cbn. eapply keeps_lock_complete; [eapply prevQuestion_lock, Hn | exact Hy].
  - destruct (decide _); [| exact Hy].
    cbn. eapply keeps_lock_complete; [apply setAnswer_lock | exact Hy].
  - destruct (decide _); [| exact Hy]. destruct (next_shown _); [exact Hy |].
    eapply keeps_lock_complete; [apply finishTest_lock; now apply Hclock | exact Hy].
  - destruct (listeners y); [| exact Hy].
    apply checkFocus_complete; [now apply Hclock | | exact Hy].
    intros Hs. apply Hmode. now right.
  - destruct (decide _); [| exact Hy].
    eapply keeps_lock_complete; [apply updateTimer_lock; now apply Hclock | exact Hy].
  - unfold finishTest_resume. destruct (grading_pending y); [exact Hy |].
    eapply keeps_lock_complete;
      [apply (finishTest_grade_lock E (set_grading_pending n y)) | exact Hy].
  - now rewrite toggleView_state.
Qed.

(** With one and the same document at every page load, a limit that is
    absent or positive, and a clock that reads positive times, the lockout
    flag does imply a positive [endTime] in every reachable state: the
    flag is then only ever set by [checkFocus], which stamps [endTime]. *)
Lemma lockout_complete_under_one_document
    (E : Env) (p : Props) (td : TestData) (evs : list Event) :
  (forall m, truthy (max_cheat_attempts td) = Some m -> (0 < m)%Z) ->
  Forall (event_under td) evs ->
  let y := run E p evs sys0 in
  isBlocked (state y) = true -> (0 < endTime (state y))%Z.
Proof.
  intros Hpos Hevs.
  set (J := fun y : Sys =>
              has_document td y /\ lockout_complete td (state y) /\
              forall s, storage y = Some s -> lockout_complete td s).
  assert (Hstep : forall y ev, event_under td ev -> J y -> J (step E p y ev)).
  { intros y ev [Hclock Hdoc] (Hd & Hl & Hs).
    assert (Hh : has_document td (handle E p y ev))
      by now apply handle_has_document.
    assert (Hc : lockout_complete td (state (handle E p y ev)))
      by now apply handle_lockout_complete.
    assert (Hgen : forall before, J (persist before (handle E p y ev))).
    { intros before. split; [now apply has_document_persist |].
      rewrite persist_state. split; [exact Hc |].
      intros s Hsome.
      destruct (persist_storage before (handle E p y ev)) as [H|H];
        rewrite H in Hsome.
      - rewrite handle_storage in Hsome. now apply Hs.
      - now injection Hsome as <-. }
    destruct ev; apply Hgen. }
  assert (Hrun : forall l y, Forall (event_under td) l -> J y -> J (run E p l y)).
  { induction l as [|ev l IH]; intros y Hall Hy; [exact Hy |].
    apply Forall_cons in Hall as [Hev Hall]. simpl. apply IH; [exact Hall |].
    now apply Hstep. }
  assert (H0 : J sys0).
  { split; [split; [discriminate | intros [?|?]; discriminate] |].
    split; [| discriminate].
    split; [discriminate |]. intros m Hm Hle. specialize (Hpos m Hm).
    simpl in Hle. lia. }
  intros y. destruct (Hrun evs sys0 Hevs H0) as (_ & [Hblk _] & _). exact Hblk.
Qed.

(** ** The forced finish *)

(** A tick past the limit, in a session whose running interval is the one
    held in [timerInterval]: the display is 00:00, [finishTest] is called
    and clears the interval, so that no later tick is delivered. *)
Lemma updateTimer_expired (E : Env) (now : Z) (y : Sys) (td : TestData) (h : nat) :
  status y = IN_PROGRESS ->
  testData y = Some td ->
  (remaining_ms td now (state y) <= 0)%Z ->
  timerInterval y = Some h ->
  let y' := updateTimer E now y in
  timeLeft y' = "00:00" /\
  (h ∉ intervals y') /\
  alerts y' = alerts y ++ [TimeUp].
Proof.
  intros Hst Htd Hrem Hh y'. subst y'. unfold updateTimer.
  rewrite decide_True by exact Hst. rewrite Htd.
  destruct (Z.leb_spec (remaining_ms td now (state y)) 0); [| lia].
  cbn [timeLeft intervals alerts set_alerts].
  unfold finishTest. cbn [timerInterval set_timeLeft]. rewrite Hh.
  rewrite clearInterval_state. cbn [state set_timeLeft].
  assert (Hnot : h ∉ filter (fun j => j ≠ h) (intervals y)).
  { rewrite list_elem_of_filter. intros [Hne _]. now apply Hne. }
  destruct (recordTime now (state y)) as [s1|]; [| now cbn].
  destruct (existsb _ _); [now cbn |].
  unfold finishTest_grade.
  destruct (grade_all E _ _) as [[qs ans] t]. cbn. rewrite Htd. now cbn.
Qed.

(** C6. On the reload, [onMounted] calls [updateTimer], which shows 00:00
    and calls [finishTest], and only then starts the interval: the
    [clearInterval] of that call finds no interval to clear.  While the
    grading waits for the database, the status is still [IN_PROGRESS] and
    the next tick forces the finish a second time: two alerts, two
    suspended calls, and [endTime] stamped anew. *)
Theorem forced_finish_repeats_after_reload :
  timeLeft sql_expired_on_reload = "00:00" /\
  alerts sql_expired_on_reload = [TimeUp] /\
  grading_pending sql_expired_on_reload = 1%nat /\
  endTime (state sql_expired_on_reload) = 1202001%Z /\
  status sql_expired_on_reload = IN_PROGRESS /\
  intervals sql_expired_on_reload = [0%nat] /\
  (let y := step MiniSql.env sql_props sql_expired_on_reload (EvTick 0 1203001) in
   timeLeft y = "00:00" /\
   alerts y = [TimeUp; TimeUp] /\
   grading_pending y = 2%nat /\
   endTime (state y) = 1203001%Z /\
   intervals y = [] /\
   (let done := run MiniSql.env sql_props [EvGraded; EvGraded] y in
    status done = COMPLETED_VIEW /\ score (state done) = 5%Z)).
Proof. vm_compute. repeat split. Qed.

(** * Further properties *)

(** ** Selecting options *)







(** ** The report *)

(** The texts shown for an answer depend on which ids are selected, not on
    their order or repetition; they come in the order of the question's
    options.  With nothing selected the text is empty, which the template
    replaces by its placeholder, and with every option selected it lists
    all texts. *)
Theorem getSelectedOptionTexts_by_membership
    (q : Question) (options : list QOption) (ids ids' : list string) :
  q_options q = Some options ->
  (forall x, x ∈ ids <-> x ∈ ids') ->
  getSelectedOptionTexts q ids = getSelectedOptionTexts q ids' /\
  getSelectedOptionTexts q [] = Texts EmptyString /\
  texts_truthy (getSelectedOptionTexts q []) = false /\
  ((forall opt, opt ∈ options -> opt_id opt ∈ ids) ->
   getSelectedOptionTexts q ids = Texts (join_with ", " (opt_text <$> options))).
Proof.
  intros Hopt Hsame. unfold getSelectedOptionTexts. rewrite Hopt.
  split; [| split; [| split]].
  - assert (Hf : filter (fun opt => opt_id opt ∈ ids) options
                 = filter (fun opt => opt_id opt ∈ ids') options)
      by (apply list_filter_iff; intros opt; apply Hsame).
    now rewrite Hf.
  - assert (Hnil : filter (fun opt => opt_id opt ∈ []) options = []).
    { clear Hopt. induction options as [|o l IH]; [reflexivity |].
      rewrite filter_cons. destruct (decide _) as [Hin|_]; [| exact IH].
      now apply elem_of_nil in Hin. }
    now rewrite Hnil.
  - assert (Hnil : filter (fun opt => opt_id opt ∈ []) options = []).
    { clear Hopt. induction options as [|o l IH]; [reflexivity |].
      rewrite filter_cons. destruct (decide _) as [Hin|_]; [| exact IH].
      now apply elem_of_nil in Hin. }
    now rewrite Hnil.
  - intros Hall.
    assert (Hf : filter (fun opt => opt_id opt ∈ ids) options = options).
    { clear Hopt. induction options as [|o l IH]; [reflexivity |].
      rewrite filter_cons. destruct (decide _) as [_|Hout].
      2: { exfalso. apply Hout, Hall, list_elem_of_here. }
      f_equal. apply IH. intros opt Hin. apply Hall. now apply list_elem_of_further. }
    now rewrite Hf.
Qed.

Lemma getSelectedOptionTexts_by_membership_witness :
  getSelectedOptionTexts (mc_question "a" 1 EmptyString) ["y"; "x"; "y"]
  = Texts "first, second".
Proof.
  destruct (getSelectedOptionTexts_by_membership (mc_question "a" 1 EmptyString)
              [mkOption "x" "first"; mkOption "y" "second"]
              ["y"; "x"; "y"] ["x"; "y"] eq_refl) as (Hsame & _).
  - intros x. rewrite !elem_of_cons. pose proof (not_elem_of_nil x). tauto.
  - rewrite Hsame. reflexivity.
Defined.

(** For a duration that is not negative, [formatTime] prints whole
    minutes and the seconds left over: the seconds are below 60 and
    together they are the duration in whole seconds. *)
Theorem formatTime_parts_split (ms : Z) :
  (0 <= ms)%Z ->
  let '(m, s) := formatTime_parts ms in
  (0 <= m)%Z /\ (0 <= s < 60)%Z /\ (60 * m + s = ms / 1000)%Z /\
  formatTime ms = Js.Z_toString m +:+ "м " +:+ Js.Z_toString s +:+ "с".
Proof.
  intros Hms. unfold formatTime, formatTime_parts.
  assert (Hs : (0 <= ms / 1000)%Z) by (apply Z.div_pos; lia).
  rewrite Z.rem_mod_nonneg by lia.
  pose proof (Z.mod_pos_bound (ms / 1000) 60 ltac:(lia)).
  pose proof (Z.div_mod (ms / 1000) 60 ltac:(lia)).
  assert (0 <= ms / 1000 / 60)%Z by (apply Z.div_pos; lia).
  repeat split; try lia.
Qed.

Lemma formatTime_parts_split_witness :
  (0 <= 2)%Z /\ (0 <= 5 < 60)%Z /\ (60 * 2 + 5 = 125999 / 1000)%Z /\
  formatTime 125999 = Js.Z_toString 2 +:+ "м " +:+ Js.Z_toString 5 +:+ "с".
Proof. exact (formatTime_parts_split 125999 ltac:(lia)). Defined.

(** ** Normalising a statement *)









(** ** What a grade of correct implies *)



(** ** Ordered and unordered comparison *)

Lemma except_all_perm_nil {A} `{EqDecision A} (l l' : list A) :
  l ≡ₚ l' -> except_all l l' = [].
Proof.
  intros Hp. apply length_zero_iff_nil.
  rewrite (except_all_length_perm l l l' l (reflexivity l) (symmetry Hp)).
  now rewrite except_all_self.
Qed.

(** When the student's statement returns the rows of the reference in
    some order, the question that does not ask for order grades correct,
    and the question that asks for order grades correct exactly when the
    two results have the same serialisation. *)
Theorem grade_sql_same_rows
    (E : Env) (q : Question) (answer : string) (db : DB E)
    (resStudent resCorrect : list Row) :
  let studentSql := normalize_sql answer in
  let correctQuery := normalize_sql (q_correct_query q) in
  blank answer = false ->
  exec_all E (new_PGlite E) (default [] (q_init_sql q)) = Some db ->
  db_query E db studentSql = Some (resStudent, db) ->
  db_query E db correctQuery = Some (resCorrect, db) ->
  engine_counts_except_all E db studentSql correctQuery resStudent resCorrect ->
  engine_counts_except_all E db correctQuery studentSql resCorrect resStudent ->
  row_values <$> resStudent ≡ₚ row_values <$> resCorrect ->
  grade_sql E q (Some (AText answer))
  = if q_sort_required q
    then String.eqb (JSON_stringify E resStudent) (JSON_stringify E resCorrect)
    else true.
Proof.
  intros studentSql correctQuery Hb Hsetup Hs Hc
    (rowE & moreE & HqE & HcE) (rowM & moreM & HqM & HcM) Hperm.
  rewrite (except_all_perm_nil _ _ Hperm) in HcE.
  rewrite (except_all_perm_nil _ _ (symmetry Hperm)) in HcM.
  rewrite (grade_sql_after_student E q answer db db resStudent Hb Hsetup Hs).
  fold studentSql correctQuery.
  unfold sql_counts. rewrite HqE. simpl. rewrite HqM. simpl.
  rewrite HcE, HcM. simpl.
  destruct (q_sort_required q); simpl; [| reflexivity].
  unfold ordered_equal. rewrite Hs. simpl. rewrite Hc. reflexivity.
Qed.

Lemma grade_sql_same_rows_witness :
  grade_sql MiniSql.env (sql_question "q" 5 "VALUES (1),(2)" true)
    (Some (AText "VALUES (2),(1)")) = false /\
  grade_sql MiniSql.env (sql_question "q" 5 "VALUES (1),(2)" false)
    (Some (AText "VALUES (2),(1)")) = true.
Proof.
  split.
  - rewrite (grade_sql_same_rows MiniSql.env
               (sql_question "q" 5 "VALUES (1),(2)" true) "VALUES (2),(1)" tt
               [[("column1", VNum 2)]; [("column1", VNum 1)]]
               [[("column1", VNum 1)]; [("column1", VNum 2)]]).
    + reflexivity.
    + vm_compute. reflexivity.
    + vm_compute. reflexivity.
    + vm_compute. reflexivity.
    + vm_compute. reflexivity.
    + eexists _, _. split; vm_compute; reflexivity.
    + eexists _, _. split; vm_compute; reflexivity.
    + apply perm_swap.
  - rewrite (grade_sql_same_rows MiniSql.env
               (sql_question "q" 5 "VALUES (1),(2)" false) "VALUES (2),(1)" tt
               [[("column1", VNum 2)]; [("column1", VNum 1)]]
               [[("column1", VNum 1)]; [("column1", VNum 2)]]).
    + reflexivity.
    + vm_compute. reflexivity.
    + vm_compute. reflexivity.
    + vm_compute. reflexivity.
    + vm_compute. reflexivity.
    + eexists _, _. split; vm_compute; reflexivity.
    + eexists _, _. split; vm_compute; reflexivity.
    + apply perm_swap.
Defined.

(** ** Multiple choice: the selection that is graded correct *)

Lemma append_comma_inj (x y r r' : string) :
  no_comma x = true -> no_comma y = true ->
  x +:+ "," +:+ r = y +:+ "," +:+ r' -> x = y /\ r = r'.
Proof.
  revert y. induction x as [|a x IH]; intros [|b y] Hx Hy Heq.
  - now injection Heq.
  - exfalso. injection Heq as Hb _. subst b. discriminate Hy.
  - exfalso. injection Heq as Ha _. subst a. discriminate Hx.
  - injection Heq as -> Hrest.
    simpl in Hx, Hy. apply andb_true_iff in Hx as [_ Hx], Hy as [_ Hy].
    destruct (IH y Hx Hy Hrest) as [-> ->]. easy.
Qed.

Lemma no_comma_not_joined (x y r : string) :
  no_comma x = true -> no_comma y = true -> x <> y +:+ "," +:+ r.
Proof.
  revert y. induction x as [|a x IH]; intros [|b y] Hx Hy Heq;
    try discriminate Heq.
  - injection Heq as -> _. discriminate Hx.
  - injection Heq as -> Hrest.
    simpl in Hx, Hy. apply andb_true_iff in Hx as [_ Hx], Hy as [_ Hy].
    now apply (IH y Hx Hy).
Qed.

Lemma join_comma_cons2 (x y : string) (rest : list string) :
  Js.join_comma (x :: y :: rest) = x +:+ "," +:+ Js.join_comma (y :: rest).
Proof. reflexivity. Qed.

Lemma join_comma_not_empty (x : string) (rest : list string) :
  x <> EmptyString -> Js.join_comma (x :: rest) <> EmptyString.
Proof.
  intros Hx. destruct rest as [|y rest]; [exact Hx |].
  rewrite join_comma_cons2. destruct x; [congruence | discriminate].
Qed.

(** Ids that are not empty and hold no comma can be read back from their
    comma-joined string. *)
Lemma join_comma_inj (xs ys : list string) :
  Forall plain_id xs -> Forall plain_id ys ->
  Js.join_comma xs = Js.join_comma ys -> xs = ys.
Proof.
  revert ys. induction xs as [|x xs IH]; intros ys Hxs Hys Heq.
  - destruct ys as [|y ys]; [reflexivity |].
    apply Forall_cons in Hys as [[Hy _] _].
    exfalso. now apply (join_comma_not_empty y ys Hy).
  - apply Forall_cons in Hxs as [[Hx Hcx] Hxs].
    destruct ys as [|y ys].
    + exfalso. now apply (join_comma_not_empty x xs Hx).
    + apply Forall_cons in Hys as [[Hy Hcy] Hys].
      destruct xs as [|x2 xs], ys as [|y2 ys].
      * simpl in Heq. now subst.
      * exfalso. rewrite join_comma_cons2 in Heq.
        exact (no_comma_not_joined x y _ Hcx Hcy Heq).
      * exfalso. rewrite join_comma_cons2 in Heq. symmetry in Heq.
        exact (no_comma_not_joined y x _ Hcy Hcx Heq).
      * rewrite !join_comma_cons2 in Heq.
        destruct (append_comma_inj _ _ _ _ Hcx Hcy Heq) as [-> Hrest].
        f_equal. now apply IH.
Qed.

(** When the reference digest of a question is the digest of its sorted,
    comma-joined correct ids, no other message has that digest, and ids
    are not empty and hold no comma, a selection is graded correct
    exactly when it consists of the correct ids, in any order. *)
Theorem grade_mc_correct_iff
    (E : Env) (q : Question) (correct ids : list string) :
  q_correct_hash q = sha256 E (Js.join_comma (Js.sort correct)) ->
  (forall m, sha256 E m = q_correct_hash q -> m = Js.join_comma (Js.sort correct)) ->
  Forall plain_id correct -> Forall plain_id ids ->
  (fst (grade_mc E q (Some (AList ids))) = true <-> ids ≡ₚ correct).
Proof.
  intros Hhash Hfree Hc Hi. simpl. unfold hash_answers. split.
  - intros Heq. apply String.eqb_eq in Heq. apply Hfree in Heq.
    apply join_comma_inj in Heq.
    + rewrite <- (sort_perm ids), Heq. apply sort_perm.
    + now rewrite sort_perm.
    + now rewrite sort_perm.
  - intros Hperm. apply String.eqb_eq. rewrite Hhash. do 2 f_equal.
    apply sort_unique; [apply sort_sorted |].
    rewrite sort_perm. now symmetry.
Qed.

Lemma grade_mc_correct_iff_witness :
  fst (grade_mc MiniSql.env (mc_question "b" 2 (sha256 MiniSql.env "x,y"))
         (Some (AList ["y"; "x"]))) = true.
Proof.
  apply (grade_mc_correct_iff MiniSql.env
           (mc_question "b" 2 (sha256 MiniSql.env "x,y")) ["x"; "y"] ["y"; "x"]).
  - reflexivity.
  - intros m Hm. simpl in Hm. now injection Hm.
  - repeat constructor; discriminate.
  - repeat constructor; discriminate.
  - apply perm_swap.
Defined.

(** ** The state after the selection *)

Lemma select_questions_submseteq p td r : select_questions p td r ⊆+ questions td.
Proof.
  destruct (select_questions_perm p td r) as (pool & extra & Hall & Hextra & Hsel).
  rewrite Hsel, <- Hall. apply submseteq_skips_l. subst extra.
  destruct (0 <? _)%Z; [| apply submseteq_nil_l].
  etransitivity; [apply submseteq_take |].
  apply Permutation_submseteq, shuffle_perm.
Qed.

Lemma init_questions_reordered qs draws s :
  Forall2 reordered_options qs (fst (init_questions qs draws s)).
Proof.
  revert draws s. induction qs as [|q qs IH]; intros draws s; simpl; [constructor |].
  specialize (IH (tail draws) (init_question q s)).
  destruct (init_questions qs (tail draws) (init_question q s)) as [rest' s'].
  simpl in *. constructor; [| exact IH].
  unfold reordered_options. simpl. repeat split.
  destruct (q_options q) as [options|]; simpl; [apply shuffle_perm | exact I].
Qed.

(** Entries of questions that are not in the list are left alone. *)
Lemma init_questions_other qs draws s id :
  id ∉ q_id <$> qs ->
  answers (snd (init_questions qs draws s)) !! id = answers s !! id /\
  questionTimings (snd (init_questions qs draws s)) !! id = questionTimings s !! id.
Proof.
  revert draws s. induction qs as [|q qs IH]; intros draws s Hid; simpl; [easy |].
  rewrite fmap_cons, not_elem_of_cons in Hid. destruct Hid as [Hne Hid].
  specialize (IH (tail draws) (init_question q s) Hid).
  destruct (init_questions qs (tail draws) (init_question q s)) as [rest' s'].
  simpl in *. destruct IH as [-> ->].
  now rewrite !lookup_insert_ne by congruence.
Qed.

Lemma init_questions_entries qs draws s q :
  NoDup (q_id <$> qs) -> q ∈ qs ->
  answers (snd (init_questions qs draws s)) !! q_id q = Some (initial_answer q) /\
  questionTimings (snd (init_questions qs draws s)) !! q_id q = Some (Num 0).
Proof.
  revert draws s. induction qs as [|q0 qs IH]; intros draws s Hnd Hin.
  - now apply elem_of_nil in Hin.
  - rewrite fmap_cons in Hnd. apply NoDup_cons in Hnd as [Hfresh Hnd].
    apply elem_of_cons in Hin as [->|Hin].
    + pose proof (init_questions_other qs (tail draws) (init_question q0 s)
                    (q_id q0) Hfresh) as Hother.
      simpl. destruct (init_questions qs (tail draws) (init_question q0 s))
        as [rest' s'].
      simpl in *. destruct Hother as [-> ->].
      now rewrite !lookup_insert_eq.
    + specialize (IH (tail draws) (init_question q0 s) Hnd Hin).
      simpl. destruct (init_questions qs (tail draws) (init_question q0 s))
        as [rest' s'].
      exact IH.
Qed.

Lemma init_questions_frame qs draws s :
  let s' := snd (init_questions qs draws s) in
  currentIndex s' = currentIndex s /\ startTime s' = startTime s /\
  endTime s' = endTime s /\ lastQuestionEntryTime s' = lastQuestionEntryTime s /\
  score s' = score s /\ grade s' = grade s /\ isBlocked s' = isBlocked s.
Proof.
  revert draws s. induction qs as [|q qs IH]; intros draws s; simpl; [easy |].
  specialize (IH (tail draws) (init_question q s)).
  destruct (init_questions qs (tail draws) (init_question q s)) as [rest' s'].
  exact IH.
Qed.

Lemma prepareQuestions_snd p td r s :
  let s' := snd (init_questions (select_questions p td r) (rnd_options r) s) in
  answers (prepareQuestions p td r s) = answers s' /\
  questionTimings (prepareQuestions p td r s) = questionTimings s' /\
  currentIndex (prepareQuestions p td r s) = currentIndex s' /\
  endTime (prepareQuestions p td r s) = endTime s' /\
  startTime (prepareQuestions p td r s) = startTime s' /\
  score (prepareQuestions p td r s) = score s' /\
  isBlocked (prepareQuestions p td r s) = isBlocked s'.
Proof.
  unfold prepareQuestions.
  now destruct (init_questions (select_questions p td r) (rnd_options r) s).
Qed.

(** For a document with distinct question ids, the fresh session has for
    every selected question one answer entry, the empty text for an SQL
    question and the empty selection otherwise, and one timing bucket at
    0; it has no entry for any other id; and it is not started: index 0,
    no start or end time, score 0, not blocked. *)
Theorem prepareQuestions_entries (p : Props) (td : TestData) (r : Rand) :
  NoDup (q_id <$> questions td) ->
  let s := prepareQuestions p td r state0 in
  (forall q, q ∈ st_questions s ->
     answers s !! q_id q = Some (initial_answer q) /\
     questionTimings s !! q_id q = Some (Num 0)) /\
  (forall id, id ∉ q_id <$> st_questions s ->
     answers s !! id = None /\ questionTimings s !! id = None) /\
  currentIndex s = 0%nat /\ startTime s = 0%Z /\ endTime s = 0%Z /\
  score s = 0%Z /\ isBlocked s = false.
Proof.
  intros Hnd s. subst s.
  destruct (prepareQuestions_snd p td r state0) as (Ha & Ht & Hi & He & Hs & Hsc & Hb).
  rewrite Ha, Ht, Hi, He, Hs, Hsc, Hb, prepareQuestions_questions.
  pose proof (init_questions_fst (select_questions p td r) (rnd_options r) state0)
    as (Hids & _ & _).
  pose proof (init_questions_reordered (select_questions p td r) (rnd_options r) state0)
    as Hre.
  assert (Hnd' : NoDup (q_id <$> select_questions p td r)).
  { eapply NoDup_of_submseteq; [| exact Hnd].
    apply fmap_submseteq, select_questions_submseteq. }
  split; [| split].
  - intros q' Hq'.
    apply list_elem_of_lookup in Hq' as [i Hi'].
    destruct (Forall2_lookup_r _ _ _ _ _ Hre Hi') as (q & Hq & Hrel).
    destruct Hrel as (Hid & Hty & _).
    assert (Hinit : initial_answer q' = initial_answer q)
      by (unfold initial_answer; now rewrite Hty).
    rewrite Hid, Hinit. apply init_questions_entries; [exact Hnd' |].
    eapply list_elem_of_lookup_2; eassumption.
  - intros id Hid. rewrite Hids in Hid.
    destruct (init_questions_other (select_questions p td r) (rnd_options r)
                state0 id Hid) as [-> ->].
    split; apply lookup_empty.
  - destruct (init_questions_frame (select_questions p td r) (rnd_options r) state0)
      as (-> & -> & -> & _ & -> & _ & ->).
    easy.
Qed.

Lemma prepareQuestions_entries_witness :
  let s := prepareQuestions abc_props (abc_quiz None) no_draws state0 in
  answers s !! "b" = Some (AList []) /\ questionTimings s !! "b" = Some (Num 0) /\
  answers s !! "zz" = None.
Proof.
  destruct (prepareQuestions_entries abc_props (abc_quiz None) no_draws)
    as (Hin & Hout & _).
  - apply (bool_decide_unpack _). vm_compute. reflexivity.
  - destruct (Hin (mc_question "b" 2 (sha256 MiniSql.env "x,y"))) as [Ha Ht].
    + apply (bool_decide_unpack _). vm_compute. reflexivity.
    + destruct (Hout "zz") as [Hz _].
      * apply (bool_decide_unpack _). vm_compute. reflexivity.
      * split; [exact Ha |]. split; [exact Ht | exact Hz].
Defined.

(** Every selected question is a question of the document with the same
    id, type, text, points and reference answer, and with the same
    options in some order. *)
Theorem prepareQuestions_keeps_questions
    (p : Props) (td : TestData) (r : Rand) (s : State) (q' : Question) :
  q' ∈ st_questions (prepareQuestions p td r s) ->
  exists q, q ∈ questions td /\ reordered_options q q'.
Proof.
  rewrite prepareQuestions_questions. intros Hq'.
  apply list_elem_of_lookup in Hq' as [i Hi].
  destruct (Forall2_lookup_r _ _ _ _ _
              (init_questions_reordered (select_questions p td r) (rnd_options r) s) Hi)
    as (q & Hq & Hrel).
  exists q. split; [| exact Hrel].
  apply list_elem_of_lookup_2 in Hq.
  pose proof (select_questions_submseteq p td r) as Hsub.
  apply submseteq_Permutation in Hsub as [k Hk].
  rewrite Hk, elem_of_app. now left.
Qed.

Lemma prepareQuestions_keeps_questions_witness :
  exists q, q ∈ questions (abc_quiz None) /\
            q_id q = "a" /\
            q_options q = Some [mkOption "x" "first"; mkOption "y" "second"].
Proof.
  destruct (prepareQuestions_keeps_questions abc_props (abc_quiz None)
              (mkRand [] [] [[1%nat]]) state0
              {| q_id := "a"; q_type := "multiple-choice"; q_text := EmptyString;
                 q_points := 1;
                 q_options := Some [mkOption "y" "second"; mkOption "x" "first"];
                 q_correct_hash := sha256 MiniSql.env "x";
                 q_correct_query := EmptyString; q_sort_required := false;
                 q_init_sql := None; q_isCorrect := false |})
    as (q & Hin & Hre).
  - apply (bool_decide_unpack _). vm_compute. reflexivity.
  - exists q. split; [exact Hin |].
    destruct Hre as (Hid & _). simpl in Hid. symmetry in Hid. split; [exact Hid |].
    apply list_elem_of_In in Hin. simpl in Hin.
    destruct Hin as [<-|[<-|[<-|[]]]]; simpl in Hid; try discriminate Hid.
    reflexivity.
Defined.

(** ** What a finished call leaves *)

Lemma grade_all_total (E : Env) (qs : list Question) (a : gmap string Answer) :
  snd (grade_all E qs a)
  = sum_points (filter (fun q => q_isCorrect q = true) (fst (fst (grade_all E qs a)))).
Proof.
  revert a. induction qs as [|q qs IH]; intros a; simpl; [reflexivity |].
  destruct (grade_question E a q) as [q' a1].
  specialize (IH a1). destruct (grade_all E qs a1) as [[rest a2] total].
  simpl in *. rewrite filter_cons.
  destruct (q_isCorrect q') eqn:Hc.
  - rewrite decide_True by reflexivity. simpl. now rewrite IH.
  - rewrite decide_False by discriminate. now rewrite IH.
Qed.

Lemma graded_of_same (qs qs' : list Question) :
  Forall2 graded_of qs qs' ->
  q_id <$> qs' = q_id <$> qs /\ q_points <$> qs' = q_points <$> qs /\
  sum_points qs' = sum_points qs.
Proof.
  induction 1 as [|q q' qs qs' [b ->] _ (IH1 & IH2 & IH3)]; [easy |].
  rewrite !fmap_cons, IH1, IH2. simpl. now rewrite IH3.
Qed.

Lemma finishTest_grade_frame (E : Env) (y : Sys) :
  listeners (finishTest_grade E y) = listeners y /\
  intervals (finishTest_grade E y) = intervals y /\
  alerts (finishTest_grade E y) = alerts y /\
  grading_pending (finishTest_grade E y) = grading_pending y /\
  timerInterval (finishTest_grade E y) = timerInterval y.
Proof.
  unfold finishTest_grade.
  destruct (grade_all E (st_questions (state y)) (answers (state y))) as [[qs ans] t].
  cbn. now destruct (testData y).
Qed.

Lemma finishTest_to_end_frame (E : Env) (now : Z) (y : Sys) (s1 : State) :
  recordTime now (state y) = Some s1 ->
  listeners (finishTest_to_end E now y) = false /\
  intervals (finishTest_to_end E now y)
  = intervals (clearInterval (timerInterval y) y) /\
  alerts (finishTest_to_end E now y) = alerts y /\
  grading_pending (finishTest_to_end E now y) = grading_pending y.
Proof.
  intros Hrec. unfold finishTest_to_end, finishTest.
  rewrite clearInterval_state, Hrec.
  assert (Hc : listeners (clearInterval (timerInterval y) y) = listeners y /\
               alerts (clearInterval (timerInterval y) y) = alerts y /\
               grading_pending (clearInterval (timerInterval y) y) = grading_pending y)
    by (now destruct (timerInterval y)).
  destruct Hc as (Hl & Hal & Hgp).
  set (y3 := upd_state (set_endTime now)
               (removeCheatListeners (set_state s1 (clearInterval (timerInterval y) y)))).
  assert (H3 : listeners y3 = false /\
               intervals y3 = intervals (clearInterval (timerInterval y) y) /\
               alerts y3 = alerts y /\ grading_pending y3 = grading_pending y)
    by (repeat split; assumption).
  clearbody y3. destruct H3 as (L3 & I3 & A3 & G3).
  destruct (existsb (awaits (answers (state y3))) (st_questions (state y3))).
  - rewrite decide_False
      by (cbn [grading_pending set_grading_pending]; rewrite G3; lia).
    unfold finishTest_resume. cbn [grading_pending set_grading_pending].
    match goal with
    | |- context [finishTest_grade E ?z] =>
        destruct (finishTest_grade_frame E z) as (-> & -> & -> & -> & _)
    end.
    now cbn.
  - destruct (finishTest_grade_frame E y3) as (F1 & F2 & F3 & F4 & _).
    rewrite decide_True by (rewrite F4; exact G3).
    now rewrite F1, F2, F3, F4.
Qed.

(** A call of [finishTest] in a session with its document and a current
    question, followed to its end: the report is shown, [checkFocus] is
    no longer registered, the interval held in [timerInterval] no longer
    runs, [endTime] is the time of the call, the score is the sum of the
    points of the questions marked correct, the grade is computed from
    that score and the unchanged [maxScore], and the questions keep their
    ids and points. *)
Theorem finishTest_outcome
    (E : Env) (td : TestData) (now : Z) (y : Sys) (q : Question) :
  testData y = Some td ->
  st_questions (state y) !! currentIndex (state y) = Some q ->
  let y' := finishTest_to_end E now y in
  status y' = COMPLETED_VIEW /\
  listeners y' = false /\
  (forall h, timerInterval y = Some h -> h ∉ intervals y') /\
  endTime (state y') = now /\
  score (state y')
  = sum_points (filter (fun q => q_isCorrect q = true) (st_questions (state y'))) /\
  grade (state y') = final_grade td (score (state y')) (maxScore (state y)) /\
  maxScore (state y') = maxScore (state y) /\
  q_id <$> st_questions (state y') = q_id <$> st_questions (state y) /\
  q_points <$> st_questions (state y') = q_points <$> st_questions (state y) /\
  startTime (state y') = startTime (state y) /\
  alerts y' = alerts y.
Proof.
  intros Htd Hq y'. subst y'.
  pose proof (recordTime_Some now _ q Hq) as Hrec.
  destruct (finishTest_to_end_state E td now y _ Htd Hrec) as (Hs & _ & Hv).
  destruct (finishTest_to_end_frame E now y _ Hrec) as (Hl & Hi & Ha & _).
  rewrite Hs, Hv, Hl, Hi, Ha. unfold finished_state.
  cbn [st_questions answers set_questionTimings maxScore].
  pose proof (grade_all_total E (st_questions (state y)) (answers (state y))) as Htot.
  destruct (grade_all_keeps E (st_questions (state y)) (answers (state y))) as [_ Hg].
  destruct (grade_all E (st_questions (state y)) (answers (state y)))
    as [[qs ans] total].
  simpl in Htot, Hg. destruct (graded_of_same _ _ Hg) as (Hids & Hpts & _).
  cbn. repeat split; try assumption.
  intros h Hh. rewrite Hh. cbn. rewrite list_elem_of_filter. intros [Hne _].
  now apply Hne.
Qed.

Lemma finishTest_outcome_witness :
  let y := finishTest_to_end MiniSql.env 5000
             (run MiniSql.env abc_props
                [EvLoad true (Some (abc_quiz None)) no_draws 1000; EvStart 2000;
                 EvAnswer (AList ["x"])] sys0) in
  status y = COMPLETED_VIEW /\ listeners y = false /\ intervals y = [] /\
  endTime (state y) = 5000%Z /\ score (state y) = 1%Z.
Proof.
  intros y.
  destruct (finishTest_outcome MiniSql.env (abc_quiz None) 5000
              (run MiniSql.env abc_props
                 [EvLoad true (Some (abc_quiz None)) no_draws 1000; EvStart 2000;
                  EvAnswer (AList ["x"])] sys0)
              (mc_question "a" 1 (sha256 MiniSql.env "x")))
    as (Hv & Hl & _ & He & _).
  - vm_compute. reflexivity.
  - vm_compute. reflexivity.
  - fold y in Hv, Hl, He. split; [exact Hv |]. split; [exact Hl |].
    split; [vm_compute; reflexivity |]. split; [exact He |].
    vm_compute. reflexivity.
Defined.

(** ** The console *)

(** The console runs every initial query and goes on after one that is
    rejected, where the setup of a graded question stops at the first
    rejected statement. *)
Theorem repl_init_goes_on
    (E : Env) (pg d : DB E) (before : list string) (bad : string) (after : list string) :
  exec_all E pg before = Some d ->
  db_exec E d bad = None ->
  repl_init E pg before = d /\
  repl_init E pg (before ++ bad :: after) = repl_init E d after /\
  exec_all E pg (before ++ bad :: after) = None.
Proof.
  revert pg. induction before as [|s before IH]; intros pg Hok Hbad; simpl in *.
  - injection Hok as <-. now rewrite Hbad.
  - destruct (db_exec E pg s) as [pg'|]; simpl in *; [| discriminate].
    now apply IH.
Qed.

Lemma repl_init_goes_on_witness :
  repl_init MiniSql.env tt ["SELECT 1"; "SELEC 2"; "SELECT 3"] = tt /\
  exec_all MiniSql.env tt ["SELECT 1"; "SELEC 2"; "SELECT 3"] = None.
Proof.
  destruct (repl_init_goes_on MiniSql.env tt tt ["SELECT 1"] "SELEC 2" ["SELECT 3"])
    as (_ & H1 & H2).
  - vm_compute. reflexivity.
  - vm_compute. reflexivity.
  - split; [now destruct (repl_init MiniSql.env tt _) | exact H2].
Defined.

(** ** The changes a handler makes to the state *)

Lemma finishTest_grade_edits (E : Env) (y : Sys) :
  rtc (edit E) (state y) (state (finishTest_grade E y)).
Proof.
  unfold finishTest_grade.
  pose proof (edit_graded E (state y)) as Hg.
  destruct (grade_all E (st_questions (state y)) (answers (state y))) as [[qs ans] t].
  cbn. destruct (testData y) as [td|]; cbn.
  - eapply rtc_l; [exact Hg |]. apply rtc_once.
    apply (edit_grade E _ (set_score t (set_answers ans (set_st_questions qs (state y))))).
  - apply rtc_once. exact Hg.
Qed.

Lemma finishTest_edits (E : Env) (now : Z) (y : Sys) :
  rtc (edit E) (state y) (state (finishTest E now y)).
Proof.
  unfold finishTest. rewrite clearInterval_state.
  destruct (recordTime now (state y)) as [s1|] eqn:Hr.
  - eapply rtc_l; [exact (edit_record E now _ _ Hr) |].
    eapply rtc_l; [exact (edit_endTime E now s1) |].
    destruct (existsb _ _); [apply rtc_refl |].
    apply (finishTest_grade_edits E
             (upd_state (set_endTime now)
                (removeCheatListeners
                   (set_state s1 (clearInterval (timerInterval y) y))))).
  - rewrite clearInterval_state. apply rtc_refl.
Qed.

Lemma updateTimer_edits (E : Env) (now : Z) (y : Sys) :
  rtc (edit E) (state y) (state (updateTimer E now y)).
Proof.
  unfold updateTimer. destruct (decide _); [| apply rtc_refl].
  destruct (testData y); [| apply rtc_refl].
  destruct (_ <=? _)%Z; [| apply rtc_refl].
  cbn [state set_alerts]. apply (finishTest_edits E now (set_timeLeft "00:00" y)).
Qed.

Lemma checkFocus_edits (E : Env) (away : bool) (now : Z) (y : Sys) :
  rtc (edit E) (state y) (state (checkFocus E away now y)).
Proof.
  unfold checkFocus. destruct (decide _); [| apply rtc_refl].
  destruct away; [| apply rtc_refl].
  cbn [testData upd_state set_state].
  destruct (testData y) as [td|]; [| apply rtc_once, edit_violation].
  match goal with |- context [if ?b then _ else _] => destruct b end.
  - cbn. eapply rtc_l; [apply (edit_violation E now) |].
    apply rtc_once. apply (edit_block E now).
  - cbn. apply rtc_once, edit_violation.
Qed.

Lemma nextQuestion_edits (E : Env) (now : Z) (s s' : State) :
  nextQuestion now s = Some s' -> rtc (edit E) s s'.
Proof.
  unfold nextQuestion. destruct (recordTime now s) as [s1|] eqn:Hr; simpl;
    [| discriminate].
  destruct (Z.ltb_spec (Z.of_nat (currentIndex s1))
              (Z.of_nat (length (st_questions s1)) - 1)); intros [= <-].
  - eapply rtc_l; [exact (edit_record E now _ _ Hr) |].
    apply rtc_once. apply edit_forward. lia.
  - apply rtc_once. exact (edit_record E now _ _ Hr).
Qed.

Lemma prevQuestion_edits (E : Env) (now : Z) (s s' : State) :
  prevQuestion now s = Some s' -> rtc (edit E) s s'.
Proof.
  unfold prevQuestion. destruct (recordTime now s) as [s1|] eqn:Hr; simpl;
    [| discriminate].
  destruct (_ <? _)%nat; intros [= <-].
  - eapply rtc_l; [exact (edit_record E now _ _ Hr) |].
    apply rtc_once. apply edit_back.
  - apply rtc_once. exact (edit_record E now _ _ Hr).
Qed.

(** Whatever an event other than a page load does to the state is a
    sequence of elementary changes. *)
Lemma handle_edits (E : Env) (p : Props) (y : Sys) (ev : Event) :
  fetched_doc ev = None ->
  (forall c r now, ev <> EvLoad c None r now) ->
  rtc (edit E) (state y) (state (handle E p y ev)).
Proof.
  intros Hdoc Hload. destruct ev; simpl in *.
  - destruct fetched; [discriminate | now destruct (Hload isChrome r now)].
  - destruct (decide _); [| apply rtc_refl]. unfold startTest.
    cbn [state setInterval set_timerInterval set_next_interval set_intervals].
    eapply rtc_l; [apply (edit_start E now) |].
    match goal with
    | |- rtc _ _ (state (updateTimer E now ?z)) => apply (updateTimer_edits E now z)
    end.
  - destruct (decide _); [| apply rtc_refl]. destruct (next_shown _); [| apply rtc_refl].
    destruct (nextQuestion now (state y)) as [s'|] eqn:Hn; [| apply rtc_refl].
    now apply (nextQuestion_edits E now).
  - destruct (decide _); [| apply rtc_refl]. destruct (_ <? _)%nat; [| apply rtc_refl].
    destruct (prevQuestion now (state y)) as [s'|] eqn:Hn; [| apply rtc_refl].
    now apply (prevQuestion_edits E now).
  - destruct (decide _); [| apply rtc_refl]. apply rtc_once, edit_answer.
  - destruct (decide _); [| apply rtc_refl].
    destruct (next_shown _); [apply rtc_refl | apply finishTest_edits].
  - destruct (listeners y); [apply checkFocus_edits | apply rtc_refl].
  - destruct (decide _); [apply updateTimer_edits | apply rtc_refl].
  - unfold finishTest_resume. destruct (grading_pending y); [apply rtc_refl |].
    apply (finishTest_grade_edits E (set_grading_pending n y)).
  - rewrite toggleView_state. apply rtc_refl.
Qed.

(** A page load starts from a loaded state and may go on with the
    changes of an expired timer. *)
Lemma load_edits (E : Env) (p : Props) (docs : TestData -> Prop) (y : Sys)
    (isChrome : bool) (fetched : option TestData) (r : Rand) (now : Z) :
  (forall d, fetched = Some d -> docs d) ->
  exists base, loaded p docs (storage y) base /\
    rtc (edit E) base (state (handle E p y (EvLoad isChrome fetched r now))).
Proof.
  intros Hdocs. simpl. unfold onMounted.
  destruct isChrome; [| exists state0; split; [constructor | apply rtc_refl]].
  destruct fetched as [td|]; [| exists state0; split; [constructor | apply rtc_refl]].
  specialize (Hdocs td eq_refl).
  cbn [storage set_testData set_status fresh_instance].
  destruct (storage y) as [saved|] eqn:Hst.
  - exists (reblock td saved). split; [now apply (loaded_saved p docs _ td saved) |].
    cbn [state set_state].
    destruct (isBlocked _); [apply rtc_refl |].
    destruct (_ <? _)%Z; [apply rtc_refl |].
    destruct (_ <? _)%Z; [| apply rtc_refl].
    cbn [state setInterval set_timerInterval set_next_interval set_intervals].
    match goal with
    | |- rtc _ _ (state (updateTimer E now ?z)) => apply (updateTimer_edits E now z)
    end.
  - exists (prepareQuestions p td r state0).
    split; [now apply loaded_fresh | apply rtc_refl].
Qed.

(** A property of states that holds of every loaded state and is kept by
    every elementary change holds of the state, and of the stored state,
    after every trace. *)
Lemma state_invariant (E : Env) (p : Props) (docs : TestData -> Prop)
    (I : State -> Prop) :
  (forall stored base,
      (forall s, stored = Some s -> I s) -> loaded p docs stored base -> I base) ->
  (forall s s', edit E s s' -> I s -> I s') ->
  forall evs, Forall (fetches docs) evs ->
    I (state (run E p evs sys0)) /\
    (forall s, storage (run E p evs sys0) = Some s -> I s).
Proof.
  intros Hbase Hedit.
  assert (Hedits : forall s s', rtc (edit E) s s' -> I s -> I s').
  { induction 1; [easy |]. intros Hx. apply IHrtc. eapply Hedit; eassumption. }
  assert (Hstep : forall y ev, fetches docs ev ->
             (I (state y) /\ forall s, storage y = Some s -> I s) ->
             I (state (step E p y ev)) /\
             forall s, storage (step E p y ev) = Some s -> I s).
  { intros y ev Hev [Hs Hst].
    assert (Hnew : I (state (handle E p y ev))).
    { destruct ev;
        try (eapply Hedits; [apply handle_edits; [reflexivity | discriminate] | exact Hs]).
      destruct (load_edits E p docs y isChrome fetched r now Hev) as (base & Hb & He).
      eapply Hedits; [exact He |]. eapply Hbase; [exact Hst | exact Hb]. }
    assert (Hgen : forall before,
               I (state (persist before (handle E p y ev))) /\
               forall s, storage (persist before (handle E p y ev)) = Some s -> I s).
    { intros before. rewrite persist_state. split; [exact Hnew |].
      intros s Hsome.
      destruct (persist_storage before (handle E p y ev)) as [H|H];
        rewrite H in Hsome.
      - rewrite handle_storage in Hsome. now apply Hst.
      - now injection Hsome as <-. }
    destruct ev; apply Hgen. }
  assert (Hrun : forall l y, Forall (fetches docs) l ->
             (I (state y) /\ forall s, storage y = Some s -> I s) ->
             I (state (run E p l y)) /\
             forall s, storage (run E p l y) = Some s -> I s).
  { induction l as [|ev l IH]; intros y Hall Hy; [exact Hy |].
    apply Forall_cons in Hall as [Hev Hall]. simpl. apply IH; [exact Hall |].
    now apply Hstep. }
  intros evs Hevs. apply Hrun; [exact Hevs |].
  split; [| discriminate].
  apply (Hbase None state0); [discriminate | constructor].
Qed.

(** ** Sessions stay well formed *)

Lemma init_questions_buckets qs draws s :
  (forall id v, questionTimings s !! id = Some v -> v = Num 0) ->
  let s' := snd (init_questions qs draws s) in
  (forall id v, questionTimings s' !! id = Some v -> v = Num 0) /\
  (forall id, is_Some (answers s !! id) -> is_Some (answers s' !! id)) /\
  (forall id, is_Some (questionTimings s !! id) -> is_Some (questionTimings s' !! id)) /\
  (forall q, q ∈ qs ->
     is_Some (answers s' !! q_id q) /\ is_Some (questionTimings s' !! q_id q)).
Proof.
  revert draws s. induction qs as [|q qs IH]; intros draws s Hzero.
  - simpl. split; [exact Hzero |]. split; [auto |]. split; [auto |].
    intros q' Hq'. now apply elem_of_nil in Hq'.
  - assert (Hzero' : forall id v,
               questionTimings (init_question q s) !! id = Some v -> v = Num 0).
    { intros id v. simpl. destruct (decide (q_id q = id)) as [<-|Hne].
      - rewrite lookup_insert_eq. now intros [= <-].
      - rewrite lookup_insert_ne by exact Hne. apply Hzero. }
    specialize (IH (tail draws) (init_question q s) Hzero').
    simpl. destruct (init_questions qs (tail draws) (init_question q s))
      as [rest' s'] eqn:Hrest.
    simpl in *. destruct IH as (Hz & Ha & Ht & Hq).
    assert (Hqa : is_Some (answers (init_question q s) !! q_id q))
      by (simpl; rewrite lookup_insert_eq; eauto).
    assert (Hqt : is_Some (questionTimings (init_question q s) !! q_id q))
      by (simpl; rewrite lookup_insert_eq; eauto).
    split; [exact Hz |]. split; [| split].
    + intros id Hid. apply Ha. simpl.
      destruct (decide (q_id q = id)) as [<-|Hne];
        [now rewrite lookup_insert_eq | now rewrite lookup_insert_ne].
    + intros id Hid. apply Ht. simpl.
      destruct (decide (q_id q = id)) as [<-|Hne];
        [now rewrite lookup_insert_eq | now rewrite lookup_insert_ne].
    + intros q' Hq'. apply elem_of_cons in Hq' as [->|Hq'].
      * split; [now apply Ha | now apply Ht].
      * now apply Hq.
Qed.

Lemma prepareQuestions_well_formed p td r :
  well_formed (prepareQuestions p td r state0).
Proof.
  unfold well_formed.
  destruct (prepareQuestions_snd p td r state0) as (Ha & Ht & Hi & _).
  rewrite Ha, Ht, Hi, prepareQuestions_questions.
  destruct (init_questions_buckets (select_questions p td r) (rnd_options r) state0)
    as (Hz & _ & _ & Hq).
  { intros id v. simpl. now rewrite lookup_empty. }
  pose proof (init_questions_fst (select_questions p td r) (rnd_options r) state0)
    as (Hids & _ & Hlen).
  pose proof (init_questions_reordered (select_questions p td r) (rnd_options r) state0)
    as Hre.
  destruct (init_questions_frame (select_questions p td r) (rnd_options r) state0)
    as (Hidx & _).
  split; [| split].
  - intros q' Hq'. apply list_elem_of_lookup in Hq' as [i Hi'].
    destruct (Forall2_lookup_r _ _ _ _ _ Hre Hi') as (q & Hlook & (Hid & _)).
    rewrite Hid. apply list_elem_of_lookup_2 in Hlook.
    destruct (Hq q Hlook) as [Hqa [v Hv]].
    split; [| exact Hqa]. exists 0%Z. now rewrite Hv, (Hz _ _ Hv).
  - intros id v Hv. now rewrite (Hz _ _ Hv).
  - rewrite Hidx, Hlen. simpl.
    destruct (select_questions p td r); [now right | left; simpl; lia].
Qed.

Lemma is_Some_same_answers (a b : gmap string Answer) k :
  same_answers a b -> is_Some (a !! k) -> is_Some (b !! k).
Proof.
  intros Hab [v Hv]. specialize (Hab k). rewrite Hv in Hab.
  destruct (b !! k); [eauto | discriminate].
Qed.

Lemma edit_well_formed (E : Env) (s s' : State) :
  edit E s s' -> well_formed s -> well_formed s'.
Proof.
  intros Hedit (Hq & Hv & Hi). destruct Hedit; unfold well_formed; simpl.
  - unfold recordTime in H.
    destruct (st_questions s !! currentIndex s) as [q|] eqn:Hcur; simpl in H;
      [| discriminate].
    injection H as <-. simpl.
    destruct (Hq q (list_elem_of_lookup_2 _ _ _ Hcur)) as [[t Ht] _].
    rewrite Ht. simpl. split; [| split; [| exact Hi]].
    + intros q' Hq'. destruct (Hq q' Hq') as [[t' Ht'] Ha]. split; [| exact Ha].
      destruct (decide (q_id q = q_id q')) as [Heq|Hne].
      * rewrite <- Heq, lookup_insert_eq. eauto.
      * rewrite lookup_insert_ne by exact Hne. eauto.
    + intros id v. destruct (decide (q_id q = id)) as [<-|Hne].
      * rewrite lookup_insert_eq. intros [= <-]. discriminate.
      * rewrite lookup_insert_ne by exact Hne. apply Hv.
  - split; [exact Hq |]. split; [exact Hv |]. left. lia.
  - split; [exact Hq |]. split; [exact Hv |].
    destruct Hi as [Hi|[Hnil Hz]]; [left; lia | right].
    split; [exact Hnil | now rewrite Hz].
  - unfold setAnswer.
    destruct (st_questions s !! currentIndex s) as [q|]; [| easy].
    destruct (answer_fits q a); [| easy]. simpl.
    split; [| split; [exact Hv | exact Hi]].
    intros q' Hq'. destruct (Hq q' Hq') as [Ht Ha]. split; [exact Ht |].
    destruct (decide (q_id q = q_id q')) as [Heq|Hne].
    + rewrite <- Heq, lookup_insert_eq. eauto.
    + now rewrite lookup_insert_ne.
  - easy.
  - easy.
  - easy.
  - easy.
  - destruct (grade_all_keeps E (st_questions s) (answers s)) as [Hsame Hg].
    destruct (grade_all E (st_questions s) (answers s)) as [[qs ans] total].
    simpl in *. split; [| split; [exact Hv |]].
    + intros q' Hq'. apply list_elem_of_lookup in Hq' as [i Hi'].
      destruct (Forall2_lookup_r _ _ _ _ _ Hg Hi') as (q & Hlook & [b ->]).
      simpl. destruct (Hq q (list_elem_of_lookup_2 _ _ _ Hlook)) as [Ht Ha].
      split; [exact Ht |]. eapply is_Some_same_answers; eassumption.
    + rewrite <- (Forall2_length _ _ _ Hg).
      destruct Hi as [Hi|[Hnil Hz]]; [now left |].
      right. split; [| exact Hz]. rewrite Hnil in Hg. now inversion Hg.
  - easy.
Qed.

Lemma reblock_fields td s :
  st_questions (reblock td s) = st_questions s /\
  answers (reblock td s) = answers s /\
  questionTimings (reblock td s) = questionTimings s /\
  currentIndex (reblock td s) = currentIndex s /\
  score (reblock td s) = score s /\ maxScore (reblock td s) = maxScore s /\
  startTime (reblock td s) = startTime s /\ endTime (reblock td s) = endTime s.
Proof. unfold reblock. branches; repeat split. Qed.

Lemma run_well_formed (E : Env) (p : Props) (evs : list Event) :
  well_formed (state (run E p evs sys0)) /\
  (forall s, storage (run E p evs sys0) = Some s -> well_formed s).
Proof.
  apply (state_invariant E p (fun _ => True) well_formed).
  - intros stored base Hstored Hb. destruct Hb as [|td r _|td saved _ ->].
    + unfold well_formed. simpl. split; [| split; [| now right]].
      * intros q Hq. now apply elem_of_nil in Hq.
      * intros id v. now rewrite lookup_empty.
    + apply prepareQuestions_well_formed.
    + specialize (Hstored saved eq_refl). unfold well_formed in *.
      destruct (reblock_fields td saved) as (-> & -> & -> & -> & _). exact Hstored.
  - apply edit_well_formed.
  - apply Forall_forall. intros ev _ d _. exact I.
Qed.

(** After every trace the session is well formed, in the component and in
    [localStorage]; so, as soon as there is a question, [recordTime] has
    a current question and a number to add to, whatever the time. *)
Theorem session_well_formed (E : Env) (p : Props) (evs : list Event) :
  let y := run E p evs sys0 in
  well_formed (state y) /\
  (forall s, storage y = Some s -> well_formed s) /\
  (st_questions (state y) <> [] ->
   forall now, exists q t,
     st_questions (state y) !! currentIndex (state y) = Some q /\
     questionTimings (state y) !! q_id q = Some (Num t) /\
     recordTime now (state y)
     = Some (set_questionTimings
               (<[q_id q := Num (t + (now - lastQuestionEntryTime (state y)))]>
                  (questionTimings (state y))) (state y))).
Proof.
  intros y. destruct (run_well_formed E p evs) as [Hs Hst].
  fold y in Hs, Hst. split; [exact Hs |]. split; [exact Hst |].
  intros Hne now. destruct Hs as (Hq & _ & Hi).
  destruct Hi as [Hi|[Hnil _]]; [| contradiction].
  destruct (lookup_lt_is_Some_2 _ _ Hi) as [q Hcur].
  destruct (Hq q (list_elem_of_lookup_2 _ _ _ Hcur)) as [[t Ht] _].
  exists q, t. split; [exact Hcur |]. split; [exact Ht |].
  rewrite (recordTime_Some now _ q Hcur), Ht. reflexivity.
Qed.

(** ** The score stays in range *)

Lemma sum_points_filter_range (P : Question -> Prop) `{forall q, Decision (P q)}
    (qs : list Question) :
  Forall (fun q => (0 <= q_points q)%Z) qs ->
  (0 <= sum_points (filter P qs) <= sum_points qs)%Z.
Proof.
  induction 1 as [|q qs Hq _ IH]; simpl; [lia |].
  rewrite filter_cons. destruct (decide (P q)); simpl; lia.
Qed.

Lemma edit_score_in_range (E : Env) (s s' : State) :
  edit E s s' -> score_in_range s -> score_in_range s'.
Proof.
  intros Hedit (Hmax & Hpts & Hscore). destruct Hedit; unfold score_in_range;
    simpl; try easy.
  - unfold recordTime in H. destruct (st_questions s !! currentIndex s); simpl in H;
      [| discriminate]. now injection H as <-.
  - unfold setAnswer. destruct (st_questions s !! currentIndex s) as [q|]; [| easy].
    now destruct (answer_fits q a).
  - pose proof (grade_all_total E (st_questions s) (answers s)) as Htot.
    destruct (grade_all_keeps E (st_questions s) (answers s)) as [_ Hg].
    destruct (grade_all E (st_questions s) (answers s)) as [[qs ans] total].
    simpl in *. destruct (graded_of_same _ _ Hg) as (_ & Hp & Hsum).
    assert (Hpts' : Forall (fun q => (0 <= q_points q)%Z) qs).
    { apply Forall_forall. intros q' Hq'.
      assert (Hin : q_points q' ∈ q_points <$> qs) by now apply list_elem_of_fmap_2.
      rewrite Hp in Hin. apply list_elem_of_fmap in Hin as (q & -> & Hq).
      rewrite Forall_forall in Hpts. now apply Hpts. }
    split; [congruence |]. split; [exact Hpts' |].
    rewrite Htot, Hmax, <- Hsum. now apply sum_points_filter_range.
Qed.

Lemma sum_points_not_negative (qs : list Question) :
  Forall (fun q => (0 <= q_points q)%Z) qs -> (0 <= sum_points qs)%Z.
Proof. induction 1; simpl; lia. Qed.

Lemma prepareQuestions_score_in_range p td r :
  points_not_negative td -> score_in_range (prepareQuestions p td r state0).
Proof.
  intros Hdoc. unfold score_in_range.
  destruct (prepareQuestions_snd p td r state0) as (_ & _ & _ & _ & _ & Hsc & _).
  destruct (init_questions_frame (select_questions p td r) (rnd_options r) state0)
    as (_ & _ & _ & _ & Hsc' & _).
  rewrite Hsc, Hsc', prepareQuestions_maxScore, prepareQuestions_questions.
  pose proof (init_questions_fst (select_questions p td r) (rnd_options r) state0)
    as (_ & Hsum & _).
  pose proof (init_questions_reordered (select_questions p td r) (rnd_options r) state0)
    as Hre.
  assert (Hsel : Forall (fun q => (0 <= q_points q)%Z) (select_questions p td r)).
  { apply Forall_forall. intros q Hq.
    pose proof (select_questions_submseteq p td r) as Hsub.
    apply submseteq_Permutation in Hsub as [k Hk].
    unfold points_not_negative in Hdoc. rewrite Hk, Forall_app in Hdoc.
    destruct Hdoc as [Hd _]. rewrite Forall_forall in Hd. now apply Hd. }
  rewrite Hsum. simpl. split; [lia |]. split.
  - apply Forall_forall. intros q' Hq'. apply list_elem_of_lookup in Hq' as [i Hi].
    destruct (Forall2_lookup_r _ _ _ _ _ Hre Hi) as (q & Hlook & (_ & _ & _ & Hp & _)).
    rewrite Hp. rewrite Forall_forall in Hsel. apply Hsel.
    eapply list_elem_of_lookup_2; eassumption.
  - pose proof (sum_points_not_negative _ Hsel). lia.
Qed.

(** When no document that is loaded has a question with negative points,
    after every trace [maxScore] is the sum of the points of the selected
    questions and the score lies between 0 and [maxScore]; the same holds
    of the stored session. *)
Theorem score_stays_in_range (E : Env) (p : Props) (evs : list Event) :
  Forall (fetches points_not_negative) evs ->
  let y := run E p evs sys0 in
  maxScore (state y) = sum_points (st_questions (state y)) /\
  (0 <= score (state y) <= maxScore (state y))%Z /\
  (forall s, storage y = Some s -> (0 <= score s <= maxScore s)%Z).
Proof.
  intros Hevs y.
  destruct (state_invariant E p points_not_negative score_in_range) with (evs := evs)
    as [(Hmax & _ & Hscore) Hst].
  - intros stored base Hstored Hb. destruct Hb as [|td r Hdoc|td saved _ ->].
    + unfold score_in_range. simpl. split; [reflexivity |]. split; [constructor | lia].
    + now apply prepareQuestions_score_in_range.
    + specialize (Hstored saved eq_refl). unfold score_in_range in *.
      destruct (reblock_fields td saved) as (-> & _ & _ & _ & -> & -> & _).
      exact Hstored.
  - apply edit_score_in_range.
  - exact Hevs.
  - fold y in Hmax, Hscore, Hst. split; [exact Hmax |]. split; [exact Hscore |].
    intros s Hs. now destruct (Hst s Hs) as (_ & _ & H).
Qed.

Lemma score_stays_in_range_witness :
  let y := run MiniSql.env abc_props
             [EvLoad true (Some (abc_quiz None)) no_draws 1000; EvStart 2000;
              EvAnswer (AList ["x"]); EvFinish 3000; EvNext 3500; EvNext 3600;
              EvFinish 4000; EvGraded] sys0 in
  maxScore (state y) = 6%Z /\ (0 <= score (state y) <= maxScore (state y))%Z.
Proof.
  intros y.
  destruct (score_stays_in_range MiniSql.env abc_props
              [EvLoad true (Some (abc_quiz None)) no_draws 1000; EvStart 2000;
               EvAnswer (AList ["x"]); EvFinish 3000; EvNext 3500; EvNext 3600;
               EvFinish 4000; EvGraded]) as (Hmax & Hscore & _).
  - repeat constructor; intros d [= <-]; repeat constructor; simpl; lia.
  - fold y in Hmax, Hscore. split; [| exact Hscore].
    rewrite Hmax. vm_compute. reflexivity.
Defined.

(** ** The closed views *)

Lemma handle_at_rest (E : Env) (p : Props) (y : Sys) (ev : Event) :
  is_load ev = false -> at_rest y ->
  handle E p y ev = y \/ handle E p y ev = toggleView y.
Proof.
  intros Hev (Hr & Hp & Hg). destruct ev; try discriminate Hev; simpl.
  - left. now rewrite decide_False.
  - left. now rewrite decide_False.
  - left. now rewrite decide_False.
  - left. now rewrite decide_False.
  - left. now rewrite decide_False.
  - left. destruct (listeners y); [| reflexivity].
    unfold checkFocus. now rewrite decide_False.
  - left. destruct (decide _); [| reflexivity].
    unfold updateTimer. now rewrite decide_False.
  - left. unfold finishTest_resume. now rewrite Hg.
  - now right.
Qed.

Lemma toggleView_at_rest (y : Sys) : at_rest y -> at_rest (toggleView y).
Proof.
  intros (Hr & Hp & Hg). unfold toggleView, at_rest.
  destruct (status y) eqn:Hs; cbn; rewrite ?Hs; try easy.
  now destruct (isBlocked (state y)).
Qed.

Lemma step_at_rest (E : Env) (p : Props) (y : Sys) (ev : Event) :
  is_load ev = false -> at_rest y ->
  at_rest (step E p y ev) /\
  state (step E p y ev) = state y /\ storage (step E p y ev) = storage y.
Proof.
  intros Hev Hy.
  assert (Hh : at_rest (handle E p y ev) /\ state (handle E p y ev) = state y).
  { destruct (handle_at_rest E p y ev Hev Hy) as [-> | ->]; [easy |].
    split; [now apply toggleView_at_rest | apply toggleView_state]. }
  destruct Hh as [Hrest Hstate].
  assert (Hstep : step E p y ev = handle E p y ev).
  { destruct ev; try discriminate Hev; unfold step, persist;
      now rewrite decide_True. }
  rewrite Hstep. split; [exact Hrest |]. split; [exact Hstate |].
  apply handle_storage.
Qed.

Lemma run_at_rest (E : Env) (p : Props) (y : Sys) (evs : list Event) :
  at_rest y ->
  Forall (fun ev => is_load ev = false) evs ->
  state (run E p evs y) = state y /\
  storage (run E p evs y) = storage y /\
  at_rest (run E p evs y).
Proof.
  intros Hy Hevs. revert y Hy.
  induction Hevs as [|ev evs Hev _ IH]; intros y Hy; [easy |].
  destruct (step_at_rest E p y ev Hev Hy) as (Hrest & Hstate & Hstore).
  simpl. destruct (IH _ Hrest) as (H1 & H2 & H3).
  rewrite H1, H2. easy.
Qed.

Lemma set_status_same (y : Sys) : set_status (status y) y = y.
Proof. now destruct y. Qed.

Lemma step_only_view (E : Env) (p : Props) (y : Sys) (ev : Event) :
  is_load ev = false -> at_rest y ->
  step E p y ev = set_status (status (step E p y ev)) y.
Proof.
  intros Hev Hy.
  assert (Hstep : step E p y ev = handle E p y ev).
  { destruct (handle_at_rest E p y ev Hev Hy) as [Hh | Hh];
      destruct ev; try discriminate Hev; unfold step, persist;
      rewrite decide_True; try reflexivity; rewrite Hh;
      try reflexivity; apply toggleView_state. }
  rewrite Hstep.
  destruct (handle_at_rest E p y ev Hev Hy) as [-> | ->].
  - symmetry. apply set_status_same.
  - unfold toggleView. destruct (status y) eqn:Hs; cbn;
      rewrite <- ?Hs; try (symmetry; apply set_status_same); reflexivity.
Qed.

(** When the page neither offers nor runs a test and no grading is
    suspended (the result, the report, the lockout screen, a failed
    load), nothing but a page load changes anything but the view:
    clicks, ticks and focus events reach no handler that writes, and the
    view buttons only switch between the closed views.  The session and
    what is stored stay as they are. *)
Theorem closed_view_frozen (E : Env) (p : Props) (y : Sys) (evs : list Event) :
  at_rest y ->
  Forall (fun ev => is_load ev = false) evs ->
  state (run E p evs y) = state y /\
  storage (run E p evs y) = storage y /\
  at_rest (run E p evs y) /\
  run E p evs y = set_status (status (run E p evs y)) y.
Proof.
  intros Hy Hevs.
  assert (Hview : run E p evs y = set_status (status (run E p evs y)) y /\
                  at_rest (run E p evs y)).
  { revert y Hy. induction Hevs as [|ev evs Hev _ IH]; intros y Hy.
    - split; [symmetry; apply set_status_same | exact Hy].
    - destruct (step_at_rest E p y ev Hev Hy) as (Hrest & _).
      destruct (IH _ Hrest) as [Hrun Hrest']. simpl.
      split; [| exact Hrest'].
      rewrite Hrun at 1. now rewrite (step_only_view E p y ev Hev Hy). }
  destruct Hview as [Hrun Hrest].
  split; [now rewrite Hrun |]. split; [now rewrite Hrun |].
  split; [exact Hrest | exact Hrun].
Qed.

Lemma closed_view_frozen_witness :
  let y := run MiniSql.env abc_props
             [EvLoad true (Some (abc_quiz None)) no_draws 1000; EvStart 2000;
              EvAnswer (AList ["x"]); EvNext 3000; EvNext 4000; EvFinish 5000;
              EvGraded] sys0 in
  let evs := [EvFocus true 6000; EvTick 0 7000000; EvAnswer (AList ["y"]);
              EvToggleView; EvFinish 8000; EvGraded; EvPrev 9000] in
  status y = COMPLETED_VIEW /\ score (state y) = 1%Z /\
  state (run MiniSql.env abc_props evs y) = state y /\
  storage (run MiniSql.env abc_props evs y) = storage y.
Proof.
  intros y evs.
  split; [vm_compute; reflexivity |]. split; [vm_compute; reflexivity |].
  destruct (closed_view_frozen MiniSql.env abc_props y evs) as (H1 & H2 & _).
  - vm_compute. repeat split; discriminate.
  - repeat constructor.
  - split; [exact H1 | exact H2].
Defined.

(** ** The view, the focus monitor and the timer *)

Lemma same_controls_refl y : same_controls y y.
Proof. now repeat split. Qed.

Lemma same_controls_ok y y' : same_controls y y' -> controls_ok y -> controls_ok y'.
Proof.
  intros (Hs & Ht & Hl & Hp & Hi & Hti & Hb & _). unfold controls_ok.
  now rewrite Hs, Ht, Hl, Hp, Hi, Hti, Hb.
Qed.

Lemma same_controls_live y y' : same_controls y y' -> timer_live y -> timer_live y'.
Proof.
  intros (Hs & _ & _ & Hp & Hi & _ & _ & Hn) Hy. unfold timer_live.
  rewrite Hs, Hp, Hi. intros H1 H2 H3. apply Hy; [exact H1 | exact H2 |].
  intros Hnil. apply H3. apply length_zero_iff_nil.
  now rewrite Hn, Hnil.
Qed.

Lemma cleared_nil y :
  (intervals y = [] \/ exists h, intervals y = [h] /\ timerInterval y = Some h) ->
  cleared y = [].
Proof.
  unfold cleared. intros [Hnil | (h & Hh & Hti)].
  - rewrite Hnil. now destruct (timerInterval y).
  - rewrite Hti, Hh. rewrite filter_cons, decide_False by (intros Hne; now apply Hne).
    reflexivity.
Qed.

Lemma recordTime_controls now s s' :
  recordTime now s = Some s' ->
  isBlocked s' = isBlocked s /\ st_questions s' = st_questions s /\
  currentIndex s' = currentIndex s.
Proof.
  unfold recordTime. destruct (st_questions s !! currentIndex s); simpl; [| discriminate].
  now intros [= <-].
Qed.

Lemma nextQuestion_controls now s s' :
  nextQuestion now s = Some s' ->
  isBlocked s' = isBlocked s /\ st_questions s' = st_questions s.
Proof.
  unfold nextQuestion. destruct (recordTime now s) as [s1|] eqn:Hr; simpl; [| discriminate].
  destruct (recordTime_controls _ _ _ Hr) as (Hb & Hq & _).
  destruct (_ <? _)%Z; intros [= <-]; simpl; now rewrite Hb, Hq.
Qed.

Lemma prevQuestion_controls now s s' :
  prevQuestion now s = Some s' ->
  isBlocked s' = isBlocked s /\ st_questions s' = st_questions s.
Proof.
  unfold prevQuestion. destruct (recordTime now s) as [s1|] eqn:Hr; simpl; [| discriminate].
  destruct (recordTime_controls _ _ _ Hr) as (Hb & Hq & _).
  destruct (_ <? _)%nat; intros [= <-]; simpl; now rewrite Hb, Hq.
Qed.

Lemma setAnswer_controls a s :
  isBlocked (setAnswer a s) = isBlocked s /\
  st_questions (setAnswer a s) = st_questions s.
Proof.
  unfold setAnswer. destruct (st_questions s !! currentIndex s) as [q|]; [| easy].
  now destruct (answer_fits q a).
Qed.

Lemma finishTest_grade_controls E y :
  testData (finishTest_grade E y) = testData y /\
  listeners (finishTest_grade E y) = listeners y /\
  grading_pending (finishTest_grade E y) = grading_pending y /\
  intervals (finishTest_grade E y) = intervals y /\
  timerInterval (finishTest_grade E y) = timerInterval y /\
  isBlocked (state (finishTest_grade E y)) = isBlocked (state y) /\
  length (st_questions (state (finishTest_grade E y)))
  = length (st_questions (state y)) /\
  status (finishTest_grade E y)
  = match testData y with Some _ => COMPLETED_VIEW | None => status y end.
Proof.
  unfold finishTest_grade.
  destruct (grade_all_keeps E (st_questions (state y)) (answers (state y))) as [_ Hg].
  destruct (grade_all E (st_questions (state y)) (answers (state y))) as [[qs ans] t].
  apply Forall2_length in Hg. cbn in Hg.
  cbn. destruct (testData y) eqn:Htd; cbn; rewrite ?Htd; now repeat split.
Qed.

Lemma finishTest_effect E now y : finish_effect now y (finishTest E now y).
Proof.
  unfold finishTest, finish_effect. rewrite clearInterval_state.
  assert (Hc : testData (clearInterval (timerInterval y) y) = testData y /\
               status (clearInterval (timerInterval y) y) = status y /\
               listeners (clearInterval (timerInterval y) y) = listeners y /\
               grading_pending (clearInterval (timerInterval y) y) = grading_pending y /\
               timerInterval (clearInterval (timerInterval y) y) = timerInterval y /\
               intervals (clearInterval (timerInterval y) y) = cleared y)
    by (unfold cleared; destruct (timerInterval y) eqn:Hti; cbn; rewrite ?Hti;
        now repeat split).
  destruct Hc as (Hc1 & Hc2 & Hc3 & Hc4 & Hc5 & Hc6).
  destruct (recordTime now (state y)) as [s1|] eqn:Hr.
  - destruct (recordTime_controls _ _ _ Hr) as (Hb & Hq & _).
    destruct (existsb _ _).
    + cbn. rewrite Hb, Hq, Hc4, Hc2. repeat split; try assumption.
      right. left. now repeat split.
    + match goal with
      | |- context [finishTest_grade E ?z] =>
          destruct (finishTest_grade_controls E z)
            as (H1 & H2 & H3 & H4 & H5 & H6 & H7 & H8)
      end.
      rewrite H1, H4, H5, H6, H7. cbn. rewrite Hb, Hq.
      repeat split; try assumption.
      right. right. rewrite H2, H3, H8. cbn. rewrite Hc1, Hc2, Hc4. now repeat split.
  - rewrite clearInterval_state. repeat split; try assumption.
    left. now repeat split.
Qed.

Lemma updateTimer_effect E now y :
  same_controls y (updateTimer E now y) \/
  (status y = IN_PROGRESS /\ finish_effect now y (updateTimer E now y)).
Proof.
  unfold updateTimer. destruct (decide _) as [Hs|]; [| left; apply same_controls_refl].
  destruct (testData y) eqn:Htd; [| left; apply same_controls_refl].
  destruct (_ <=? _)%Z; [| left; now repeat split].
  right. split; [exact Hs |].
  exact (finishTest_effect E now (set_timeLeft "00:00" y)).
Qed.

Lemma checkFocus_effect E away now y :
  let y' := checkFocus E away now y in
  same_controls y y' \/
  (status y = IN_PROGRESS /\ status y' = BLOCKED /\ listeners y' = false /\
   isBlocked (state y') = true /\ testData y' = testData y /\
   grading_pending y' = grading_pending y /\ intervals y' = intervals y /\
   timerInterval y' = timerInterval y).
Proof.
  unfold checkFocus. destruct (decide _) as [Hs|]; [| left; apply same_controls_refl].
  destruct away; [| left; apply same_controls_refl].
  cbn [testData upd_state set_state].
  destruct (testData y) as [d|] eqn:Hd; [| left; now repeat split].
  destruct (match truthy (max_cheat_attempts d) with Some _ => _ | None => _ end).
  - right. cbn. now repeat split.
  - left. now repeat split.
Qed.

Lemma finish_controls_ok now y y' :
  finish_effect now y y' -> status y = IN_PROGRESS ->
  controls_ok y -> controls_ok y'.
Proof.
  intros (Ht & Hti & Hb & _ & Hi & Hcases) Hs (K1 & K2 & K3 & K4 & K5).
  destruct (K1 (or_intror Hs)) as [td Htd].
  assert (Hnb : isBlocked (state y) = true -> False).
  { intros H. destruct (K4 H) as [[H'|H'] _]; rewrite Hs in H'; discriminate. }
  assert (Hst' : status y' = IN_PROGRESS \/ status y' = COMPLETED_VIEW).
  { destruct Hcases as [(_ & Hs' & _) | [(_ & Hs' & _) | (_ & _ & Hs')]];
      rewrite Hs', ?Htd; auto. }
  assert (Hl' : listeners y' = true ->
                listeners y = true /\ status y' = IN_PROGRESS /\
                grading_pending y' = grading_pending y).
  { destruct Hcases as [(_ & Hs' & Hl & Hp) | [(Hl & _) | (Hl & _)]];
      rewrite Hl; [| discriminate | discriminate].
    intros H. now rewrite Hs', Hp. }
  unfold controls_ok. rewrite Ht, Hti, Hb, Hi, (cleared_nil y K5), Htd.
  split; [intros _; eauto |].
  split; [intros H; destruct Hst' as [H'|H']; rewrite H' in H; discriminate |].
  split; [| split; [intros H; destruct (Hnb H) | now left]].
  intros H. destruct (Hl' H) as (H1 & H2 & H3).
  split; [exact H2 |]. rewrite H3. now apply K3.
Qed.

Lemma recordTime_well_formed now s :
  well_formed s -> st_questions s <> [] -> recordTime now s <> None.
Proof.
  intros (_ & _ & Hi) Hne. destruct Hi as [Hi | [Hnil _]]; [| contradiction].
  destruct (lookup_lt_is_Some_2 _ _ Hi) as [q Hq].
  now rewrite (recordTime_Some now s q Hq).
Qed.

Lemma finish_timer_live now y y' :
  finish_effect now y y' -> status y = IN_PROGRESS -> is_Some (testData y) ->
  well_formed (state y) -> timer_live y'.
Proof.
  intros (_ & _ & _ & Hn & _ & Hcases) Hs [td Htd] Hw H1 H2 H3.
  destruct Hcases as [(Hr & _) | [(_ & _ & Hp) | (_ & _ & Hs')]].
  - exfalso. apply (recordTime_well_formed now (state y) Hw); [| exact Hr].
    intros Hnil. apply H3. apply length_zero_iff_nil. now rewrite Hn, Hnil.
  - rewrite Hp in H2. discriminate.
  - rewrite Hs', Htd in H1. discriminate.
Qed.

Lemma updateTimer_controls_ok E now y :
  controls_ok y -> controls_ok (updateTimer E now y).
Proof.
  intros Hy. destruct (updateTimer_effect E now y) as [Hsame | [Hs Hfin]].
  - now apply (same_controls_ok y).
  - now apply (finish_controls_ok now y).
Qed.

Lemma updateTimer_timer_live E now y :
  controls_ok y -> well_formed (state y) -> timer_live y ->
  timer_live (updateTimer E now y).
Proof.
  intros Hy Hw Hl. destruct (updateTimer_effect E now y) as [Hsame | [Hs Hfin]].
  - now apply (same_controls_live y).
  - apply (finish_timer_live now y); try assumption.
    destruct Hy as (K1 & _). apply K1. now right.
Qed.

(** A timer set after [updateTimer], in a session that is in progress and
    has no interval: [startTest] and the resumption in [onMounted]. *)
Lemma setInterval_updateTimer E now y :
  status y = IN_PROGRESS -> intervals y = [] -> controls_ok y ->
  controls_ok (setInterval (updateTimer E now y)) /\
  timer_live (setInterval (updateTimer E now y)).
Proof.
  intros Hs Hi Hy. split; [| intros _ _ _; discriminate].
  assert (Hu : controls_ok (updateTimer E now y)) by now apply updateTimer_controls_ok.
  assert (Hst : status (updateTimer E now y) <> READY).
  { destruct (updateTimer_mode E now y) as [_ [H|H]]; rewrite H, ?Hs; discriminate. }
  destruct Hu as (K1 & K2 & K3 & K4 & K5).
  unfold controls_ok. cbn.
  split; [exact K1 |]. split; [intros H; contradiction |].
  split; [exact K3 |]. split; [exact K4 |].
  right. exists (next_interval (updateTimer E now y)). split; [| reflexivity].
  f_equal. destruct (updateTimer_effect E now y) as [Hsame | [_ Hfin]].
  - destruct Hsame as (_ & _ & _ & _ & Hi' & _). now rewrite Hi'.
  - destruct Hfin as (_ & _ & _ & _ & Hi' & _). rewrite Hi'.
    apply cleared_nil. left. exact Hi.
Qed.

Lemma controls_closed (z : Sys) :
  (status z = INIT /\ isBlocked (state z) = false) \/ status z = COMPLETED ->
  listeners z = false -> grading_pending z = 0%nat -> intervals z = [] ->
  controls_ok z /\ timer_live z.
Proof.
  intros Hs Hl Hp Hi.
  assert (Hn : status z <> READY /\ status z <> IN_PROGRESS)
    by (destruct Hs as [[Hs _]|Hs]; rewrite Hs; split; discriminate).
  destruct Hn as [Hr Hip].
  split; [| intros H; contradiction].
  unfold controls_ok. rewrite Hl, Hp, Hi.
  split; [intros [H|H]; contradiction |]. split; [intros H; contradiction |].
  split; [discriminate |]. split; [| now left].
  intros H. split; [| reflexivity].
  destruct Hs as [[_ Hb]|Hs]; [rewrite Hb in H; discriminate | now right].
Qed.

Lemma controls_open (z : Sys) :
  status z = READY \/ status z = IN_PROGRESS ->
  is_Some (testData z) -> isBlocked (state z) = false ->
  listeners z = false \/ status z = IN_PROGRESS ->
  grading_pending z = 0%nat -> intervals z = [] ->
  controls_ok z.
Proof.
  intros Hs Ht Hb Hl Hp Hi. unfold controls_ok. rewrite Hp, Hi, Hb.
  split; [intros _; exact Ht |].
  split; [intros H; destruct Hl as [Hl|Hl];
          [now rewrite Hl | rewrite H in Hl; discriminate] |].
  split; [| split; [discriminate | now left]].
  intros H. split; [| reflexivity].
  destruct Hl as [Hl|Hl]; [rewrite Hl in H; discriminate | exact Hl].
Qed.

Lemma onMounted_controls E p isChrome fetched r now y :
  let y' := onMounted E p isChrome fetched r now (fresh_instance y) in
  controls_ok y' /\ timer_live y'.
Proof.
  unfold onMounted. destruct isChrome; [| apply controls_closed; auto].
  destruct fetched as [td|]; [| apply controls_closed; auto].
  cbn [storage set_testData set_status fresh_instance].
  destruct (storage y) as [saved|].
  - destruct (isBlocked _) eqn:Hb; [apply controls_closed; auto |].
    destruct (_ <? _)%Z; [apply controls_closed; auto |].
    destruct (_ <? _)%Z.
    + apply setInterval_updateTimer; [reflexivity | reflexivity |].
      apply controls_open; cbn; eauto.
    + split; [| intros H; discriminate].
      apply controls_open; cbn; eauto.
  - split; [| intros H; discriminate].
    apply controls_open; cbn; eauto.
    destruct (prepareQuestions_lock p td r state0) as (Hb & _). now rewrite Hb.
Qed.

Lemma startTest_controls E now y :
  status y = READY -> controls_ok y ->
  controls_ok (startTest E now y) /\ timer_live (startTest E now y).
Proof.
  intros Hs (K1 & K2 & K3 & K4 & K5). unfold startTest.
  destruct (K2 Hs) as (Hp & Hl & Hi).
  apply setInterval_updateTimer; [reflexivity | exact Hi |].
  apply controls_open; cbn; auto.
  destruct (isBlocked (state y)) eqn:Hb; [| reflexivity].
  destruct (K4 eq_refl) as [[H'|H'] _]; rewrite Hs in H'; discriminate.
Qed.

Lemma finishTest_resume_controls E y :
  controls_ok y -> timer_live y ->
  controls_ok (finishTest_resume E y) /\ timer_live (finishTest_resume E y).
Proof.
  intros Hy Hl. unfold finishTest_resume.
  destruct (grading_pending y) as [|n] eqn:Hp; [easy |].
  destruct (finishTest_grade_controls E (set_grading_pending n y))
    as (H1 & H2 & H3 & H4 & H5 & H6 & H7 & H8).
  cbn in H1, H2, H3, H4, H5, H6, H7, H8.
  destruct Hy as (K1 & K2 & K3 & K4 & K5). rewrite Hp in K2, K3, K4.
  assert (Hst : status (finishTest_grade E (set_grading_pending n y)) <> READY /\
                status (finishTest_grade E (set_grading_pending n y)) <> IN_PROGRESS).
  { rewrite H8. destruct (testData y) eqn:Htd; [split; discriminate |].
    split; intros H; [destruct (K1 (or_introl H)) | destruct (K1 (or_intror H))];
      discriminate. }
  destruct Hst as [Hr Hip].
  split; [| intros H; contradiction].
  unfold controls_ok. rewrite H1, H2, H4, H5, H6.
  split; [intros [H|H]; contradiction |]. split; [intros H; contradiction |].
  split; [intros H; destruct (K3 H) as [_ H']; discriminate |].
  split; [intros H; destruct (K4 H) as [_ H']; discriminate |].
  exact K5.
Qed.

Lemma toggleView_controls y :
  controls_ok y -> timer_live y ->
  controls_ok (toggleView y) /\ timer_live (toggleView y).
Proof.
  intros Hy Hl. pose proof Hy as (K1 & K2 & K3 & K4 & K5). unfold toggleView.
  assert (Hclosed : forall st : Status,
             st <> READY -> st <> IN_PROGRESS -> status y <> IN_PROGRESS ->
             (isBlocked (state y) = true -> st = BLOCKED \/ st = COMPLETED) ->
             controls_ok (set_status st y) /\ timer_live (set_status st y)).
  { intros st Hr Hip Hnot Hb. split; [| intros H; contradiction].
    unfold controls_ok. cbn.
    split; [intros [H|H]; contradiction |]. split; [intros H; contradiction |].
    split; [intros H; destruct (K3 H); contradiction |].
    split; [| exact K5].
    intros H. destruct (K4 H) as [_ Hp]. split; [now apply Hb | exact Hp]. }
  destruct (status y) eqn:Hs; try (split; [exact Hy | exact Hl]).
  - apply Hclosed; try (destruct (isBlocked (state y)); discriminate).
    intros H. rewrite H. now left.
  - apply Hclosed; try discriminate. intros _. now right.
  - apply Hclosed; try discriminate. intros _. now right.
Qed.

Lemma handle_controls E p y ev :
  well_formed (state y) -> controls_ok y -> timer_live y ->
  controls_ok (handle E p y ev) /\ timer_live (handle E p y ev).
Proof.
  intros Hw Hy Hl.
  assert (Hsame : forall y', same_controls y y' -> controls_ok y' /\ timer_live y').
  { intros y' H. split; [now apply (same_controls_ok y) | now apply (same_controls_live y)]. }
  destruct ev; simpl.
  - apply onMounted_controls.
  - destruct (decide _) as [Hs|]; [| easy]. now apply startTest_controls.
  - destruct (decide _); [| easy]. destruct (next_shown _); [| easy].
    destruct (nextQuestion now (state y)) as [s'|] eqn:Hn; [| easy].
    destruct (nextQuestion_controls _ _ _ Hn) as [Hb Hq].
    apply Hsame. cbn. unfold same_controls. cbn. now rewrite Hb, Hq.
  - destruct (decide _); [| easy]. destruct (_ <? _)%nat; [| easy].
    destruct (prevQuestion now (state y)) as [s'|] eqn:Hn; [| easy].
    destruct (prevQuestion_controls _ _ _ Hn) as [Hb Hq].
    apply Hsame. cbn. unfold same_controls. cbn. now rewrite Hb, Hq.
  - destruct (decide _); [| easy].
    destruct (setAnswer_controls a (state y)) as [Hb Hq].
    apply Hsame. unfold same_controls. cbn. now rewrite Hb, Hq.
  - destruct (decide _) as [Hs|]; [| easy]. destruct (next_shown _); [easy |].
    split.
    + apply (finish_controls_ok now y); [apply finishTest_effect | exact Hs | exact Hy].
    + apply (finish_timer_live now y); [apply finishTest_effect | exact Hs | | exact Hw].
      destruct Hy as (K1 & _). apply K1. now right.
  - destruct (listeners y) eqn:Hlis; [| easy].
    destruct (checkFocus_effect E away now y)
      as [H | (Hs & Hs' & Hl' & Hb' & Ht' & Hp' & Hi' & Hti')]; [now apply Hsame |].
    destruct Hy as (K1 & K2 & K3 & K4 & K5). destruct (K3 Hlis) as [_ Hp].
    split; [| intros H; rewrite Hs' in H; discriminate].
    unfold controls_ok. rewrite Hs', Hl', Hb', Ht', Hp', Hi', Hti', Hp.
    repeat split; try discriminate; try (intros [H|H]; discriminate); auto.
  - destruct (decide _); [| easy].
    split; [now apply updateTimer_controls_ok | now apply updateTimer_timer_live].
  - now apply finishTest_resume_controls.
  - now apply toggleView_controls.
Qed.

Lemma persist_controls before after :
  same_controls after (persist before after).
Proof. unfold persist. destruct (decide _); now repeat split. Qed.

Lemma step_controls E p y ev :
  well_formed (state y) -> controls_ok y -> timer_live y ->
  controls_ok (step E p y ev) /\ timer_live (step E p y ev).
Proof.
  intros Hw Hy Hl. destruct (handle_controls E p y ev Hw Hy Hl) as [H1 H2].
  assert (Hgen : forall before,
             controls_ok (persist before (handle E p y ev)) /\
             timer_live (persist before (handle E p y ev))).
  { intros before. split.
    - apply (same_controls_ok (handle E p y ev)); [apply persist_controls | exact H1].
    - apply (same_controls_live (handle E p y ev)); [apply persist_controls | exact H2]. }
  destruct ev; apply Hgen.
Qed.

Lemma run_snoc E p evs ev y : run E p (evs ++ [ev]) y = step E p (run E p evs y) ev.
Proof. unfold run. now rewrite fold_left_app. Qed.

Lemma run_app E p evs evs' y : run E p (evs ++ evs') y = run E p evs' (run E p evs y).
Proof. unfold run. now rewrite fold_left_app. Qed.

Lemma run_controls E p evs :
  controls_ok (run E p evs sys0) /\ timer_live (run E p evs sys0).
Proof.
  induction evs as [|ev evs IH] using rev_ind.
  - unfold controls_ok, timer_live. cbn.
    repeat split; try discriminate; try (intros [H|H]; discriminate); auto.
  - rewrite run_snoc. destruct IH as [H1 H2].
    apply step_controls; [apply run_well_formed | exact H1 | exact H2].
Qed.


(** The view, the document, the focus monitor and the lockout flag go
    together after every trace: a test that is offered or running has its
    document and is not locked; [checkFocus] is registered only while
    the test is in progress and no call of [finishTest] is suspended; a
    locked session shows the lockout screen or the result, with nothing
    suspended and nothing registered. *)
Theorem focus_monitor_only_in_progress (E : Env) (p : Props) (evs : list Event) :
  let y := run E p evs sys0 in
  (status y = READY \/ status y = IN_PROGRESS ->
   is_Some (testData y) /\ isBlocked (state y) = false) /\
  (status y = READY -> listeners y = false /\ grading_pending y = 0%nat) /\
  (listeners y = true -> status y = IN_PROGRESS /\ grading_pending y = 0%nat) /\
  (isBlocked (state y) = true ->
   (status y = BLOCKED \/ status y = COMPLETED) /\
   listeners y = false /\ grading_pending y = 0%nat).
Proof.
  intros y. destruct (run_controls E p evs) as [(K1 & K2 & K3 & K4 & _) _].
  fold y in K1, K2, K3, K4.
  assert (Hb : isBlocked (state y) = true ->
               status y <> READY /\ status y <> IN_PROGRESS).
  { intros H. destruct (K4 H) as [[H'|H'] _]; rewrite H'; split; discriminate. }
  split; [| split; [| split]].
  - intros Hs. split; [now apply K1 |].
    destruct (isBlocked (state y)); [| reflexivity].
    destruct (Hb eq_refl) as [Hr Hip]. now destruct Hs.
  - intros Hs. now destruct (K2 Hs) as (? & ? & _).
  - exact K3.
  - intros H. destruct (K4 H) as [Hs Hp]. split; [exact Hs |]. split; [| exact Hp].
    destruct (listeners y); [| reflexivity].
    destruct (K3 eq_refl) as [Hip _]. now destruct (Hb H).
Qed.

(** A locked session stays as it is until the page is loaded again:
    whatever is clicked, whenever the page loses focus and whatever
    timer fires, the answers, the timings, the counter and the stored
    copy are the same, nothing is graded, and the view is the lockout
    screen or the result. *)
Theorem locked_session_is_frozen
    (E : Env) (p : Props) (evs evs' : list Event) :
  let y := run E p evs sys0 in
  isBlocked (state y) = true ->
  Forall (fun ev => is_load ev = false) evs' ->
  state (run E p evs' y) = state y /\
  storage (run E p evs' y) = storage y /\
  (status (run E p evs' y) = BLOCKED \/ status (run E p evs' y) = COMPLETED).
Proof.
  intros y Hb Hevs.
  destruct (run_controls E p evs) as [(_ & _ & _ & K4 & _) _]. fold y in K4.
  destruct (K4 Hb) as [Hs Hp].
  assert (Hrest : at_rest y)
    by (unfold at_rest; destruct Hs as [Hs|Hs]; rewrite Hs;
        (split; [discriminate | split; [discriminate | exact Hp]])).
  destruct (run_at_rest E p y evs' Hrest Hevs) as (H1 & H2 & _).
  split; [exact H1 |]. split; [exact H2 |].
  destruct (run_controls E p (evs ++ evs')) as [(_ & _ & _ & K4' & _) _].
  rewrite run_app in K4'. fold y in K4'. apply K4'. now rewrite H1.
Qed.

Lemma locked_session_is_frozen_witness :
  let y := run MiniSql.env abc_props
             [EvLoad true (Some (abc_quiz (Some 2%Z))) no_draws 1000; EvStart 2000;
              EvAnswer (AList ["x"]); EvFocus true 3000; EvFocus true 4000] sys0 in
  let evs' := [EvFocus true 5000; EvAnswer (AList ["y"]); EvNext 6000;
               EvFinish 7000; EvGraded; EvTick 0 8000000; EvToggleView] in
  status y = BLOCKED /\ cheatAttempts (state y) = 2%Z /\
  state (run MiniSql.env abc_props evs' y) = state y.
Proof.
  intros y evs'.
  split; [vm_compute; reflexivity |]. split; [vm_compute; reflexivity |].
  destruct (locked_session_is_frozen MiniSql.env abc_props
              [EvLoad true (Some (abc_quiz (Some 2%Z))) no_draws 1000; EvStart 2000;
               EvAnswer (AList ["x"]); EvFocus true 3000; EvFocus true 4000] evs')
    as (H1 & _).
  - vm_compute. reflexivity.
  - repeat constructor.
  - exact H1.
Defined.

(** ** What is stored and what a reload restores *)

Lemma step_mirror E p y ev :
  state y = state0 \/ storage y = Some (state y) ->
  state (step E p y ev) = state0 \/
  storage (step E p y ev) = Some (state (step E p y ev)).
Proof.
  intros Hy.
  assert (Hgen : forall before,
             (state (handle E p y ev) = state before ->
              state (handle E p y ev) = state0 \/
              storage y = Some (state (handle E p y ev))) ->
             state (persist before (handle E p y ev)) = state0 \/
             storage (persist before (handle E p y ev))
             = Some (state (persist before (handle E p y ev)))).
  { intros before H. unfold persist. destruct (decide _) as [Heq|Hne].
    - rewrite handle_storage. now apply H.
    - right. reflexivity. }
  destruct ev; apply Hgen; try (intros ->; exact Hy).
  intros H. now left.
Qed.

Lemma run_mirror E p evs :
  state (run E p evs sys0) = state0 \/
  storage (run E p evs sys0) = Some (state (run E p evs sys0)).
Proof.
  induction evs as [|ev evs IH] using rev_ind; [now left |].
  rewrite run_snoc. now apply step_mirror.
Qed.

Lemma updateTimer_running E now y td :
  testData y = Some td -> (0 < remaining_ms td now (state y))%Z ->
  state (updateTimer E now y) = state y /\ status (updateTimer E now y) = status y.
Proof.
  intros Htd Hrem. unfold updateTimer. destruct (decide _); [| easy].
  rewrite Htd. destruct (Z.leb_spec (remaining_ms td now (state y)) 0); [lia | easy].
Qed.

(** A page load that fetches the document restores the session that was
    on the screen: the state is the one before the reload, up to the
    lockout test at the limit of the fetched document; questions,
    answers, timings, index and violations are not drawn or reset again;
    and the view is the one the restored session calls for.  The
    exception is a running session whose time is up at the reload, which
    is finished at once. *)
Theorem reload_restores_session
    (E : Env) (p : Props) (evs : list Event) (td : TestData) (r : Rand) (now : Z) :
  let y := run E p evs sys0 in
  let y' := step E p y (EvLoad true (Some td) r now) in
  state y <> state0 ->
  (restored_status (reblock td (state y)) = IN_PROGRESS ->
   (0 < remaining_ms td now (state y))%Z) ->
  state y' = reblock td (state y) /\
  storage y' = Some (state y') /\
  status y' = restored_status (reblock td (state y)) /\
  st_questions (state y') = st_questions (state y) /\
  answers (state y') = answers (state y) /\
  questionTimings (state y') = questionTimings (state y) /\
  currentIndex (state y') = currentIndex (state y) /\
  cheat_fields (state y') = cheat_fields (state y).
Proof.
  intros y y' Hne Hrun.
  destruct (run_mirror E p evs) as [H0 | Hst]; fold y in H0 || fold y in Hst;
    [contradiction |].
  assert (Hh : state (handle E p y (EvLoad true (Some td) r now))
               = reblock td (state y) /\
               status (handle E p y (EvLoad true (Some td) r now))
               = restored_status (reblock td (state y))).
  { simpl. unfold onMounted.
    cbn [storage set_testData set_status fresh_instance]. rewrite Hst.
    unfold restored_status in *. cbn [state set_state].
    destruct (isBlocked (reblock td (state y))); [easy |].
    destruct (0 <? endTime (reblock td (state y)))%Z; [easy |].
    destruct (0 <? startTime (reblock td (state y)))%Z; [| easy].
    cbn [state status setInterval set_timerInterval set_next_interval set_intervals].
    match goal with
    | |- context [updateTimer E now ?z] =>
        destruct (updateTimer_running E now z td eq_refl) as [H1 H2]
    end.
    - cbn. destruct (reblock_fields td (state y)) as (_ & _ & _ & _ & _ & _ & Hs & _).
      unfold remaining_ms in *. rewrite Hs. now apply Hrun.
    - now rewrite H1, H2. }
  destruct Hh as [Hstate Hstatus].
  assert (Hre : reblock td (state y) <> state0).
  { intros H. apply Hne. unfold reblock in H.
    destruct (truthy _); [| exact H].
    destruct (_ <=? _)%Z; [| exact H].
    apply (f_equal isBlocked) in H. discriminate H. }
  unfold y', step, persist. rewrite decide_False by (rewrite Hstate; exact Hre).
  cbn [state storage status set_storage]. rewrite Hstate, Hstatus.
  destruct (reblock_fields td (state y)) as (-> & -> & -> & -> & _).
  rewrite reblock_cheat. now repeat split.
Qed.

Lemma reload_restores_session_witness :
  let evs := [EvLoad true (Some (abc_quiz (Some 2%Z))) no_draws 1000; EvStart 2000;
              EvAnswer (AList ["y"; "x"]); EvNext 3000; EvFocus true 4000] in
  let y := run MiniSql.env abc_props evs sys0 in
  let y' := step MiniSql.env abc_props y
              (EvLoad true (Some (abc_quiz (Some 2%Z))) no_draws 302000) in
  state y' = state y /\ status y' = IN_PROGRESS /\
  answers (state y') !! "a" = Some (AList ["y"; "x"]) /\
  currentIndex (state y') = 1%nat.
Proof.
  intros evs y y'.
  destruct (reload_restores_session MiniSql.env abc_props evs
              (abc_quiz (Some 2%Z)) no_draws 302000) as (H1 & _ & H3 & _).
  - vm_compute. discriminate.
  - intros _. vm_compute. reflexivity.
  - fold y in H1, H3. fold y' in H1, H3.
    split; [rewrite H1; vm_compute; reflexivity |].
    split; [rewrite H3; vm_compute; reflexivity |].
    rewrite H1. split; vm_compute; reflexivity.
Defined.

(** ** The limit of violations *)

Lemma handle_flag E p y ev :
  is_load ev = false -> (forall now, ev <> EvFocus true now) ->
  cheat_fields (state (handle E p y ev)) = cheat_fields (state y) /\
  isBlocked (state (handle E p y ev)) = isBlocked (state y).
Proof.
  intros Hload Hfocus.
  assert (Hut : forall now z,
             isBlocked (state (updateTimer E now z)) = isBlocked (state z)).
  { intros now z. destruct (updateTimer_effect E now z) as [H | [_ H]].
    - now destruct H as (_ & _ & _ & _ & _ & _ & H & _).
    - now destruct H as (_ & _ & H & _). }
  split.
  - rewrite <- (persist_state y (handle E p y ev)).
    assert (Hstep : persist y (handle E p y ev) = step E p y ev)
      by (destruct ev; try reflexivity; discriminate Hload).
    rewrite Hstep, (step_cheat_fields E p).
    destruct ev; try reflexivity; try discriminate Hload.
    simpl. destruct away; [| reflexivity]. now destruct (Hfocus now).
  - destruct ev; try discriminate Hload; simpl.
    + destruct (decide _); [| reflexivity]. unfold startTest.
      cbn [state setInterval set_timerInterval set_next_interval set_intervals].
      now rewrite Hut.
    + destruct (decide _); [| reflexivity]. destruct (next_shown _); [| reflexivity].
      destruct (nextQuestion now (state y)) as [s'|] eqn:Hn; [| reflexivity].
      now destruct (nextQuestion_controls _ _ _ Hn).
    + destruct (decide _); [| reflexivity]. destruct (_ <? _)%nat; [| reflexivity].
      destruct (prevQuestion now (state y)) as [s'|] eqn:Hn; [| reflexivity].
      now destruct (prevQuestion_controls _ _ _ Hn).
    + destruct (decide _); [| reflexivity].
      now destruct (setAnswer_controls a (state y)).
    + destruct (decide _); [| reflexivity]. destruct (next_shown _); [reflexivity |].
      now destruct (finishTest_effect E now y) as (_ & _ & H & _).
    + destruct (listeners y); [| reflexivity].
      destruct away; [now destruct (Hfocus now) |].
      unfold checkFocus. now destruct (decide _).
    + destruct (decide _); [| reflexivity]. apply Hut.
    + unfold finishTest_resume. destruct (grading_pending y); [reflexivity |].
      now destruct (finishTest_grade_controls E (set_grading_pending n y))
        as (_ & _ & _ & _ & _ & H & _).
    + now rewrite toggleView_state.
Qed.

Lemma reblock_within_limit td m s :
  truthy (max_cheat_attempts td) = Some m ->
  within_limit m s -> within_limit m (reblock td s).
Proof.
  intros Hm [Hle Hiff]. unfold reblock. rewrite Hm.
  destruct (Z.leb_spec m (cheatAttempts s)); [| easy].
  split; [exact Hle |]. cbn. split; [intros _; lia | reflexivity].
Qed.

Lemma step_within_limit E p td m y ev :
  truthy (max_cheat_attempts td) = Some m -> (0 < m)%Z ->
  fetches (fun d => d = td) ev ->
  controls_ok y -> has_document td y ->
  within_limit m (state y) ->
  (forall s, storage y = Some s -> within_limit m s) ->
  within_limit m (state (step E p y ev)).
Proof.
  intros Hm Hpos Hdoc (_ & _ & K3 & K4 & _) [_ Hmode] Hy Hst.
  assert (Hzero : within_limit m state0).
  { split; simpl; [lia |]. split; [discriminate | lia]. }
  assert (Hstate : state (step E p y ev) = state (handle E p y ev))
    by (destruct ev; apply persist_state).
  rewrite Hstate.
  assert (Hkeep : forall s s', cheat_fields s' = cheat_fields s ->
                    isBlocked s' = isBlocked s ->
                    within_limit m s -> within_limit m s').
  { intros s s' Hc Hb. unfold within_limit. injection Hc as Hc _.
    now rewrite Hc, Hb. }
  destruct (is_load ev) eqn:Hload.
  - destruct ev; try discriminate Hload. simpl.
    unfold onMounted. destruct isChrome; [| exact Hzero].
    destruct fetched as [d|]; [| exact Hzero].
    rewrite (Hdoc d eq_refl).
    cbn [storage set_testData set_status fresh_instance].
    destruct (storage y) as [saved|].
    + pose proof (reblock_within_limit td m saved Hm (Hst saved eq_refl)) as Hre.
      cbn [state set_state].
      destruct (isBlocked (reblock td saved)); [exact Hre |].
      destruct (0 <? endTime (reblock td saved))%Z; [exact Hre |].
      destruct (0 <? startTime (reblock td saved))%Z; [| exact Hre].
      cbn [state setInterval set_timerInterval set_next_interval set_intervals].
      match goal with
      | |- within_limit m (state (updateTimer E now ?z)) =>
          apply (Hkeep (state z)); [apply updateTimer_cheat | | exact Hre]
      end.
      destruct (updateTimer_effect E now
                  (set_status IN_PROGRESS
                     (set_state (reblock td saved)
                        (set_testData (Some td)
                           (set_status LOADING (fresh_instance y))))))
        as [H | [_ H]].
      * now destruct H as (_ & _ & _ & _ & _ & _ & H & _).
      * now destruct H as (_ & _ & H & _).
    + cbn. apply (Hkeep state0); [apply prepareQuestions_cheat | | exact Hzero].
      now destruct (prepareQuestions_lock p td r state0).
  - assert (Hcase : (exists now, ev = EvFocus true now) \/
                    (forall now, ev <> EvFocus true now)).
    { destruct ev; try (right; discriminate).
      destruct away; [left; now exists now | right; discriminate]. }
    destruct Hcase as [[now ->] | Hnf].
    + simpl. destruct (listeners y) eqn:Hl; [| exact Hy].
      destruct (K3 eq_refl) as [Hs _].
      assert (Hnb : isBlocked (state y) = false).
      { destruct (isBlocked (state y)); [| reflexivity].
        destruct (K4 eq_refl) as [[H|H] _]; rewrite Hs in H; discriminate. }
      destruct Hy as [Hle Hiff].
      assert (Hlt : (cheatAttempts (state y) < m)%Z).
      { destruct (Z.eq_dec (cheatAttempts (state y)) m) as [Heq|]; [| lia].
        apply Hiff in Heq. rewrite Hnb in Heq. discriminate. }
      unfold checkFocus. rewrite decide_True by exact Hs.
      cbn [testData upd_state set_state]. rewrite (Hmode (or_intror Hs)), Hm.
      cbn. destruct (Z.leb_spec m (cheatAttempts (state y) + 1)).
      * unfold within_limit. cbn. split; [lia |]. split; [intros _; lia | reflexivity].
      * unfold within_limit. cbn. split; [lia |]. rewrite Hnb. split; [discriminate | lia].
    + destruct (handle_flag E p y ev Hload Hnf) as [Hc Hb].
      now apply (Hkeep (state y)).
Qed.

(** Under one document with a positive limit [m] of violations, the
    counter never passes the limit, and the session is locked exactly
    when the counter has reached it: no violation is counted after the
    lockout, and no session is locked early. *)
Theorem cheatAttempts_within_limit
    (E : Env) (p : Props) (td : TestData) (m : Z) (evs : list Event) :
  truthy (max_cheat_attempts td) = Some m -> (0 < m)%Z ->
  Forall (fetches (fun d => d = td)) evs ->
  let y := run E p evs sys0 in
  (0 <= cheatAttempts (state y) <= m)%Z /\
  (isBlocked (state y) = true <-> cheatAttempts (state y) = m).
Proof.
  intros Hm Hpos Hevs.
  assert (H : has_document td (run E p evs sys0) /\
              within_limit m (state (run E p evs sys0)) /\
              (forall s, storage (run E p evs sys0) = Some s -> within_limit m s)).
  { induction evs as [|ev evs IH] using rev_ind.
    - split; [split; [discriminate | intros [?|?]; discriminate] |].
      split; [| discriminate]. split; simpl; [lia |]. split; [discriminate | lia].
    - apply Forall_app in Hevs as [Hevs Hev]. rewrite Forall_singleton in Hev.
      destruct (IH Hevs) as (Hd & Hw & Hs). rewrite run_snoc.
      destruct (run_controls E p evs) as [Hc _].
      pose proof (step_within_limit E p td m _ ev Hm Hpos Hev Hc Hd Hw Hs) as Hw'.
      split; [| split; [exact Hw' |]].
      + assert (Hh : has_document td (handle E p (run E p evs sys0) ev))
          by (apply handle_has_document; [exact Hev | exact Hd]).
        destruct ev; now apply has_document_persist.
      + assert (Hh : within_limit m (state (handle E p (run E p evs sys0) ev)))
          by (destruct ev; unfold step in Hw'; now rewrite persist_state in Hw').
        assert (Hgen : forall before s,
                   storage (persist before (handle E p (run E p evs sys0) ev)) = Some s ->
                   within_limit m s).
        { intros before s Hsome.
          destruct (persist_storage before (handle E p (run E p evs sys0) ev))
            as [H|H]; rewrite H in Hsome.
          - rewrite handle_storage in Hsome. now apply Hs.
          - now injection Hsome as <-. }
        destruct ev; apply Hgen. }
  intros y. now destruct H as (_ & Hw & _).
Qed.

Lemma cheatAttempts_within_limit_witness :
  let y := run MiniSql.env abc_props
             [EvLoad true (Some (abc_quiz (Some 2%Z))) no_draws 1000; EvStart 2000;
              EvFocus true 3000; EvFocus true 4000; EvFocus true 5000;
              EvLoad true (Some (abc_quiz (Some 2%Z))) no_draws 6000;
              EvFocus true 7000] sys0 in
  cheatAttempts (state y) = 2%Z /\ isBlocked (state y) = true.
Proof.
  intros y.
  destruct (cheatAttempts_within_limit MiniSql.env abc_props (abc_quiz (Some 2%Z)) 2
              [EvLoad true (Some (abc_quiz (Some 2%Z))) no_draws 1000; EvStart 2000;
               EvFocus true 3000; EvFocus true 4000; EvFocus true 5000;
               EvLoad true (Some (abc_quiz (Some 2%Z))) no_draws 6000;
               EvFocus true 7000]) as [_ Hiff].
  - reflexivity.
  - lia.
  - repeat constructor; intros d [= <-]; reflexivity.
  - fold y in Hiff. assert (Hc : cheatAttempts (state y) = 2%Z) by (vm_compute; reflexivity).
    split; [exact Hc | now apply Hiff].
Defined.

(** ** The grade *)

Lemma pick_grade_greatest (g : gmap string Z) (p : float) (keys : list string) :
  Sorted (flip Js.str_le) keys ->
  (pick_grade g p keys = Num 2 /\
   forall k th, k ∈ keys -> g !! k = Some th -> PrimFloat.leb (Z2F th) p = false) \/
  (exists k th,
     k ∈ keys /\ g !! k = Some th /\ PrimFloat.leb (Z2F th) p = true /\
     pick_grade g p keys = option_to_JsNum (Js.parseInt k) /\
     forall k' th', k' ∈ keys -> g !! k' = Some th' ->
                    PrimFloat.leb (Z2F th') p = true -> Js.str_le k' k).
Proof.
  intros Hsorted. apply (Sorted_StronglySorted _) in Hsorted.
  induction Hsorted as [|k rest Hrest IH Hall]; simpl.
  - left. split; [reflexivity |]. intros k th Hk. now apply elem_of_nil in Hk.
  - destruct (g !! k) as [th|] eqn:Hk.
    + destruct (PrimFloat.leb (Z2F th) p) eqn:Hle.
      * right. exists k, th. split; [apply list_elem_of_here |].
        split; [exact Hk |]. split; [exact Hle |]. split; [reflexivity |].
        intros k' th' Hin _ _. apply elem_of_cons in Hin as [->|Hin].
        -- destruct (total Js.str_le k k); assumption.
        -- rewrite Forall_forall in Hall. exact (Hall k' Hin).
      * destruct IH as [[Hres Hnone] | (k0 & th0 & Hin0 & Hk0 & Hle0 & Hres & Hmax)].
        -- left. split; [exact Hres |]. intros k' th' Hin Hk'.
           apply elem_of_cons in Hin as [->|Hin]; [| now apply (Hnone k')].
           rewrite Hk in Hk'. now injection Hk' as <-.
        -- right. exists k0, th0. split; [now apply list_elem_of_further |].
           split; [exact Hk0 |]. split; [exact Hle0 |]. split; [exact Hres |].
           intros k' th' Hin Hk' Hle'. apply elem_of_cons in Hin as [->|Hin];
             [| now apply (Hmax k' th')].
           rewrite Hk in Hk'. injection Hk' as <-. rewrite Hle in Hle'. discriminate.
    + destruct IH as [[Hres Hnone] | (k0 & th0 & Hin0 & Hk0 & Hle0 & Hres & Hmax)].
      * left. split; [exact Hres |]. intros k' th' Hin Hk'.
        apply elem_of_cons in Hin as [->|Hin]; [| now apply (Hnone k')].
        rewrite Hk in Hk'. discriminate.
      * right. exists k0, th0. split; [now apply list_elem_of_further |].
        split; [exact Hk0 |]. split; [exact Hle0 |]. split; [exact Hres |].
        intros k' th' Hin Hk' Hle'. apply elem_of_cons in Hin as [->|Hin];
          [| now apply (Hmax k' th')].
        rewrite Hk in Hk'. discriminate.
Qed.

Lemma grade_keys_elem (g : gmap string Z) (k : string) :
  k ∈ grade_keys g <-> is_Some (g !! k).
Proof.
  unfold grade_keys. rewrite elem_of_reverse, sort_perm.
  change (map fst (map_to_list g)) with ((map_to_list g).*1).
  rewrite list_elem_of_fmap. split.
  - intros ([k' v] & -> & Hin). apply elem_of_map_to_list in Hin. simpl. eauto.
  - intros [v Hv]. exists (k, v). split; [reflexivity |]. now apply elem_of_map_to_list.
Qed.

(** The grade is read from the greatest key of [grading], in the order
    of strings, whose threshold the percentage reaches; it is 2 when the
    percentage reaches no threshold.  The keys are compared as strings,
    not as numbers, and the grade is what [parseInt] reads from the key. *)
Theorem final_grade_greatest_key (td : TestData) (totalScore maxScore_ : Z) :
  let percentage := percent totalScore maxScore_ in
  let reached k := exists th, grading td !! k = Some th /\
                              PrimFloat.leb (Z2F th) percentage = true in
  (final_grade td totalScore maxScore_ = Num 2 /\ forall k, ~ reached k) \/
  (exists k, reached k /\
             final_grade td totalScore maxScore_ = option_to_JsNum (Js.parseInt k) /\
             forall k', reached k' -> lex_le k' k).
Proof.
  intros percentage reached. unfold final_grade. fold percentage.
  destruct (pick_grade_greatest (grading td) percentage (grade_keys (grading td)))
    as [[Hres Hnone] | (k & th & Hin & Hk & Hle & Hres & Hmax)].
  - unfold grade_keys. apply Sorted_reverse. apply sort_sorted.
  - left. split; [exact Hres |]. intros k (th & Hk & Hle).
    rewrite (Hnone k th) in Hle; [discriminate | | exact Hk].
    apply grade_keys_elem. eauto.
  - right. exists k. split; [now exists th |]. split; [exact Hres |].
    intros k' (th' & Hk' & Hle'). apply str_le_lex.
    apply (Hmax k' th'); [| exact Hk' | exact Hle'].
    apply grade_keys_elem. eauto.
Qed.

(** ** The time per question *)
























